(** * A private star-registry blockchain: block.js, blockchain.js and
    BlockchainController.js

    Shallow embedding of the ledger engine of the repository (src/block.js,
    src/blockchain.js), of the JavaScript built-ins and packages it calls,
    and of the controller that serves it over HTTP
    (BlockchainController.js), followed by the properties of the engine and
    of the controller.  The logger is left out: it writes to files and to
    the console and returns nothing that the engine reads.

    Conventions of the embedding.
    - A JavaScript string is a Rocq [string]: a sequence of code units below
      256.  Code units above 255 are outside the model.
    - A JavaScript number is an integer of [Z]; fractions, NaN and the
      infinities are outside the model, except that the NaN that [parseInt]
      returns is [None], and that a field of a block written from outside
      the engine may hold NaN ([Untyped]).
    - A promise is modelled by its settlement ([Resolved] or [Rejected])
      together with the ledger it leaves behind; the interleaving of
      concurrent calls is modelled apart, in [EventLoop].
    - The clock is an argument of every operation that reads it.  SHA256 of
      crypto-js and verify of bitcoinjs-message are parameters of the engine:
      the properties hold for every hash function and every verifier, under
      the hypotheses they state.  [CryptoJS.SHA256] is SHA-256 itself; it
      instantiates the parameter in the examples. *)

From Stdlib Require Import ZArith NArith List String Ascii Bool Lia Arith Sorted.
Import ListNotations.

Local Open Scope string_scope.
Local Open Scope Z_scope.

(* ================================================================== *)
(** * JavaScript strings and numbers *)
(* ================================================================== *)

Module JS.

(** Code of a character and character of a code. *)
Definition code (c : ascii) : N := N_of_ascii c.
Definition chr (n : N) : ascii := ascii_of_N n.

Definition dquote : ascii := chr 34.
Definition backslash : ascii := chr 92.

(** [s.length] *)
Definition len (s : string) : nat := String.length s.

(** ** Number.prototype.toString on integers *)

Definition digit_char (d : N) : ascii := chr (48 + d).

Fixpoint N_digits (fuel : nat) (n : N) : string :=
  match fuel with
  | O => EmptyString
  | S f =>
      if (n <? 10)%N then String (digit_char n) EmptyString
      else N_digits f (n / 10)%N ++ String (digit_char (n mod 10)%N) EmptyString
  end.

Definition N_toString (n : N) : string :=
  N_digits (S (N.to_nat (N.log2 n))) n.

(** [z.toString()] for an integer [z].  JavaScript prints so the integers
    up to 2^53 in absolute value, clock readings and heights among them;
    above, it prints the shortest digits that read back as the same number,
    and an exponent from 10^21 on. *)
Definition Number_toString (z : Z) : string :=
  if z <? 0 then String "-" (N_toString (Z.to_N (- z)))
  else N_toString (Z.to_N z).

(** ** String.prototype.slice(0, -k): everything but the last [k] code units *)
Definition slice_0_neg (k : nat) (s : string) : string :=
  substring 0 (len s - k) s.

(** ** String.prototype.split on a one-character separator.
    The result is never empty: a string without separator is its only field. *)
Fixpoint split (sep : ascii) (s : string) : list string :=
  match s with
  | EmptyString => [EmptyString]
  | String c s' =>
      if Ascii.eqb c sep then EmptyString :: split sep s'
      else match split sep s' with
           | h :: t => String c h :: t
           | [] => [String c EmptyString]
           end
  end.

(** [a[i]] on an array: [undefined] out of range. *)
Definition index {A} (l : list A) (i : nat) : option A := nth_error l i.

(** ** parseInt *)

(** White space and line terminators that parseInt skips, among the code
    units below 256: TAB, LF, VT, FF, CR, SP, NBSP. *)
Definition is_js_space (c : ascii) : bool :=
  let n := code c in
  ((9 <=? n) && (n <=? 13) || (n =? 32) || (n =? 160))%N.

Fixpoint trim_start (s : string) : string :=
  match s with
  | String c s' => if is_js_space c then trim_start s' else s
  | EmptyString => EmptyString
  end.

(** Value of a digit in a radix up to 36, if it is one. *)
Definition digit_value (radix : N) (c : ascii) : option N :=
  let n := code c in
  let v := if ((48 <=? n) && (n <=? 57))%N then Some (n - 48)%N
           else if ((97 <=? n) && (n <=? 122))%N then Some (n - 87)%N
           else if ((65 <=? n) && (n <=? 90))%N then Some (n - 55)%N
           else None in
  match v with
  | Some d => if (d <? radix)%N then Some d else None
  | None => None
  end.

(** Longest prefix of digits, accumulated from [acc]; [seen] tells whether a
    digit was read. *)
Fixpoint read_digits (radix : N) (s : string) (acc : N) (seen : bool)
  : option N * string :=
  match s with
  | String c s' =>
      match digit_value radix c with
      | Some d => read_digits radix s' (acc * radix + d)%N true
      | None => (if seen then Some acc else None, s)
      end
  | EmptyString => (if seen then Some acc else None, s)
  end.

Definition strip_sign (s : string) : bool * string :=
  match s with
  | String "-" s' => (true, s')
  | String "+" s' => (false, s')
  | _ => (false, s)
  end.

Definition strip_0x (s : string) : bool * string :=
  match s with
  | String "0" (String "x" s') => (true, s')
  | String "0" (String "X" s') => (true, s')
  | _ => (false, s)
  end.

(** [parseInt(s, radix)]; radix [None] is the one-argument call.  [None] as a
    result is NaN. *)
Definition parseInt_radix (s : string) (radix : option N) : option Z :=
  let (neg, s1) := strip_sign (trim_start s) in
  let (r, s2) :=
    match radix with
    | None => let (hex, s2) := strip_0x s1 in ((if hex then 16 else 10)%N, s2)
    | Some 16%N => (16%N, snd (strip_0x s1))
    | Some r => (r, s1)
    end in
  match fst (read_digits r s2 0 false) with
  | Some n => Some (if neg then - Z.of_N n else Z.of_N n)
  | None => None
  end.

(** [parseInt(x)] where [x] may be [undefined]: the string "undefined" holds
    no digit. *)
Definition parseInt (x : option string) : option Z :=
  match x with
  | Some s => parseInt_radix s None
  | None => None
  end.

(** [a - b < c] on numbers that may be NaN: a comparison with NaN is false. *)
Definition sub_lt (a b : option Z) (c : Z) : bool :=
  match a, b with
  | Some x, Some y => x - y <? c
  | _, _ => false
  end.

(** Truthiness of a string: the empty string is the only falsy one. *)
Definition truthy_string (s : string) : bool :=
  match s with EmptyString => false | _ => true end.

(** The text starts with a digit of the radix. *)
Definition starts_with_digit (radix : N) (s : string) : bool :=
  match s with
  | String c _ => match digit_value radix c with Some _ => true | None => false end
  | EmptyString => false
  end.

End JS.

(* ================================================================== *)
(** * JSON values, JSON.stringify and JSON.parse *)
(* ================================================================== *)

Module JSON.
Import JS.

(** A value that JSON can carry.  An object is the list of its own
    properties in enumeration order. *)
Unset Elimination Schemes.
Inductive json : Type :=
| JNull
| JBool (b : bool)
| JNum (n : Z)
| JStr (s : string)
| JArr (l : list json)
| JObj (m : list (string * json)).
Set Elimination Schemes.

(** Induction with the hypotheses for the values nested in arrays and
    objects. *)
Definition json_ind (P : json -> Prop)
  (Hnull : P JNull) (Hbool : forall b, P (JBool b)) (Hnum : forall n, P (JNum n))
  (Hstr : forall s, P (JStr s))
  (Harr : forall l, Forall P l -> P (JArr l))
  (Hobj : forall m, Forall (fun kv => P (snd kv)) m -> P (JObj m))
  : forall v, P v :=
  fix F (v : json) : P v :=
    match v with
    | JNull => Hnull
    | JBool b => Hbool b
    | JNum n => Hnum n
    | JStr s => Hstr s
    | JArr l =>
        Harr l ((fix G (l : list json) : Forall P l :=
                   match l with
                   | [] => Forall_nil P
                   | x :: r => Forall_cons x (F x) (G r)
                   end) l)
    | JObj m =>
        Hobj m ((fix G (m : list (string * json)) : Forall (fun kv => P (snd kv)) m :=
                   match m with
                   | [] => Forall_nil _
                   | kv :: r => Forall_cons kv (F (snd kv)) (G r)
                   end) m)
    end.

(** ** JSON.stringify *)

Definition hex_digit (n : N) : ascii :=
  if (n <? 10)%N then chr (48 + n) else chr (87 + n).

(** QuoteJSONString, one code unit at a time. *)
Definition quote_char (c : ascii) : string :=
  let n := code c in
  if (n =? 8)%N then "\b"
  else if (n =? 9)%N then "\t"
  else if (n =? 10)%N then "\n"
  else if (n =? 12)%N then "\f"
  else if (n =? 13)%N then "\r"
  else if (n =? 34)%N then String backslash (String dquote EmptyString)
  else if (n =? 92)%N then String backslash (String backslash EmptyString)
  else if (n <? 32)%N then
    "\u00" ++ String (hex_digit (n / 16)) (String (hex_digit (n mod 16)) EmptyString)
  else String c EmptyString.

Fixpoint quote_chars (s : string) : string :=
  match s with
  | EmptyString => EmptyString
  | String c r => quote_char c ++ quote_chars r
  end.

Definition quote (s : string) : string :=
  String dquote (quote_chars s ++ String dquote EmptyString).

Section Joined.
Context {A : Type} (print : A -> string).
(** The prints of the elements, separated by commas. *)
Fixpoint joined (l : list A) : string :=
  match l with
  | [] => EmptyString
  | x :: r =>
      match r with
      | [] => print x
      | _ :: _ => print x ++ String "," (joined r)
      end
  end.
End Joined.

Fixpoint stringify (v : json) : string :=
  match v with
  | JNull => "null"
  | JBool true => "true"
  | JBool false => "false"
  | JNum n => Number_toString n
  | JStr s => quote s
  | JArr l =>
      String "["
        ((fix elems (l : list json) : string :=
            match l with
            | [] => EmptyString
            | x :: r =>
                match r with
                | [] => stringify x
                | _ :: _ => stringify x ++ String "," (elems r)
                end
            end) l ++ "]")
  | JObj m =>
      String "{"
        ((fix members (m : list (string * json)) : string :=
            match m with
            | [] => EmptyString
            | kv :: r =>
                match r with
                | [] => quote (fst kv) ++ String ":" (stringify (snd kv))
                | _ :: _ =>
                    (quote (fst kv) ++ String ":" (stringify (snd kv)))
                    ++ String "," (members r)
                end
            end) m ++ "}")
  end.

Definition member (kv : string * json) : string :=
  quote (fst kv) ++ String ":" (stringify (snd kv)).

(** ** Property creation order of an ordinary object *)

(** An array index: the canonical decimal text of an integer below 2^32 - 1.
    Such keys are enumerated first, in ascending order. *)
Definition array_index (k : string) : option N :=
  match read_digits 10 k 0 false with
  | (Some n, EmptyString) =>
      if (String.eqb (N_toString n) k && (n <? 4294967295)%N)%bool
      then Some n else None
  | _ => None
  end.

Fixpoint has_key (k : string) (o : list (string * json)) : bool :=
  match o with
  | [] => false
  | (k', _) :: r => String.eqb k k' || has_key k r
  end.

Fixpoint replace_value (k : string) (v : json) (o : list (string * json)) :=
  match o with
  | [] => []
  | (k', v') :: r =>
      if String.eqb k k' then (k', v) :: r else (k', v') :: replace_value k v r
  end.

Fixpoint insert_index (n : N) (k : string) (v : json) (o : list (string * json)) :=
  match o with
  | [] => [(k, v)]
  | (k', v') :: r =>
      match array_index k' with
      | Some n' =>
          if (n' <? n)%N then (k', v') :: insert_index n k v r
          else (k, v) :: o
      | None => (k, v) :: o
      end
  end.

(** Defining the property [k] with value [v] on the object [o]. *)
Definition obj_set (k : string) (v : json) (o : list (string * json)) :=
  if has_key k o then replace_value k v o
  else match array_index k with
       | Some n => insert_index n k v o
       | None => (o ++ [(k, v)])%list
       end.

(** [o.k]: the value of an own property, [undefined] when absent. *)
Fixpoint get (k : string) (o : list (string * json)) : option json :=
  match o with
  | [] => None
  | (k', v) :: r => if String.eqb k k' then Some v else get k r
  end.

(** ** JSON.parse
    [None] is a SyntaxError, or a text that holds a number with a fraction or
    an exponent, or an escape of a code unit above 255, which are outside the
    model. *)

Definition is_ws (c : ascii) : bool :=
  let n := code c in ((n =? 32) || (n =? 9) || (n =? 10) || (n =? 13))%N.

Fixpoint skip_ws (s : string) : string :=
  match s with
  | String c r => if is_ws c then skip_ws r else s
  | EmptyString => EmptyString
  end.

(** The rest of [s] after the prefix [p]. *)
Fixpoint strip (p s : string) : option string :=
  match p, s with
  | EmptyString, _ => Some s
  | String a p', String b s' => if Ascii.eqb a b then strip p' s' else None
  | String _ _, EmptyString => None
  end.

Definition unescape (e : ascii) : option ascii :=
  let n := code e in
  if (n =? 34)%N then Some dquote
  else if (n =? 92)%N then Some backslash
  else if (n =? 47)%N then Some "/"%char
  else if (n =? 98)%N then Some (chr 8)
  else if (n =? 102)%N then Some (chr 12)
  else if (n =? 110)%N then Some (chr 10)
  else if (n =? 114)%N then Some (chr 13)
  else if (n =? 116)%N then Some (chr 9)
  else None.

Definition hex4 (a b c d : ascii) : option N :=
  match digit_value 16 a, digit_value 16 b, digit_value 16 c, digit_value 16 d with
  | Some x, Some y, Some z, Some w => Some (((x * 16 + y) * 16 + z) * 16 + w)%N
  | _, _, _, _ => None
  end.

Definition cons_char (c : ascii) (r : option (string * string)) :=
  match r with
  | Some (str, rest) => Some (String c str, rest)
  | None => None
  end.

(** The characters of a string literal, after its opening quote. *)
Fixpoint parse_chars (s : string) : option (string * string) :=
  match s with
  | EmptyString => None
  | String c r =>
      if Ascii.eqb c dquote then Some (EmptyString, r)
      else if Ascii.eqb c backslash then
        match r with
        | String e r1 =>
            match unescape e with
            | Some ch => cons_char ch (parse_chars r1)
            | None =>
                if Ascii.eqb e "u" then
                  match r1 with
                  | String h1 (String h2 (String h3 (String h4 r2))) =>
                      match hex4 h1 h2 h3 h4 with
                      | Some n =>
                          if (n <? 256)%N then cons_char (chr n) (parse_chars r2)
                          else None
                      | None => None
                      end
                  | _ => None
                  end
                else None
            end
        | EmptyString => None
        end
      else if (code c <? 32)%N then None
      else cons_char c (parse_chars r)
  end.

(** An integer literal: an optional minus sign, then 0 or a digit from 1 to 9
    followed by digits. *)
Definition parse_number (s : string) : option (Z * string) :=
  let (neg, s1) := match s with
                   | String "-" r => (true, r)
                   | _ => (false, s)
                   end in
  match s1 with
  | String "0" r => Some (0, r)
  | _ => match read_digits 10 s1 0 false with
         | (Some n, r) => Some (if neg then - Z.of_N n else Z.of_N n, r)
         | (None, _) => None
         end
  end.

Fixpoint parse_value (fuel : nat) (s : string) : option (json * string) :=
  match fuel with
  | O => None
  | S f =>
      match skip_ws s with
      | EmptyString => None
      | String c r =>
          if Ascii.eqb c "n" then
            match strip "ull" r with Some r' => Some (JNull, r') | None => None end
          else if Ascii.eqb c "t" then
            match strip "rue" r with Some r' => Some (JBool true, r') | None => None end
          else if Ascii.eqb c "f" then
            match strip "alse" r with Some r' => Some (JBool false, r') | None => None end
          else if Ascii.eqb c dquote then
            match parse_chars r with
            | Some (str, r') => Some (JStr str, r')
            | None => None
            end
          else if Ascii.eqb c "[" then
            match skip_ws r with
            | String "]" r' => Some (JArr [], r')
            | _ => parse_elements f r []
            end
          else if Ascii.eqb c "{" then
            match skip_ws r with
            | String "}" r' => Some (JObj [], r')
            | _ => parse_members f r []
            end
          else
            match parse_number (String c r) with
            | Some (n, r') => Some (JNum n, r')
            | None => None
            end
      end
  end

with parse_elements (fuel : nat) (s : string) (acc : list json)
  : option (json * string) :=
  match fuel with
  | O => None
  | S f =>
      match parse_value f s with
      | Some (v, r) =>
          match skip_ws r with
          | String "," r' => parse_elements f r' (acc ++ [v])%list
          | String "]" r' => Some (JArr (acc ++ [v])%list, r')
          | _ => None
          end
      | None => None
      end
  end

with parse_members (fuel : nat) (s : string) (acc : list (string * json))
  : option (json * string) :=
  match fuel with
  | O => None
  | S f =>
      match skip_ws s with
      | String c r =>
          if Ascii.eqb c dquote then
            match parse_chars r with
            | Some (k, r1) =>
                match skip_ws r1 with
                | String ":" r2 =>
                    match parse_value f r2 with
                    | Some (v, r3) =>
                        match skip_ws r3 with
                        | String "," r4 => parse_members f r4 (obj_set k v acc)
                        | String "}" r4 => Some (JObj (obj_set k v acc), r4)
                        | _ => None
                        end
                    | None => None
                    end
                | _ => None
                end
            | None => None
            end
          else None
      | EmptyString => None
      end
  end.

(** [JSON.parse(text)] *)
Definition parse (text : string) : option json :=
  match parse_value (S (len text)) text with
  | Some (v, r) =>
      match skip_ws r with
      | EmptyString => Some v
      | String _ _ => None
      end
  | None => None
  end.

(** The character a number starts with. *)
Definition number_start (c : ascii) : bool :=
  (Ascii.eqb c "-" || match digit_value 10 c with Some _ => true | None => false end)%bool.

(** The character a value starts with: never white space, never a closing
    bracket. *)
Definition value_start (c : ascii) : bool :=
  (number_start c || Ascii.eqb c "n" || Ascii.eqb c "t" || Ascii.eqb c "f"
   || Ascii.eqb c dquote || Ascii.eqb c "[" || Ascii.eqb c "{")%bool.

End JSON.

(* ================================================================== *)
(** * Buffer and hex2ascii *)
(* ================================================================== *)

Module Buffer.
Import JS.

(** A byte is a number below 256. *)
Definition byte := N.

(** UTF-8 of one code unit below 256: one byte below 128, two bytes from
    128 on. *)
Definition utf8_char (c : ascii) : list byte :=
  let n := code c in
  if (n <? 128)%N then [n] else [(192 + n / 64)%N; (128 + n mod 64)%N].

(** [Buffer.from(s)]: the UTF-8 bytes of the string. *)
Fixpoint from (s : string) : list byte :=
  match s with
  | EmptyString => []
  | String c r => (utf8_char c ++ from r)%list
  end.

(** [buf.toString('hex')]: two lower-case hexadecimal digits per byte. *)
Fixpoint toString_hex (b : list byte) : string :=
  match b with
  | [] => EmptyString
  | x :: r =>
      String (JSON.hex_digit (x / 16)) (String (JSON.hex_digit (x mod 16)) (toString_hex r))
  end.

End Buffer.

Module Hex2Ascii.
Import JS.

(** The hex2ascii package, a dependency of the engine as Buffer and JSON
    are.  It removes white space from the text, reads it two characters at a
    time with [parseInt(pair, 16)] and appends [String.fromCharCode(code)]
    for every pair whose code is a number other than zero. *)

Fixpoint remove_spaces (s : string) : string :=
  match s with
  | EmptyString => EmptyString
  | String c r => if is_js_space c then remove_spaces r else String c (remove_spaces r)
  end.

(** [String.fromCharCode(z)].  A code above 255, which only a pair with a
    minus sign gives, is outside the model and is truncated to 8 bits. *)
Definition fromCharCode (z : Z) : ascii := chr (Z.to_N (z mod 65536)).

Definition decode_pair (p : string) : string :=
  match parseInt_radix p (Some 16%N) with
  | Some c => if c =? 0 then EmptyString else String (fromCharCode c) EmptyString
  | None => EmptyString
  end.

Fixpoint decode_pairs (s : string) : string :=
  match s with
  | String a (String b r) => decode_pair (String a (String b EmptyString)) ++ decode_pairs r
  | String a EmptyString => decode_pair (String a EmptyString)
  | EmptyString => EmptyString
  end.

Definition hex2ascii (hex : string) : string := decode_pairs (remove_spaces hex).

End Hex2Ascii.

(* ================================================================== *)
(** * crypto-js *)
(* ================================================================== *)

Module CryptoJS.
Local Open Scope N_scope.

(** SHA-256 (FIPS 180-4) on 32-bit words held in [N]. *)
Definition w32 (x : N) : N := N.land x 0xffffffff.
Definition add32 (x y : N) : N := w32 (x + y).
Definition rotr (n x : N) : N := N.lor (N.shiftr x n) (w32 (N.shiftl x (32 - n))).
Definition not32 (x : N) : N := N.lxor x 0xffffffff.

Definition Ch (x y z : N) : N := N.lxor (N.land x y) (N.land (not32 x) z).
Definition Maj (x y z : N) : N :=
  N.lxor (N.land x y) (N.lxor (N.land x z) (N.land y z)).
Definition Sigma0 (x : N) : N := N.lxor (rotr 2 x) (N.lxor (rotr 13 x) (rotr 22 x)).
Definition Sigma1 (x : N) : N := N.lxor (rotr 6 x) (N.lxor (rotr 11 x) (rotr 25 x)).
Definition sigma0 (x : N) : N := N.lxor (rotr 7 x) (N.lxor (rotr 18 x) (N.shiftr x 3)).
Definition sigma1 (x : N) : N := N.lxor (rotr 17 x) (N.lxor (rotr 19 x) (N.shiftr x 10)).

(** The constants of FIPS 180-4 are fractional parts of roots of the first
    primes: the first 32 bits of the fractional part of the square root of
    each of the first 8 primes for the initial hash value, and of the cube
    root of each of the first 64 primes for the round constants. *)
Definition is_prime (n : nat) : bool :=
  forallb (fun d => negb (Nat.eqb (n mod d) 0)) (seq 2 (n - 2)).

Definition primes : list N := map N.of_nat (filter is_prime (seq 2 310)).

(** The integer cube root, one bit at a time from bit [bits - 1] down. *)
Fixpoint cube_root (bits : nat) (n r : N) : N :=
  match bits with
  | O => r
  | S b =>
      let r' := r + N.shiftl 1 (N.of_nat b) in
      cube_root b n (if r' * r' * r' <=? n then r' else r)
  end.

Definition K : list N :=
  Eval vm_compute in
    map (fun p => w32 (cube_root 36 (N.shiftl p 96) 0)) primes.

Definition H0 : list N :=
  Eval vm_compute in
    map (fun p => w32 (N.sqrt (N.shiftl p 64))) (firstn 8 primes).

(** Padding: the byte 0x80, zeros up to 56 modulo 64, the bit length on 8
    bytes, most significant first. *)
Definition be_bytes (n : nat) (x : N) : list N :=
  map (fun i => N.land (N.shiftr x (8 * N.of_nat i)) 0xff) (rev (seq 0 n)).

Definition pad (msg : list N) : list N :=
  let l := List.length msg in
  let zeros := ((64 - (l + 9) mod 64) mod 64)%nat in
  (msg ++ [0x80] ++ repeat 0 zeros ++ be_bytes 8 (8 * N.of_nat l))%list.

Fixpoint words (bytes : list N) : list N :=
  match bytes with
  | a :: b :: c :: d :: r =>
      (N.shiftl a 24 + N.shiftl b 16 + N.shiftl c 8 + d) :: words r
  | _ => []
  end.

Fixpoint chunks (fuel : nat) (ws : list N) : list (list N) :=
  match fuel, ws with
  | S f, _ :: _ => firstn 16 ws :: chunks f (skipn 16 ws)
  | _, _ => []
  end.

(** The message schedule, most recent word first. *)
Fixpoint extend (n : nat) (w : list N) : list N :=
  match n with
  | O => w
  | S n' =>
      let new := add32 (add32 (sigma1 (nth 1 w 0)) (nth 6 w 0))
                       (add32 (sigma0 (nth 14 w 0)) (nth 15 w 0)) in
      extend n' (new :: w)
  end.

Definition schedule (chunk : list N) : list N := rev (extend 48 (rev chunk)).

Definition round (s : list N) (kw : N * N) : list N :=
  match s with
  | [a; b; c; d; e; f; g; h] =>
      let t1 := add32 (add32 (add32 h (Sigma1 e)) (add32 (Ch e f g) (fst kw))) (snd kw) in
      let t2 := add32 (Sigma0 a) (Maj a b c) in
      [add32 t1 t2; a; b; c; add32 d t1; e; f; g]
  | _ => s
  end.

Definition compress (h : list N) (chunk : list N) : list N :=
  let s := fold_left round (combine K (schedule chunk)) h in
  map (fun p => add32 (fst p) (snd p)) (combine h s).

Definition digest (msg : list N) : list N :=
  let ws := words (pad msg) in
  let h := fold_left compress (chunks (List.length ws) ws) H0 in
  List.concat (map (be_bytes 4) h).

(** [SHA256(s).toString()]: the digest of the UTF-8 bytes of [s], in
    hexadecimal. *)
Definition SHA256 (s : string) : string :=
  Buffer.toString_hex (digest (Buffer.from s)).

End CryptoJS.

(* ================================================================== *)
(** * Settlements *)
(* ================================================================== *)

(** An entry of the error log of validateChain: [{ block: i, error: msg }]. *)
Record ChainError := mkChainError { block : nat; error : string }.

(** What a promise is rejected with. *)
Inductive Reason :=
| ErrorLog (errors : list ChainError)   (* reject(errors) *)
| Error (message : string)              (* reject(new Error(message)) *)
| Message (text : string)               (* reject('text') *)
| Thrown (what : string).               (* an exception of a built-in or a dependency *)

Inductive Promise (A : Type) :=
| Resolved (a : A)
| Rejected (e : Reason).
Arguments Resolved {A} a.
Arguments Rejected {A} e.

(** Outcome of a call that may throw. *)
Inductive Completion (A : Type) :=
| Returns (a : A)
| Throws (what : string).
Arguments Returns {A} a.
Arguments Throws {A} what.

(* ================================================================== *)
(** * block.js *)
(* ================================================================== *)

Module Block.
Import JS JSON.

(** The own properties of a Block, in the order the constructor creates
    them.  [hash] and [previousBlockHash] are null or a string; [time] is the
    number 0 until _addBlock stores a string there. *)
Record t := mk {
  hash : option string;
  height : Z;
  body : string;
  time : json;
  previousBlockHash : option string
}.

Definition set_hash (h : option string) (b : t) : t :=
  mk h (height b) (body b) (time b) (previousBlockHash b).
Definition set_height (n : Z) (b : t) : t :=
  mk (hash b) n (body b) (time b) (previousBlockHash b).
Definition set_body (s : string) (b : t) : t :=
  mk (hash b) (height b) s (time b) (previousBlockHash b).
Definition set_time (v : json) (b : t) : t :=
  mk (hash b) (height b) (body b) v (previousBlockHash b).
Definition set_previousBlockHash (h : option string) (b : t) : t :=
  mk (hash b) (height b) (body b) (time b) h.

(** [Buffer.from(JSON.stringify(data)).toString('hex')] *)
Definition encode (data : json) : string :=
  Buffer.toString_hex (Buffer.from (stringify data)).

(** [JSON.parse(hex2ascii(body))] *)
Definition decode (body : string) : option json :=
  parse (Hex2Ascii.hex2ascii body).

(** [new Block(data)] *)
Definition constructor (data : json) : t :=
  {| hash := None;
     height := 0;
     body := encode data;
     time := JNum 0;
     previousBlockHash := None |}.

Definition nullable (x : option string) : json :=
  match x with
  | Some s => JStr s
  | None => JNull
  end.

(** The block as JSON.stringify sees it. *)
Definition to_json (b : t) : json :=
  JObj [("hash", nullable (hash b));
        ("height", JNum (height b));
        ("body", JStr (body b));
        ("time", time b);
        ("previousBlockHash", nullable (previousBlockHash b))].

Section Hashing.
(** [s => SHA256(s).toString()] of crypto-js. *)
Variable SHA256 : string -> string.

(** [validate()]: the settlement value of the promise. *)
Definition validate (self : t) : bool :=
  let currentHash := hash self in
  let blockCopy := set_hash None self in
  let recalcHash := SHA256 (stringify (to_json blockCopy)) in
  match currentHash with
  | Some h => String.eqb h recalcHash
  | None => false
  end.
End Hashing.

(** [getBData()] *)
Definition getBData (self : t) : Promise json :=
  if negb (height self =? 0) then
    let encodedData := body self in
    let decodedData := Hex2Ascii.hex2ascii encodedData in
    match parse decodedData with
    | Some dataObject => Resolved dataObject
    | None => Rejected (Thrown "SyntaxError")
    end
  else Rejected (Message "Genesis block has no transaction data").

End Block.

(* ================================================================== *)
(** * blockchain.js *)
(* ================================================================== *)

Module Blockchain.
Import JS JSON.

Record t := mk {
  chain : list Block.t;
  height : Z
}.

(** [new Date().getTime().toString().slice(0,-3)] for a clock that reads
    [now] milliseconds. *)
Definition seconds_text (now : Z) : string :=
  slice_0_neg 3 (Number_toString now).

(** Strict equality of two values that are null or a string. *)
Definition nullable_eqb (a b : option string) : bool :=
  match a, b with
  | Some x, Some y => String.eqb x y
  | None, None => true
  | _, _ => false
  end.

(** [l.map((x, i) => f i x)] *)
Fixpoint mapi_from {A B} (i : nat) (f : nat -> A -> B) (l : list A) : list B :=
  match l with
  | [] => []
  | x :: r => f i x :: mapi_from (S i) f r
  end.
Definition mapi {A B} (f : nat -> A -> B) (l : list A) : list B := mapi_from 0 f l.

(** Truthiness of a property value; [None] is [undefined]. *)
Definition truthy (v : option json) : bool :=
  match v with
  | None => false
  | Some JNull => false
  | Some (JBool b) => b
  | Some (JNum n) => negb (n =? 0)
  | Some (JStr s) => truthy_string s
  | Some (JArr _) => true
  | Some (JObj _) => true
  end.

(** [v === s] for a string [s]. *)
Definition strict_eq_string (v : option json) (s : string) : bool :=
  match v with
  | Some (JStr x) => String.eqb x s
  | _ => false
  end.

(** [v.k]: reading a property of null throws; a value other than an object
    has no property named owner or star. *)
Definition property (k : string) (v : json) : Completion (option json) :=
  match v with
  | JNull => Throws "TypeError"
  | JObj o => Returns (get k o)
  | _ => Returns None
  end.

Section Engine.
(** [s => SHA256(s).toString()] of crypto-js. *)
Variable SHA256 : string -> string.
(** [bitcoinMessage.verify(message, address, signature)] *)
Variable verify : string -> string -> string -> Completion bool.

(** The callback of validateChain for the block at index [i]. *)
Definition check_block (self : t) (i : nat) (b : Block.t) : list ChainError :=
  let isValid := Block.validate SHA256 b in
  ((if negb isValid then [mkChainError i "Block validation failed"] else [])
   ++
   (if (0 <? i)%nat &&
       match index (chain self) (i - 1) with
       | Some p => negb (nullable_eqb (Block.previousBlockHash b) (Block.hash p))
       | None => true
       end
    then [mkChainError i "Previous block hash mismatch"] else []))%list.

(** [validateChain()]: the error log. *)
Definition validateChain (self : t) : list ChainError :=
  List.concat (mapi (check_block self) (chain self)).

(** [_addBlock(block)] when the clock reads [now]: the settlement and the
    chain it leaves. *)
Definition _addBlock (now : Z) (block : Block.t) (self : t)
  : Promise Block.t * t :=
  let block :=
    if (0 <? List.length (chain self))%nat then
      match index (chain self) (List.length (chain self) - 1) with
      | Some last => Block.set_previousBlockHash (Block.hash last) block
      | None => block
      end
    else block in
  let block := Block.set_time (JStr (seconds_text now)) block in
  let block := Block.set_height (Z.of_nat (List.length (chain self))) block in
  let block := Block.set_hash (Some (SHA256 (stringify (Block.to_json block)))) block in
  let self := mk (chain self ++ [block]) (height self + 1) in
  let errors := validateChain self in
  if (0 <? List.length errors)%nat then (Rejected (ErrorLog errors), self)
  else (Resolved block, self).

(** [initializeChain()] *)
Definition initializeChain (now : Z) (self : t) : t :=
  if height self =? -1 then
    let block := Block.constructor (JObj [("data", JStr "Genesis Block")]) in
    snd (_addBlock now block self)
  else self.

(** [new Blockchain()] *)
Definition constructor (now : Z) : t :=
  initializeChain now (mk [] (-1)).

(** [getChainHeight()] *)
Definition getChainHeight (self : t) : Z := height self.

(** [requestMessageOwnershipVerification(address)] *)
Definition requestMessageOwnershipVerification (now : Z) (address : string) : string :=
  address ++ ":" ++ seconds_text now ++ ":starRegistry".

(** [submitStar(address, message, signature, star)]; the clock reads [now]
    when the message is checked and [now'] when the block is added. *)
Definition submitStar (now now' : Z) (address message signature : string)
  (star : json) (self : t) : Promise Block.t * t :=
  let messageTime := parseInt (index (split ":" message) 1) in
  let currentTime := parseInt (Some (seconds_text now)) in
  if sub_lt currentTime messageTime 300 then
    match verify message address signature with
    | Returns true =>
        let block := Block.constructor (JObj [("owner", JStr address); ("star", star)]) in
        _addBlock now' block self
    | Returns false => (Rejected (Error "Signature verification failed."), self)
    | Throws what => (Rejected (Thrown what), self)
    end
  else (Rejected (Error "Message signature has expired."), self).

(** [getBlockByHash(hash)]; [None] is null. *)
Definition getBlockByHash (hash : string) (self : t) : option Block.t :=
  find (fun p => nullable_eqb (Block.hash p) (Some hash)) (chain self).

(** [getBlockByHeight(height)]; [None] is null. *)
Definition getBlockByHeight (height : Z) (self : t) : option Block.t :=
  find (fun p => Block.height p =? height) (chain self).

(** The callback that getStarsByWalletAddress maps over the chain: the star
    of the block, [undefined] when the owner is another one. *)
Definition star_of (address : string) (b : Block.t) : Completion (option json) :=
  match Block.decode (Block.body b) with
  | None => Throws "SyntaxError"
  | Some decodedData =>
      match property "owner" decodedData with
      | Throws what => Throws what
      | Returns owner =>
          if truthy owner && strict_eq_string owner address
          then property "star" decodedData
          else Returns None
      end
  end.

(** [l.map(f)] for a callback that may throw. *)
Fixpoint map_completion {A B} (f : A -> Completion B) (l : list A)
  : Completion (list B) :=
  match l with
  | [] => Returns []
  | x :: r =>
      match f x with
      | Throws what => Throws what
      | Returns y =>
          match map_completion f r with
          | Throws what => Throws what
          | Returns ys => Returns (y :: ys)
          end
      end
  end.

(** [l.filter(star => star !== undefined)] *)
Fixpoint defined {A} (l : list (option A)) : list A :=
  match l with
  | [] => []
  | Some x :: r => x :: defined r
  | None :: r => defined r
  end.

(** [getStarsByWalletAddress(address)]; [None] is null. *)
Definition getStarsByWalletAddress (address : string) (self : t)
  : Promise (option (list json)) :=
  match map_completion (star_of address) (chain self) with
  | Throws what => Rejected (Thrown what)
  | Returns mapped =>
      let stars := defined mapped in
      if (0 <? List.length stars)%nat then Resolved (Some stars) else Resolved None
  end.

End Engine.
End Blockchain.

(* ================================================================== *)
(** * Values as JSON.parse rebuilds them *)
(* ================================================================== *)

Module Normal.
Import JS JSON.

(** Defining the properties of [m] one after the other on the object [acc]. *)
Definition set_all (m acc : list (string * json)) : list (string * json) :=
  fold_left (fun o kv => obj_set (fst kv) (snd kv) o) m acc.

(** The value with every object rebuilt by defining its properties in the
    order of the list.  A list that is the enumeration of a JavaScript object
    (no key twice, array indices first and ascending) is rebuilt as itself. *)
Fixpoint normalize (v : json) : json :=
  match v with
  | JArr l => JArr (map normalize l)
  | JObj m => JObj (set_all (map (fun kv => (fst kv, normalize (snd kv))) m) [])
  | _ => v
  end.

(** [v] is the enumeration of a JavaScript value. *)
Definition wf (v : json) : Prop := normalize v = v.

(** The UTF-8 bytes of one code unit, each read as a code unit: the code
    unit itself below 128, two code units from 128 on. *)
Definition latin1_of_utf8 (c : ascii) : string :=
  let n := code c in
  if (n <? 128)%N then String c EmptyString
  else String (chr (192 + n / 64)) (String (chr (128 + n mod 64)) EmptyString).

(** What hex2ascii makes of the hexadecimal UTF-8 form of a string: as
    [latin1_of_utf8], but code 0 is dropped. *)
Definition garble_char (c : ascii) : string :=
  if (code c =? 0)%N then EmptyString else latin1_of_utf8 c.

Fixpoint garble (s : string) : string :=
  match s with
  | EmptyString => EmptyString
  | String c r => garble_char c ++ garble r
  end.

Fixpoint mojibake (s : string) : string :=
  match s with
  | EmptyString => EmptyString
  | String c r => latin1_of_utf8 c ++ mojibake r
  end.

(** The value with every string and every key read byte by byte from its
    UTF-8 form. *)
Fixpoint mojibake_json (v : json) : json :=
  match v with
  | JStr s => JStr (mojibake s)
  | JArr l => JArr (map mojibake_json l)
  | JObj m => JObj (map (fun kv => (mojibake (fst kv), mojibake_json (snd kv))) m)
  | _ => v
  end.

(** Every code unit is below 128. *)
Fixpoint is_ascii (s : string) : bool :=
  match s with
  | EmptyString => true
  | String c r => (code c <? 128)%N && is_ascii r
  end.

Fixpoint all_ascii (v : json) : bool :=
  match v with
  | JStr s => is_ascii s
  | JArr l => forallb all_ascii l
  | JObj m => forallb (fun kv => is_ascii (fst kv) && all_ascii (snd kv)) m
  | _ => true
  end.

(** [parse_value] reads back the text of [v], whatever follows it, provided
    no digit follows (a digit would extend a number). *)
Definition parses (v : json) : Prop :=
  forall f r,
    (len (stringify v) <= f)%nat -> starts_with_digit 10 r = false ->
    parse_value f (stringify v ++ r) = Some (normalize v, r).

End Normal.

(* ================================================================== *)
(** * Ledgers that the engine builds *)
(* ================================================================== *)

Module Ledger.
Import JS JSON Normal.

Section Engine.
Variable SHA256 : string -> string.
Variable verify : string -> string -> string -> Completion bool.

(** The block as _addBlock pushes it: linked, stamped, numbered, hashed. *)
Definition appended (now : Z) (block : Block.t) (self : Blockchain.t) : Block.t :=
  let block :=
    if (0 <? List.length (Blockchain.chain self))%nat then
      match index (Blockchain.chain self) (List.length (Blockchain.chain self) - 1) with
      | Some last => Block.set_previousBlockHash (Block.hash last) block
      | None => block
      end
    else block in
  let block := Block.set_time (JStr (Blockchain.seconds_text now)) block in
  let block := Block.set_height (Z.of_nat (List.length (Blockchain.chain self))) block in
  Block.set_hash (Some (SHA256 (stringify (Block.to_json block)))) block.

(** The ledgers reachable by genesis initialization followed by successful
    appends of newly constructed blocks. *)
Inductive reachable : Blockchain.t -> Prop :=
| reachable_genesis (now : Z) :
    reachable (Blockchain.constructor SHA256 now)
| reachable_append (self : Blockchain.t) (now : Z) (data : json)
    (b : Block.t) (self' : Blockchain.t) :
    reachable self ->
    Blockchain._addBlock SHA256 now (Block.constructor data) self = (Resolved b, self') ->
    reachable self'.

(** The ledgers built by the operations of the engine, with the records
    submitted so far, oldest first. *)
Inductive built : list (string * json) -> Blockchain.t -> Prop :=
| built_genesis (now : Z) :
    built [] (Blockchain.constructor SHA256 now)
| built_submit (hist : list (string * json)) (self : Blockchain.t)
    (now now' : Z) (address message signature : string) (star : json)
    (b : Block.t) (self' : Blockchain.t) :
    built hist self ->
    Blockchain.submitStar SHA256 verify now now' address message signature star self
      = (Resolved b, self') ->
    built (hist ++ [(address, star)]) self'.

(** Chain well-formedness. *)
Record well_formed (self : Blockchain.t) : Prop := {
  wf_height_is_index :
    forall i b, index (Blockchain.chain self) i = Some b -> Block.height b = Z.of_nat i;
  wf_genesis_unlinked :
    forall b, index (Blockchain.chain self) 0 = Some b -> Block.previousBlockHash b = None;
  wf_linked :
    forall i b p,
      index (Blockchain.chain self) (S i) = Some b ->
      index (Blockchain.chain self) i = Some p ->
      Block.previousBlockHash b = Block.hash p;
  wf_cached_height :
    Blockchain.height self = Z.of_nat (List.length (Blockchain.chain self)) - 1
}.

(** The text that validate() hashes: the block with its hash set to null. *)
Definition text (b : Block.t) : string :=
  stringify (Block.to_json (Block.set_hash None b)).

(** The digests of [x] and [y] do not collide. *)
Definition no_collision (x y : string) : Prop :=
  SHA256 x = SHA256 y -> x = y.

(** No two texts of the list have colliding digests. *)
Definition collision_free (texts : list string) : Prop :=
  forall x y, In x texts -> In y texts -> no_collision x y.

(** The freshness check of submitStar: the current time minus the time
    read from the message is below 300 seconds. *)
Definition isFresh (message : string) (now : Z) : bool :=
  sub_lt (parseInt (Some (Blockchain.seconds_text now)))
         (parseInt (index (split ":" message) 1)) 300.

End Engine.

(** The stored block at index [i] mutated into [b']. *)
Fixpoint mutate (i : nat) (b' : Block.t) (blocks : list Block.t) : list Block.t :=
  match blocks, i with
  | [], _ => []
  | _ :: r, O => b' :: r
  | b :: r, S i' => b :: mutate i' b' r
  end.

Definition tamper (i : nat) (b' : Block.t) (self : Blockchain.t) : Blockchain.t :=
  Blockchain.mk (mutate i b' (Blockchain.chain self)) (Blockchain.height self).

(** The character [c] occurs in [s]. *)
Fixpoint occurs (c : ascii) (s : string) : bool :=
  match s with
  | EmptyString => false
  | String x r => Ascii.eqb x c || occurs c r
  end.

(** The payload of the genesis block and of a submitted record. *)
Definition genesis_data : json := JObj [("data", JStr "Genesis Block")].
Definition payload (submission : string * json) : json :=
  JObj [("owner", JStr (fst submission)); ("star", snd submission)].

(** The star that the callback returns for a submission. *)
Definition star_for (address : string) (s : string * json) : option json :=
  if (truthy_string (mojibake (fst s)) && String.eqb (mojibake (fst s)) address)%bool
  then Some (normalize (mojibake_json (snd s)))
  else None.

(** The records that the specification's query finds for a submission. *)
Definition record_for (identity : string) (s : string * json) : list json :=
  if String.eqb (mojibake (fst s)) identity
  then [normalize (mojibake_json (snd s))]
  else [].

End Ledger.

(* ================================================================== *)
(** * The identity query, in the words of the specification *)
(* ================================================================== *)

Module Spec.
Import JS JSON.

(** The decoded payload has an owner equal to the identity. *)
Definition owner_is (identity : string) (decoded : json) : bool :=
  match decoded with
  | JObj o =>
      match get "owner" o with
      | Some (JStr a) => String.eqb a identity
      | _ => false
      end
  | _ => false
  end.

(** The record of a decoded payload, if it has one. *)
Definition record_of (decoded : json) : list json :=
  match decoded with
  | JObj o => match get "star" o with Some r => [r] | None => [] end
  | _ => []
  end.

(** The records of the blocks whose decoded payload has an owner equal to
    the identity, in chain order. *)
Fixpoint records_by_identity (identity : string) (blocks : list Block.t) : list json :=
  match blocks with
  | [] => []
  | b :: r =>
      match Block.decode (Block.body b) with
      | Some decoded =>
          if owner_is identity decoded
          then (record_of decoded ++ records_by_identity identity r)%list
          else records_by_identity identity r
      | None => records_by_identity identity r
      end
  end.

(** A sequence of records, NotFound ([None]) when it is empty. *)
Definition or_not_found (records : list json) : option (list json) :=
  match records with
  | [] => None
  | _ :: _ => Some records
  end.

(** getRecordsByIdentity of the specification. *)
Definition getRecordsByIdentity (identity : string) (self : Blockchain.t)
  : option (list json) :=
  or_not_found (records_by_identity identity (Blockchain.chain self)).

End Spec.

(* ================================================================== *)
(** * Concurrent calls of _addBlock *)
(* ================================================================== *)

(** A call of [_addBlock(new Block(data))] runs in segments, as every
    asynchronous function of JavaScript does: the code up to the first await
    runs at once, without interruption, and what follows an await runs later,
    in turns that the event loop interleaves with the turns of the other
    calls.  The first segment of _addBlock goes from the entry of the
    function through the push and the increment of the height to the call of
    validateChain, which runs validate() on every block and registers one
    callback per block; each callback is a later turn, and so is the
    settlement that follows the last one.  submitStar reaches _addBlock in
    the turn it is called in, its checks being synchronous: a submission that
    passes them is such a call. *)
Module EventLoop.
Import JS JSON.

(** [a[i] = x] for an index in range. *)
Fixpoint set_item {A} (i : nat) (x : A) (l : list A) : list A :=
  match l, i with
  | [], _ => []
  | _ :: r, O => x :: r
  | y :: r, S i' => y :: set_item i' x r
  end.

(** A call: not made yet; awaiting validateChain, with the block it pushed,
    the results of validate() taken when the callbacks were registered, the
    index of the next callback and the error log so far; or settled. *)
Inductive Call :=
| Pending (data : json)
| Validating (pushed : Block.t) (valid : list bool) (next : nat) (log : list ChainError)
| Settled (outcome : Promise Block.t).

Record World := mkWorld {
  ledger : Blockchain.t;
  calls : list Call
}.

Section Engine.
Variable SHA256 : string -> string.

(** The first segment: link, stamp, number, hash, push, increment, and the
    synchronous part of validateChain. *)
Definition start (now : Z) (data : json) (self : Blockchain.t) : Call * Blockchain.t :=
  let block := Ledger.appended SHA256 now (Block.constructor data) self in
  let self := Blockchain.mk (Blockchain.chain self ++ [block]) (Blockchain.height self + 1) in
  (Validating block (map (Block.validate SHA256) (Blockchain.chain self)) 0 [], self).

(** The callback registered for the block at index [i], run on the ledger
    as it is when its turn comes. *)
Definition callback (self : Blockchain.t) (i : nat) (isValid : bool)
  (log : list ChainError) : list ChainError :=
  match index (Blockchain.chain self) i with
  | Some block =>
      (log
       ++ (if negb isValid then [mkChainError i "Block validation failed"] else [])
       ++ (if (0 <? i)%nat &&
              match index (Blockchain.chain self) (i - 1) with
              | Some p => negb (Blockchain.nullable_eqb (Block.previousBlockHash block)
                                                        (Block.hash p))
              | None => true
              end
           then [mkChainError i "Previous block hash mismatch"] else []))%list
  | None => log
  end.

(** A later turn of a call: its next callback, or its settlement once all
    callbacks have run. *)
Definition resume (self : Blockchain.t) (c : Call) : Call :=
  match c with
  | Validating pushed valid next log =>
      match index valid next with
      | Some isValid => Validating pushed valid (S next) (callback self next isValid log)
      | None =>
          Settled (if (0 <? List.length log)%nat then Rejected (ErrorLog log)
                   else Resolved pushed)
      end
  | _ => c
  end.

(** One turn of the event loop: the call [k] runs its next segment while
    the clock reads [now]. *)
Definition step (w : World) (turn : nat * Z) : World :=
  match index (calls w) (fst turn) with
  | Some (Pending data) =>
      let (c, self) := start (snd turn) data (ledger w) in
      mkWorld self (set_item (fst turn) c (calls w))
  | Some c => mkWorld (ledger w) (set_item (fst turn) (resume (ledger w) c) (calls w))
  | None => w
  end.

(** A schedule is the list of the turns, in the order the event loop takes
    them. *)
Definition run (schedule : list (nat * Z)) (w : World) : World :=
  fold_left step schedule w.

(** The calls made so far, in the order of their first segments. *)
Fixpoint started (schedule : list (nat * Z)) (n : nat) (seen : list nat) : list nat :=
  match schedule with
  | [] => []
  | turn :: rest =>
      if ((fst turn <? n)%nat && negb (existsb (Nat.eqb (fst turn)) seen))%bool
      then fst turn :: started rest n (fst turn :: seen)
      else started rest n seen
  end.

(** [n] turns in a row for one call on a ledger that no other call touches. *)
Fixpoint resume_n (n : nat) (self : Blockchain.t) (c : Call) : Call :=
  match n with
  | O => c
  | S n' => resume_n n' self (resume self c)
  end.

(** The calls of [seen] have run their first segment, the others have not
    been made. *)
Definition consistent (datas : list json) (seen : list nat) (w : World) : Prop :=
  List.length (calls w) = List.length datas
  /\ forall k, (k < List.length datas)%nat ->
       if existsb (Nat.eqb k) seen
       then exists c, index (calls w) k = Some c /\ forall d, c <> Pending d
       else index (calls w) k = Some (Pending (nth k datas JNull)).

(** A call in a world whose ledger is clean: its log is empty, the results
    it holds are all true and concern blocks of the chain, and its block, once
    pushed, is in the chain. *)
Definition sound_call (self : Blockchain.t) (c : Call) : Prop :=
  match c with
  | Pending _ => True
  | Validating pushed valid next log =>
      log = [] /\ Forall (eq true) valid
      /\ (List.length valid <= List.length (Blockchain.chain self))%nat
      /\ In pushed (Blockchain.chain self)
  | Settled outcome => exists b, outcome = Resolved b /\ In b (Blockchain.chain self)
  end.

Definition sound (w : World) : Prop :=
  Ledger.reachable SHA256 (ledger w) /\ Forall (sound_call (ledger w)) (calls w).

End Engine.
End EventLoop.

(* ================================================================== *)
(** * BlockchainController.js *)
(* ================================================================== *)

(** The constructor of the controller registers six routes on the express
    application.  Each handler is modelled as the function from what it
    reads of the request, and from the ledger, to the response it sends:
    the status it sets and the value it passes to [res.json] or [res.send].
    A route parameter ([req.params.x]) is a string.  The fields of a request
    body that the engine uses as strings (address, message, signature) are
    strings when they are present, [None] when they are absent; the star is
    any JSON value.  parseInt is exact in the model; JavaScript rounds what
    it reads above 2^53, to a number that is above 2^53 as well, hence the
    height of no block either. *)
Module Controller.
Import JS JSON.

(** What a handler passes to [res.json] or to [res.send]. *)
Inductive Sent :=
| json_block (block : Block.t)              (* res.json(block) *)
| json_message (message : string)           (* res.json(message) *)
| json_stars (stars : list json)            (* res.json(stars) *)
| json_errors (errors : list ChainError)    (* res.json({ errors: errors }) *)
| send_text (text : string)                 (* res.send("...") *)
| send_error (error : Reason).              (* res.send(error) *)

Record Response := respond { status : Z; sent : Sent }.

(** [req.body] of POST /submitstar. *)
Record StarBody := mkStarBody {
  address : option string;
  message : option string;
  signature : option string;
  star : option json
}.

(** Truthiness of a body field that is a string when present. *)
Definition truthy_field (x : option string) : bool :=
  match x with
  | Some s => truthy_string s
  | None => false
  end.

(** The value of a field that was found truthy. *)
Definition field (x : option string) : string :=
  match x with
  | Some s => s
  | None => EmptyString
  end.
Definition value (x : option json) : json :=
  match x with
  | Some v => v
  | None => JNull
  end.

Section Engine.
Variable SHA256 : string -> string.
Variable verify : string -> string -> string -> Completion bool.

(** GET /block/height/:height.  A height that parseInt reads as NaN is
    strictly equal to the height of no block. *)
Definition getBlockByHeight (height : string) (blockchain : Blockchain.t) : Response :=
  if truthy_string height then
    let height := parseInt (Some height) in
    let block :=
      match height with
      | Some h => Blockchain.getBlockByHeight h blockchain
      | None => None
      end in
    match block with
    | Some b => respond 200 (json_block b)
    | None => respond 404 (send_text "Block Not Found!")
    end
  else respond 404 (send_text "Block Not Found! Review the Parameters!").

(** POST /requestValidation, with [req.body.address]. *)
Definition requestOwnership (now : Z) (address : option string) : Response :=
  if truthy_field address then
    let address := field address in
    let message := Blockchain.requestMessageOwnershipVerification now address in
    if truthy_string message then respond 200 (json_message message)
    else respond 500 (send_text "An error happened!")
  else respond 500 (send_text "Check the Body Parameter!").

(** POST /submitstar.  The block that submitStar resolves with is an object,
    hence truthy; a rejection is caught and sent as it is. *)
Definition submitStar (now now' : Z) (body : StarBody) (blockchain : Blockchain.t)
  : Response * Blockchain.t :=
  if truthy_field (address body) && truthy_field (message body)
     && truthy_field (signature body) && Blockchain.truthy (star body) then
    let address := field (address body) in
    let message := field (message body) in
    let signature := field (signature body) in
    let star := value (star body) in
    match Blockchain.submitStar SHA256 verify now now' address message signature
            star blockchain with
    | (Resolved block, blockchain) => (respond 200 (json_block block), blockchain)
    | (Rejected error, blockchain) => (respond 500 (send_error error), blockchain)
    end
  else (respond 500 (send_text "Check the Body Parameter!"), blockchain).

(** GET /block/hash/:hash *)
Definition getBlockByHash (hash : string) (blockchain : Blockchain.t) : Response :=
  if truthy_string hash then
    match Blockchain.getBlockByHash hash blockchain with
    | Some b => respond 200 (json_block b)
    | None => respond 404 (send_text "Block Not Found!")
    end
  else respond 404 (send_text "Block Not Found! Review the Parameters!").

(** GET /blocks/:address.  The array of stars is truthy, null is not. *)
Definition getStarsByOwner (address : string) (blockchain : Blockchain.t) : Response :=
  if truthy_string address then
    match Blockchain.getStarsByWalletAddress address blockchain with
    | Resolved (Some stars) => respond 200 (json_stars stars)
    | Resolved None => respond 404 (send_text "Block Not Found!")
    | Rejected _ => respond 500 (send_text "An error happened!")
    end
  else respond 500 (send_text "Block Not Found! Review the Parameters!").

(** GET /validateChain.  validateChain resolves with its log on every chain
    of blocks, so the catch clause of the handler is not reached. *)
Definition validateChain (blockchain : Blockchain.t) : Response :=
  let errors := Blockchain.validateChain SHA256 blockchain in
  respond 200 (json_errors errors).

(** A request that one of the six routes takes, with the clock readings
    taken while it is handled. *)
Inductive Request :=
| GET_block_height (height : string)
| POST_requestValidation (now : Z) (address : option string)
| POST_submitstar (now now' : Z) (body : StarBody)
| GET_block_hash (hash : string)
| GET_blocks (address : string)
| GET_validateChain.

(** The handler of the route, run on the ledger of the controller. *)
Definition handle (request : Request) (blockchain : Blockchain.t)
  : Response * Blockchain.t :=
  match request with
  | GET_block_height height => (getBlockByHeight height blockchain, blockchain)
  | POST_requestValidation now address => (requestOwnership now address, blockchain)
  | POST_submitstar now now' body => submitStar now now' body blockchain
  | GET_block_hash hash => (getBlockByHash hash blockchain, blockchain)
  | GET_blocks address => (getStarsByOwner address blockchain, blockchain)
  | GET_validateChain => (validateChain blockchain, blockchain)
  end.

(** Requests handled one after the other: the responses, and the ledger at
    the end.  A handler awaits promises of the engine only, which settle
    without input or output, so that a handler has sent its response before
    the handler of the next request starts. *)
Fixpoint serve (requests : list Request) (blockchain : Blockchain.t)
  : list Response * Blockchain.t :=
  match requests with
  | [] => ([], blockchain)
  | request :: rest =>
      let (response, blockchain) := handle request blockchain in
      let (responses, blockchain) := serve rest blockchain in
      (response :: responses, blockchain)
  end.

End Engine.

(** The address and the star of a submission that was answered with 200. *)
Definition submission (request : Request) (response : Response) : list (string * json) :=
  match request with
  | POST_submitstar _ _ body =>
      if status response =? 200 then [(field (address body), value (star body))] else []
  | _ => []
  end.

(** A response that tells of no failure of the engine: it is not the
    message for an exception, it carries no error log of a rejected append,
    and the log it reports for the chain, if any, is empty. *)
Definition sound_response (r : Response) : Prop :=
  sent r <> send_text "An error happened!"
  /\ (forall log, sent r <> send_error (ErrorLog log))
  /\ (forall errors, sent r = json_errors errors -> errors = []).

Fixpoint submissions (requests : list Request) (responses : list Response)
  : list (string * json) :=
  match requests, responses with
  | request :: requests, response :: responses =>
      (submission request response ++ submissions requests responses)%list
  | _, _ => []
  end.

End Controller.

(* ================================================================== *)
(** * Forged blocks *)
(* ================================================================== *)

Module Forgery.
Import JS JSON.

Section Engine.
Variable SHA256 : string -> string.

(** A block given the hash that validate() recomputes for it: what someone
    who rewrites a stored block and covers the change writes back. *)
Definition reseal (b : Block.t) : Block.t :=
  Block.set_hash (Some (SHA256 (Ledger.text b))) b.

End Engine.

(** A text that is no JSON text from its first character on: it holds
    nothing but white space, or its first character after the white space
    starts none of null, true, false, a number, a string, an array and an
    object.  JSON.parse throws a SyntaxError on it. *)
Definition not_json (text : string) : bool :=
  match skip_ws text with
  | EmptyString => true
  | String c _ => negb (value_start c)
  end.

End Forgery.

(* ================================================================== *)
(** * Blocks whose fields are written from outside the engine *)
(* ================================================================== *)

(** A stored block is an ordinary object, and the chain is a public field
    of the ledger: code that holds the ledger can store any value in a field
    of a block.  [Block.t] has the values that the engine stores there.  In
    this module a field holds a value that JSON carries, the number NaN, or
    a String object ([new String(s)]); validate() and validateChain() are
    read on such blocks as they are read on [Block.t]. *)
Module Untyped.
Import JS JSON.

Inductive value :=
| Plain (v : json)      (* null, a boolean, an integer, a string, an array, an object *)
| NaN                   (* the number NaN *)
| Boxed (s : string).   (* new String(s) *)

(** The value that JSON.stringify serializes for a property: null for a
    number that is not finite, its string for a String object. *)
Definition serialized (x : value) : json :=
  match x with
  | Plain v => v
  | NaN => JNull
  | Boxed s => JStr s
  end.

(** [x === y].  NaN is equal to nothing, itself included.  An array, an
    object or a String object is equal to itself only; the values compared
    here are held by different fields, and are taken to be different
    objects. *)
Definition strict_eq (x y : value) : bool :=
  match x, y with
  | Plain JNull, Plain JNull => true
  | Plain (JBool a), Plain (JBool b) => Bool.eqb a b
  | Plain (JNum a), Plain (JNum b) => a =? b
  | Plain (JStr a), Plain (JStr b) => String.eqb a b
  | _, _ => false
  end.

(** The own properties of a Block, in the order the constructor creates
    them. *)
Record t := mk {
  hash : value;
  height : value;
  body : value;
  time : value;
  previousBlockHash : value
}.

Definition set_hash (h : value) (b : t) : t :=
  mk h (height b) (body b) (time b) (previousBlockHash b).
Definition set_body (x : value) (b : t) : t :=
  mk (hash b) (height b) x (time b) (previousBlockHash b).
Definition set_previousBlockHash (h : value) (b : t) : t :=
  mk (hash b) (height b) (body b) (time b) h.

(** A block with the values that the engine stored. *)
Definition of_block (b : Block.t) : t :=
  {| hash := Plain (Block.nullable (Block.hash b));
     height := Plain (JNum (Block.height b));
     body := Plain (JStr (Block.body b));
     time := Plain (Block.time b);
     previousBlockHash := Plain (Block.nullable (Block.previousBlockHash b)) |}.

(** The chain of a ledger. *)
Definition stored (self : Blockchain.t) : list t :=
  map of_block (Blockchain.chain self).

(** The block as JSON.stringify sees it. *)
Definition to_json (b : t) : json :=
  JObj [("hash", serialized (hash b));
        ("height", serialized (height b));
        ("body", serialized (body b));
        ("time", serialized (time b));
        ("previousBlockHash", serialized (previousBlockHash b))].

Section Hashing.
(** [s => SHA256(s).toString()] of crypto-js. *)
Variable SHA256 : string -> string.

(** [validate()]: the settlement value of the promise. *)
Definition validate (self : t) : bool :=
  let currentHash := hash self in
  let blockCopy := set_hash (Plain JNull) self in
  let recalcHash := SHA256 (stringify (to_json blockCopy)) in
  strict_eq currentHash (Plain (JStr recalcHash)).

(** The callback of validateChain for the block at index [i]. *)
Definition check_block (chain : list t) (i : nat) (b : t) : list ChainError :=
  let isValid := validate b in
  ((if negb isValid then [mkChainError i "Block validation failed"] else [])
   ++
   (if (0 <? i)%nat &&
       match index chain (i - 1) with
       | Some p => negb (strict_eq (previousBlockHash b) (hash p))
       | None => true
       end
    then [mkChainError i "Previous block hash mismatch"] else []))%list.

(** [validateChain()] on a ledger with this chain: the error log. *)
Definition validateChain (chain : list t) : list ChainError :=
  List.concat (Blockchain.mapi (check_block chain) chain).

End Hashing.
End Untyped.

(* ================================================================== *)
(** * The order of an error log *)
(* ================================================================== *)

Module Log.

(** An entry that comes before another one: its block comes first in the
    chain, or the two are about one block, the first its validation failure
    and the second its link mismatch. *)
Definition precedes (e1 e2 : ChainError) : Prop :=
  (block e1 < block e2)%nat
  \/ block e1 = block e2
     /\ error e1 = "Block validation failed"
     /\ error e2 = "Previous block hash mismatch".

End Log.

(* ================================================================== *)
(** * Sample collaborators and ledgers *)
(* ================================================================== *)

Module Sample.
Import JSON.

(** A signature verifier stub: it accepts the signature "valid" and no
    other. *)
Definition verify (message address signature : string) : Completion bool :=
  Returns (String.eqb signature "valid").

(** Clock readings, in milliseconds. *)
Definition t0 : Z := 1700000000123.
Definition t1 : Z := 1700000100456.
Definition t2 : Z := 1700000200789.

(** A star with a story in ASCII and one with an accented letter (code 233). *)
Definition star : json :=
  JObj [("dec", JStr "68 52 56.9"); ("ra", JStr "16h 29m 1.0s"); ("story", JStr "Found it")].
Definition star_accent : json :=
  JObj [("story", JStr ("caf" ++ String (JS.chr 233) EmptyString))].

Definition genesis_ledger : Blockchain.t := Blockchain.constructor CryptoJS.SHA256 t0.

(** The genesis block of that ledger, and the same block with its body
    replaced by the encoding of the empty object, its hash left as it was. *)
Definition genesis_block : Block.t :=
  Ledger.appended CryptoJS.SHA256 t0
    (Block.constructor (JObj [("data", JStr "Genesis Block")])) (Blockchain.mk [] (-1)).
Definition forged_genesis : Block.t := Block.set_body "7b7d" genesis_block.
Definition tampered_ledger : Blockchain.t := Ledger.tamper 0 forged_genesis genesis_ledger.

Definition challenge : string :=
  Blockchain.requestMessageOwnershipVerification t0 "1FzpnkhCmUacDqkfhbLBhnQj8nXQ2ch2Ni".

(** The ledger after one accepted submission. *)
Definition ledger1 : Blockchain.t :=
  snd (Blockchain.submitStar CryptoJS.SHA256 verify t1 t1
         "1FzpnkhCmUacDqkfhbLBhnQj8nXQ2ch2Ni" challenge "valid" star genesis_ledger).

(** What the codec returns for [star_accent]: the two UTF-8 bytes of the
    accented letter, each read as a code unit. *)
Definition star_garbled : json :=
  JObj [("story", JStr ("caf" ++ String (JS.chr 195) (String (JS.chr 169) EmptyString)))].

(** A verifier stub that accepts everything, and the ledger after it accepted
    a record for the empty address. *)
Definition verify_all (message address signature : string) : Completion bool :=
  Returns true.
Definition ledger_anonymous : Blockchain.t :=
  snd (Blockchain.submitStar CryptoJS.SHA256 verify_all t1 t1
         EmptyString (Blockchain.requestMessageOwnershipVerification t0 EmptyString)
         "valid" star genesis_ledger).

(** Two concurrent appends on a new ledger: both calls run their first
    segment before any callback of either runs, then their callbacks and
    settlements alternate. *)
Definition two_calls : EventLoop.World :=
  EventLoop.mkWorld genesis_ledger
    [EventLoop.Pending (Ledger.payload ("1FzpnkhCmUacDqkfhbLBhnQj8nXQ2ch2Ni", star));
     EventLoop.Pending (Ledger.payload ("1BoatSLRHtKNngkdXEeobR76b53LETtpyT", star_accent))].
Definition interleaved : list (nat * Z) :=
  [(1%nat, t1); (0%nat, t1); (0%nat, t2); (1%nat, t2); (1%nat, t2); (0%nat, t2);
   (0%nat, t2); (1%nat, t2); (1%nat, t2); (0%nat, t2)].

End Sample.

(* ================================================================== *)
(** * Sample requests and blocks *)
(* ================================================================== *)

Module Examples.
Import JSON.

Definition address : string := "1FzpnkhCmUacDqkfhbLBhnQj8nXQ2ch2Ni".

(** The block of the sample ledger that holds the star. *)
Definition block1 : Block.t :=
  Ledger.appended CryptoJS.SHA256 Sample.t1
    (Block.constructor (Ledger.payload (address, Sample.star))) Sample.genesis_ledger.

(** The body of a POST /submitstar that carries the sample challenge. *)
Definition request : Controller.StarBody :=
  Controller.mkStarBody (Some address) (Some Sample.challenge) (Some "valid")
    (Some Sample.star).

(** The genesis block of the sample ledger with a body that is the
    hexadecimal form of a closing brace, which starts no JSON value. *)
Definition unreadable_genesis : Block.t := Block.set_body "7d" Sample.genesis_block.


(** The block of the sample ledger that holds the star, with a String
    object of the same characters written over its body, and the chain of
    the sample ledger with that block in its place. *)
Definition boxed_block1 : Untyped.t :=
  Untyped.set_body (Untyped.Boxed (Block.body block1)) (Untyped.of_block block1).
Definition boxed_chain : list Untyped.t :=
  [Untyped.of_block Sample.genesis_block; boxed_block1].

(** A session: the challenge is asked for, the star is submitted and looked
    up, the chain is validated, and a second submission comes with a
    signature that the stub refuses. *)
Definition session : list Controller.Request :=
  [Controller.POST_requestValidation Sample.t0 (Some address);
   Controller.POST_submitstar Sample.t1 Sample.t1 request;
   Controller.GET_blocks address;
   Controller.GET_block_height "1";
   Controller.GET_validateChain;
   Controller.POST_submitstar Sample.t2 Sample.t2
     (Controller.mkStarBody (Some address) (Some Sample.challenge) (Some "forged")
        (Some Sample.star_accent))].

End Examples.

(* ================================================================== *)
(** * Properties *)
(* ================================================================== *)

Ltac Zify.zify_post_hook ::= Z.to_euclidean_division_equations.
Set Warnings "-notation-for-abbreviation".

Module StringFacts.

Lemma app_nil_r (s : string) : s ++ EmptyString = s.
Proof. induction s; simpl; congruence. Qed.

Lemma app_assoc (a b c : string) : (a ++ b) ++ c = a ++ (b ++ c).
Proof. induction a; simpl; congruence. Qed.

Lemma length_app (a b : string) :
  String.length (a ++ b) = (String.length a + String.length b)%nat.
Proof. induction a; simpl; congruence. Qed.

Lemma substring_0_app (a b : string) :
  substring 0 (String.length a) (a ++ b) = a.
Proof. induction a; simpl; [destruct b; reflexivity | congruence]. Qed.

End StringFacts.

Module JSFacts.
Import JS StringFacts.

Lemma N_digits_fuel (f1 : nat) :
  forall (f2 : nat) (n : N),
    (0 < f1)%nat -> (0 < f2)%nat ->
    (n < 2 ^ N.of_nat f1)%N -> (n < 2 ^ N.of_nat f2)%N ->
    N_digits f1 n = N_digits f2 n.
Proof.
  induction f1 as [|f1 IH]; intros f2 n H1 H2 B1 B2; [lia|].
  destruct f2 as [|f2]; [lia|].
  simpl. destruct (n <? 10)%N eqn:E; [reflexivity|].
  apply N.ltb_ge in E.
  rewrite Nat2N.inj_succ, N.pow_succ_r' in B1, B2.
  assert (n / 10 < 2 ^ N.of_nat f1)%N by lia.
  assert (n / 10 < 2 ^ N.of_nat f2)%N by lia.
  assert (1 <= n / 10)%N by lia.
  f_equal. apply IH; trivial.
  - destruct f1; [simpl in *; lia | lia].
  - destruct f2; [simpl in *; lia | lia].
Qed.

Lemma N_toString_small (n : N) :
  (n < 10)%N -> N_toString n = String (digit_char n) EmptyString.
Proof.
  intros H. unfold N_toString. simpl.
  apply N.ltb_lt in H. now rewrite H.
Qed.

Lemma N_toString_big (n : N) :
  (10 <= n)%N ->
  N_toString n = N_toString (n / 10) ++ String (digit_char (n mod 10)) EmptyString.
Proof.
  intros H. unfold N_toString at 1. simpl.
  apply N.ltb_ge in H as E. rewrite E. f_equal.
  unfold N_toString.
  assert (P : (0 < n)%N) by lia.
  pose proof (N.log2_spec n P) as [L U].
  rewrite N.pow_succ_r' in U.
  assert (Q : (0 < n / 10)%N) by lia.
  pose proof (N.log2_spec _ Q) as [L' U'].
  assert (0 < N.log2 n)%N by (apply N.log2_pos; lia).
  apply N_digits_fuel; try lia.
Qed.


(** Reading back what was printed. *)
Lemma digit_value_digit_char (d : N) :
  (d < 10)%N -> digit_value 10 (digit_char d) = Some d.
Proof.
  intros H.
  assert (C : In d [0;1;2;3;4;5;6;7;8;9]%N) by (simpl; lia).
  simpl in C. repeat (destruct C as [<-|C]; [reflexivity|]). destruct C.
Qed.


Lemma read_digits_stop radix s acc :
  starts_with_digit radix s = false ->
  read_digits radix s acc true = (Some acc, s).
Proof.
  destruct s as [|c s]; simpl; [reflexivity|].
  destruct (digit_value radix c); [discriminate | reflexivity].
Qed.

Lemma read_digits_N_toString (n : N) :
  forall r seen,
    read_digits 10 (N_toString n ++ r) 0 seen = read_digits 10 r n true.
Proof.
  induction n as [n IH] using (well_founded_induction N.lt_wf_0).
  intros r seen.
  destruct (N.lt_ge_cases n 10) as [S|B].
  - rewrite N_toString_small by trivial. simpl.
    now rewrite digit_value_digit_char.
  - rewrite N_toString_big, app_assoc by trivial.
    rewrite IH by lia. simpl.
    rewrite digit_value_digit_char by lia.
    f_equal. lia.
Qed.

End JSFacts.

Module JSONFacts.
Import JS JSON Normal StringFacts JSFacts.

Ltac each_char c := destruct c as [[] [] [] [] [] [] [] []].

(** ** Strings *)

Lemma parse_chars_quote_char (c : ascii) (x : string) :
  parse_chars (quote_char c ++ x) = cons_char c (parse_chars x).
Proof. each_char c; reflexivity. Qed.

Lemma parse_chars_quote_chars (s r : string) :
  parse_chars (quote_chars s ++ String dquote r) = Some (s, r).
Proof.
  induction s as [|c s IH]; simpl; [reflexivity|].
  now rewrite app_assoc, parse_chars_quote_char, IH.
Qed.

Lemma quote_app (s r : string) :
  quote s ++ r = String dquote (quote_chars s ++ String dquote r).
Proof. unfold quote. simpl. now rewrite app_assoc. Qed.

(** ** Numbers *)

Lemma N_toString_head (n : N) :
  (0 < n)%N ->
  exists d rest, N_toString n = String (digit_char d) rest /\ (1 <= d < 10)%N.
Proof.
  induction n as [n IH] using (well_founded_induction N.lt_wf_0). intros P.
  destruct (N.lt_ge_cases n 10) as [S|B].
  - exists n, EmptyString. rewrite N_toString_small by trivial. split; [reflexivity | lia].
  - destruct (IH (n / 10)%N) as (d & rest & E & R); try lia.
    exists d, (rest ++ String (digit_char (n mod 10)) EmptyString).
    rewrite N_toString_big, E by trivial. split; [reflexivity | trivial].
Qed.

Lemma parse_number_N (n : N) (r : string) :
  starts_with_digit 10 r = false ->
  parse_number (N_toString n ++ r) = Some (Z.of_N n, r).
Proof.
  intros D. destruct (N.eq_dec n 0) as [->|NZ]; [reflexivity|].
  destruct (N_toString_head n) as (d & rest & E & R); [lia|].
  assert (H : parse_number (N_toString n ++ r) =
              match read_digits 10 (N_toString n ++ r) 0 false with
              | (Some m, r') => Some (Z.of_N m, r')
              | (None, _) => None
              end).
  { rewrite E.
    assert (C : In d [1;2;3;4;5;6;7;8;9]%N) by (simpl; lia).
    simpl in C. repeat (destruct C as [<-|C]; [reflexivity|]). destruct C. }
  rewrite H, read_digits_N_toString, read_digits_stop; trivial.
Qed.

Lemma parse_number_neg (n : N) (r : string) :
  (0 < n)%N -> starts_with_digit 10 r = false ->
  parse_number (String "-" (N_toString n) ++ r) = Some (- Z.of_N n, r).
Proof.
  intros P D.
  destruct (N_toString_head n) as (d & rest & E & R); [lia|].
  assert (H : parse_number (String "-" (N_toString n) ++ r) =
              match read_digits 10 (N_toString n ++ r) 0 false with
              | (Some m, r') => Some (- Z.of_N m, r')
              | (None, _) => None
              end).
  { rewrite E.
    assert (C : In d [1;2;3;4;5;6;7;8;9]%N) by (simpl; lia).
    simpl in C. repeat (destruct C as [<-|C]; [reflexivity|]). destruct C. }
  rewrite H, read_digits_N_toString, read_digits_stop; trivial.
Qed.

Lemma parse_number_toString (z : Z) (r : string) :
  starts_with_digit 10 r = false ->
  parse_number (Number_toString z ++ r) = Some (z, r).
Proof.
  intros D. unfold Number_toString.
  destruct (z <? 0) eqn:E.
  - apply Z.ltb_lt in E. rewrite parse_number_neg by (trivial; lia).
    do 2 f_equal. lia.
  - apply Z.ltb_ge in E. rewrite parse_number_N by trivial.
    do 2 f_equal. lia.
Qed.


Lemma number_start_digit (d : N) : (d < 10)%N -> number_start (digit_char d) = true.
Proof.
  intros H. assert (C : In d [0;1;2;3;4;5;6;7;8;9]%N) by (simpl; lia).
  simpl in C. repeat (destruct C as [<-|C]; [reflexivity|]). destruct C.
Qed.

Lemma N_toString_start (n : N) :
  exists c rest, N_toString n = String c rest /\ number_start c = true.
Proof.
  destruct (N.eq_dec n 0) as [->|NZ].
  - now exists "0"%char, EmptyString.
  - destruct (N_toString_head n) as (d & rest & E & R); [lia|].
    exists (digit_char d), rest. split; [trivial | apply number_start_digit; lia].
Qed.

Lemma Number_toString_start (z : Z) :
  exists c rest, Number_toString z = String c rest /\ number_start c = true.
Proof.
  unfold Number_toString. destruct (z <? 0).
  - now exists "-"%char, (N_toString (Z.to_N (- z))).
  - apply N_toString_start.
Qed.

(** ** One step of the parser *)

Lemma parse_value_number f c x :
  number_start c = true ->
  parse_value (S f) (String c x) =
  match parse_number (String c x) with
  | Some (n, r') => Some (JNum n, r')
  | None => None
  end.
Proof. intros H. each_char c; try (cbv in H; discriminate H); reflexivity. Qed.

Lemma parse_value_string f x :
  parse_value (S f) (String dquote x) =
  match parse_chars x with
  | Some (str, r') => Some (JStr str, r')
  | None => None
  end.
Proof. reflexivity. Qed.

Lemma parse_value_array f x :
  parse_value (S f) (String "[" x) =
  match skip_ws x with
  | String "]" r' => Some (JArr [], r')
  | _ => parse_elements f x []
  end.
Proof. reflexivity. Qed.

Lemma parse_value_object f x :
  parse_value (S f) (String "{" x) =
  match skip_ws x with
  | String "}" r' => Some (JObj [], r')
  | _ => parse_members f x []
  end.
Proof. reflexivity. Qed.

Lemma parse_elements_step f s acc :
  parse_elements (S f) s acc =
  match parse_value f s with
  | Some (v, r) =>
      match skip_ws r with
      | String "," r' => parse_elements f r' (acc ++ [v])%list
      | String "]" r' => Some (JArr (acc ++ [v])%list, r')
      | _ => None
      end
  | None => None
  end.
Proof. reflexivity. Qed.

Lemma parse_members_step f x acc :
  parse_members (S f) (String dquote x) acc =
  match parse_chars x with
  | Some (k, r1) =>
      match skip_ws r1 with
      | String ":" r2 =>
          match parse_value f r2 with
          | Some (v, r3) =>
              match skip_ws r3 with
              | String "," r4 => parse_members f r4 (obj_set k v acc)
              | String "}" r4 => Some (JObj (obj_set k v acc), r4)
              | _ => None
              end
          | None => None
          end
      | _ => None
      end
  | None => None
  end.
Proof. reflexivity. Qed.

(** ** The text of a value *)

Lemma stringify_array (l : list json) :
  stringify (JArr l) = String "[" (joined stringify l ++ "]").
Proof. reflexivity. Qed.

Lemma stringify_object (m : list (string * json)) :
  stringify (JObj m) = String "{" (joined member m ++ "}").
Proof. reflexivity. Qed.


Lemma stringify_start (v : json) :
  exists c rest, stringify v = String c rest /\ value_start c = true.
Proof.
  destruct v as [|[]|n|s|l|m]; try (eexists _, _; split; [reflexivity|reflexivity]).
  destruct (Number_toString_start n) as (c & rest & E & S).
    exists c, rest. split; [exact E|]. unfold value_start. now rewrite S.
Qed.

Lemma joined_start {A} (print : A -> string) (x : A) (l : list A) :
  exists rest, joined print (x :: l) = print x ++ rest.
Proof.
  destruct l; simpl.
  - exists EmptyString. now rewrite app_nil_r.
  - eexists. reflexivity.
Qed.

Lemma skip_array_start c x f :
  value_start c = true ->
  match skip_ws (String c x) with
  | String "]" r' => Some (JArr [], r')
  | _ => parse_elements f (String c x) []
  end = parse_elements f (String c x) [].
Proof. intros H. each_char c; try (cbv in H; discriminate H); reflexivity. Qed.


(** ** Parsing the text of a value *)


Lemma parse_elements_joined (l : list json) :
  Forall parses l -> l <> [] ->
  forall f acc r,
    (len (joined stringify l) < f)%nat ->
    parse_elements f (joined stringify l ++ String "]" r) acc
    = Some (JArr (acc ++ map normalize l)%list, r).
Proof.
  induction 1 as [|x l Hx Hl IH]; intros NE f acc r F; [congruence|].
  destruct f as [|f]; [lia|]. rewrite parse_elements_step.
  destruct l as [|y l].
  - change (joined stringify [x]) with (stringify x) in *.
    rewrite Hx; [reflexivity | unfold len in *; lia | reflexivity].
  - change (joined stringify (x :: y :: l))
      with (stringify x ++ String "," (joined stringify (y :: l))) in *.
    unfold len in *. rewrite length_app in F. cbn [String.length] in F.
    rewrite app_assoc. cbn [append]. rewrite Hx; [|unfold len in *; lia|reflexivity].
    cbn [skip_ws is_ws]. cbn. rewrite IH; [|congruence|unfold len in *; lia].
    now rewrite <- List.app_assoc.
Qed.

Lemma parse_members_joined (m : list (string * json)) :
  Forall (fun kv => parses (snd kv)) m -> m <> [] ->
  forall f acc r,
    (len (joined member m) < f)%nat ->
    parse_members f (joined member m ++ String "}" r) acc
    = Some (JObj (set_all (map (fun kv => (fst kv, normalize (snd kv))) m) acc), r).
Proof.
  induction 1 as [|[k v] m Hx Hm IH]; intros NE f acc r F; [congruence|].
  destruct f as [|f]; [lia|]. cbn [fst snd] in Hx.
  assert (E : forall x, member (k, v) ++ x
              = String dquote (quote_chars k ++ String dquote (String ":" (stringify v ++ x)))).
  { intros x. unfold member. cbn [fst snd]. rewrite app_assoc, quote_app. reflexivity. }
  assert (L : (String.length (stringify v) <= String.length (member (k, v)))%nat).
  { unfold member, quote. cbn [fst snd String.length].
    rewrite !length_app. cbn [String.length]. lia. }
  destruct m as [|y m].
  - change (joined member [(k, v)]) with (member (k, v)) in *.
    rewrite E, parse_members_step, parse_chars_quote_chars.
    cbn [skip_ws is_ws]. cbn. unfold len in *.
    rewrite Hx; [reflexivity | unfold len in *; lia | reflexivity].
  - change (joined member ((k, v) :: y :: m))
      with (member (k, v) ++ String "," (joined member (y :: m))) in *.
    unfold len in *. rewrite length_app in F. cbn [String.length] in F.
    rewrite app_assoc, E, parse_members_step, parse_chars_quote_chars.
    cbn [skip_ws is_ws]. cbn. cbn [append].
    rewrite Hx; [|unfold len in *; lia|reflexivity].
    cbn. rewrite IH; [reflexivity|congruence|unfold len in *; lia].
Qed.

Lemma stringify_nonempty (v : json) : (0 < len (stringify v))%nat.
Proof.
  destruct (stringify_start v) as (c & rest & E & _). rewrite E. simpl. lia.
Qed.

Lemma parse_value_stringify (v : json) : parses v.
Proof.
  induction v as [| b | n | s | l IH | m IH] using json_ind; intros f r F D;
    (destruct f as [|f]; [pose proof (stringify_nonempty) as P;
                          match type of F with (len ?x <= _)%nat =>
                            match x with stringify ?v => specialize (P v); lia end end|]).
  - reflexivity.
  - destruct b; reflexivity.
  - cbn [stringify normalize].
    destruct (Number_toString_start n) as (c & rest & E & S).
    assert (H := parse_number_toString n r D). rewrite E in *.
    cbn [append] in *. now rewrite parse_value_number, H.
  - cbn [stringify normalize].
    now rewrite quote_app, parse_value_string, parse_chars_quote_chars.
  - rewrite stringify_array in *. cbn [append]. rewrite parse_value_array.
    destruct l as [|x l]; [reflexivity|].
    destruct (joined_start stringify x l) as (rest & E).
    destruct (stringify_start x) as (c & rest' & E' & S).
    assert (G : (joined stringify (x :: l) ++ "]") ++ r
                = joined stringify (x :: l) ++ String "]" r)
      by now rewrite app_assoc.
    rewrite G.
    assert (G2 : exists y, joined stringify (x :: l) ++ String "]" r = String c y).
    { rewrite E, E'. cbn [append]. eexists. reflexivity. }
    destruct G2 as (y & G2). rewrite G2, skip_array_start, <- G2 by trivial.
    rewrite parse_elements_joined; trivial; [congruence|].
    unfold len in *. cbn [String.length] in F. rewrite length_app in F.
    cbn [String.length] in F. lia.
  - rewrite stringify_object in *. cbn [append]. rewrite parse_value_object.
    destruct m as [|[k x] m]; [reflexivity|].
    destruct (joined_start member (k, x) m) as (rest & E).
    assert (G : (joined member ((k, x) :: m) ++ "}") ++ r
                = joined member ((k, x) :: m) ++ String "}" r)
      by now rewrite app_assoc.
    rewrite G.
    assert (G2 : exists y, joined member ((k, x) :: m) ++ String "}" r = String dquote y).
    { rewrite E. unfold member, quote. cbn [fst append]. eexists. reflexivity. }
    destruct G2 as (y & G2). rewrite G2.
    change (match skip_ws (String dquote y) with
            | String "}" r' => Some (JObj [], r')
            | _ => parse_members f (String dquote y) []
            end) with (parse_members f (String dquote y) []).
    rewrite <- G2. cbn [normalize].
    rewrite parse_members_joined; trivial; [congruence|].
    unfold len in *. cbn [String.length] in F. rewrite length_app in F.
    cbn [String.length] in F. lia.
Qed.

(** JSON.parse reads back what JSON.stringify wrote. *)
Theorem parse_stringify (v : json) : parse (stringify v) = Some (normalize v).
Proof.
  unfold parse.
  rewrite <- (app_nil_r (stringify v)) at 2.
  rewrite parse_value_stringify; [reflexivity | unfold len in *; lia | reflexivity].
Qed.

End JSONFacts.

Module CodecFacts.
Import JS JSON Normal StringFacts JSFacts JSONFacts.
Import Buffer Hex2Ascii.

Lemma toString_hex_utf8_char (c : ascii) (b : list byte) :
  toString_hex (utf8_char c ++ b)%list = toString_hex (utf8_char c) ++ toString_hex b.
Proof. each_char c; reflexivity. Qed.

Lemma remove_spaces_utf8_char (c : ascii) (x : string) :
  remove_spaces (toString_hex (utf8_char c) ++ x)
  = toString_hex (utf8_char c) ++ remove_spaces x.
Proof. each_char c; reflexivity. Qed.

Lemma decode_pairs_utf8_char (c : ascii) (x : string) :
  decode_pairs (toString_hex (utf8_char c) ++ x) = garble_char c ++ decode_pairs x.
Proof. each_char c; reflexivity. Qed.

Lemma remove_spaces_hex (s : string) :
  remove_spaces (toString_hex (from s)) = toString_hex (from s).
Proof.
  induction s as [|c s IH]; [reflexivity|]. cbn [from].
  now rewrite toString_hex_utf8_char, remove_spaces_utf8_char, IH.
Qed.

(** hex2ascii on the hexadecimal form of the UTF-8 bytes of a string. *)
Lemma hex2ascii_hex (s : string) :
  hex2ascii (toString_hex (from s)) = garble s.
Proof.
  unfold hex2ascii. rewrite remove_spaces_hex.
  induction s as [|c s IH]; [reflexivity|]. cbn [from garble].
  now rewrite toString_hex_utf8_char, decode_pairs_utf8_char, IH.
Qed.

Lemma garble_app (a b : string) : garble (a ++ b) = garble a ++ garble b.
Proof. induction a as [|c a IH]; simpl; [reflexivity|]. now rewrite IH, app_assoc. Qed.

Lemma quote_chars_app (a b : string) :
  quote_chars (a ++ b) = quote_chars a ++ quote_chars b.
Proof. induction a as [|c a IH]; simpl; [reflexivity|]. now rewrite IH, app_assoc. Qed.

Lemma garble_quote_char (c : ascii) :
  garble (quote_char c) = quote_chars (latin1_of_utf8 c).
Proof. each_char c; reflexivity. Qed.

Lemma garble_quote_chars (s : string) :
  garble (quote_chars s) = quote_chars (mojibake s).
Proof.
  induction s as [|c s IH]; [reflexivity|]. cbn [quote_chars mojibake].
  now rewrite garble_app, quote_chars_app, garble_quote_char, IH.
Qed.

Lemma garble_quote (s : string) : garble (quote s) = quote (mojibake s).
Proof.
  unfold quote.
  change (String dquote (quote_chars s ++ String dquote EmptyString))
    with (String dquote EmptyString ++ quote_chars s ++ String dquote EmptyString).
  now rewrite !garble_app, garble_quote_chars.
Qed.

Lemma garble_digit (d : N) :
  (d < 10)%N -> garble (String (digit_char d) EmptyString) = String (digit_char d) EmptyString.
Proof.
  intros H. assert (C : In d [0;1;2;3;4;5;6;7;8;9]%N) by (simpl; lia).
  simpl in C. repeat (destruct C as [<-|C]; [reflexivity|]). destruct C.
Qed.

Lemma garble_N_toString (n : N) : garble (N_toString n) = N_toString n.
Proof.
  induction n as [n IH] using (well_founded_induction N.lt_wf_0).
  destruct (N.lt_ge_cases n 10) as [S|B].
  - rewrite N_toString_small by trivial. now apply garble_digit.
  - rewrite N_toString_big by trivial.
    rewrite garble_app, IH, garble_digit by lia. reflexivity.
Qed.

Lemma garble_Number_toString (z : Z) : garble (Number_toString z) = Number_toString z.
Proof.
  unfold Number_toString. destruct (z <? 0).
  - change (String "-" ?x) with ("-" ++ x). now rewrite garble_app, garble_N_toString.
  - apply garble_N_toString.
Qed.

Lemma garble_joined {A} (print : A -> string) (g : A -> A) (l : list A) :
  Forall (fun x => garble (print x) = print (g x)) l ->
  garble (joined print l) = joined print (map g l).
Proof.
  induction 1 as [|x l Hx Hl IH]; [reflexivity|].
  destruct l as [|y l]; [exact Hx|].
  change (joined print (x :: y :: l)) with (print x ++ "," ++ joined print (y :: l)).
  rewrite !garble_app, Hx, IH. reflexivity.
Qed.

(** The text of a value, once through the codec, is the text of the value
    with its strings garbled. *)
Lemma garble_stringify (v : json) :
  garble (stringify v) = stringify (mojibake_json v).
Proof.
  induction v as [| b | n | s | l IH | m IH] using json_ind.
  - reflexivity.
  - destruct b; reflexivity.
  - apply garble_Number_toString.
  - apply garble_quote.
  - cbn [mojibake_json]. rewrite !stringify_array.
    change (String "[" ?x) with ("[" ++ x).
    rewrite !garble_app. f_equal. f_equal. now apply garble_joined.
  - cbn [mojibake_json]. rewrite !stringify_object.
    change (String "{" ?x) with ("{" ++ x).
    rewrite !garble_app. f_equal. f_equal.
    apply (garble_joined member (fun kv => (mojibake (fst kv), mojibake_json (snd kv)))).
    eapply Forall_impl; [|exact IH]. intros [k x] H. cbn [fst snd] in *.
    unfold member. cbn [fst snd].
    change (String ":" ?x) with (":" ++ x).
    now rewrite !garble_app, garble_quote, H.
Qed.

(** Decoding a payload that the constructor encoded. *)
Theorem decode_encode (data : json) :
  Block.decode (Block.encode data) = Some (normalize (mojibake_json data)).
Proof.
  unfold Block.decode, Block.encode.
  now rewrite hex2ascii_hex, garble_stringify, parse_stringify.
Qed.

Lemma mojibake_ascii (s : string) : is_ascii s = true -> mojibake s = s.
Proof.
  induction s as [|c s IH]; [reflexivity|]. cbn [is_ascii mojibake].
  intros H. apply andb_prop in H as [H1 H2].
  unfold latin1_of_utf8. rewrite H1. cbn [append]. now rewrite IH.
Qed.

Lemma mojibake_json_ascii (v : json) : all_ascii v = true -> mojibake_json v = v.
Proof.
  induction v as [| b | n | s | l IH | m IH] using json_ind; cbn [all_ascii mojibake_json];
    intros H; trivial.
  - now rewrite mojibake_ascii.
  - f_equal. induction IH as [|x l Hx Hl IH]; [reflexivity|].
    cbn [forallb] in H. apply andb_prop in H as [H1 H2].
    cbn [map]. now rewrite Hx, IH.
  - f_equal. induction IH as [|[k x] m Hx Hl IH]; [reflexivity|].
    cbn [forallb fst snd] in *. apply andb_prop in H as [H1 H2].
    apply andb_prop in H1 as [H0 H1].
    cbn [map fst snd]. now rewrite Hx, IH, mojibake_ascii.
Qed.

End CodecFacts.

Module ChainFacts.
Import JS JSON Normal Ledger.

Section Engine.
Variable SHA256 : string -> string.
Variable verify : string -> string -> string -> Completion bool.

Notation validate := (Block.validate SHA256).
Notation validateChain := (Blockchain.validateChain SHA256).
Notation check_block := (Blockchain.check_block SHA256).
Notation _addBlock := (Blockchain._addBlock SHA256).
Notation appended := (Ledger.appended SHA256).
Notation chain := Blockchain.chain.

(** ** Lists *)

Lemma mapi_from_app {A B} (f : nat -> A -> B) (l l' : list A) (i : nat) :
  Blockchain.mapi_from i f (l ++ l')%list
  = (Blockchain.mapi_from i f l ++ Blockchain.mapi_from (i + List.length l) f l')%list.
Proof.
  revert i. induction l as [|x l IH]; intros i; simpl.
  - now rewrite Nat.add_0_r.
  - rewrite IH. now replace (i + S (List.length l))%nat with (S i + List.length l)%nat by lia.
Qed.

Lemma mapi_from_ext {A B} (f g : nat -> A -> B) (l : list A) (i : nat) :
  (forall k x, (i <= k < i + List.length l)%nat -> f k x = g k x) ->
  Blockchain.mapi_from i f l = Blockchain.mapi_from i g l.
Proof.
  revert i. induction l as [|x l IH]; intros i H; simpl; [reflexivity|].
  rewrite H by (simpl; lia). f_equal. apply IH.
  intros k y K. apply H. simpl. lia.
Qed.

Lemma index_mapi_from {A B} (f : nat -> A -> B) (l : list A) (i k : nat) :
  index (Blockchain.mapi_from i f l) k = option_map (f (i + k)%nat) (index l k).
Proof.
  unfold index. revert i k. induction l as [|x l IH]; intros i [|k]; simpl; trivial.
  - now rewrite Nat.add_0_r.
  - rewrite IH. now replace (S i + k)%nat with (i + S k)%nat by lia.
Qed.

Lemma index_app_old {A} (l l' : list A) (i : nat) :
  (i < List.length l)%nat -> index (l ++ l')%list i = index l i.
Proof. intros H. unfold index. now apply nth_error_app1. Qed.

Lemma index_app_new {A} (l : list A) (x : A) :
  index (l ++ [x])%list (List.length l) = Some x.
Proof. unfold index. rewrite nth_error_app2, Nat.sub_diag by lia. reflexivity. Qed.

Lemma index_lt {A} (l : list A) (i : nat) (x : A) :
  index l i = Some x -> (i < List.length l)%nat.
Proof. intros H. apply nth_error_Some. unfold index in H. congruence. Qed.

Lemma nullable_eqb_eq (a b : option string) :
  Blockchain.nullable_eqb a b = true <-> a = b.
Proof.
  destruct a, b; simpl; try (split; congruence).
  rewrite String.eqb_eq. split; congruence.
Qed.

(** ** validateChain *)

Lemma check_block_ext (s1 s2 : Blockchain.t) (i : nat) (b : Block.t) :
  index (chain s1) (i - 1) = index (chain s2) (i - 1) ->
  check_block s1 i b = check_block s2 i b.
Proof. intros H. unfold Blockchain.check_block. now rewrite H. Qed.

(** What _addBlock does. *)
Lemma _addBlock_eq (now : Z) (b : Block.t) (self : Blockchain.t) :
  _addBlock now b self =
  let self' := Blockchain.mk (chain self ++ [appended now b self]) (Blockchain.height self + 1) in
  if (0 <? List.length (validateChain self'))%nat
  then (Rejected (ErrorLog (validateChain self')), self')
  else (Resolved (appended now b self), self').
Proof. reflexivity. Qed.

(** Validation of a chain with one more block: the log of the old chain,
    then the entries of the new block. *)
Lemma validateChain_push (self : Blockchain.t) (b : Block.t) (h : Z) :
  let self' := Blockchain.mk (chain self ++ [b]) h in
  validateChain self'
  = (validateChain self ++ check_block self' (List.length (chain self)) b)%list.
Proof.
  intros self'. unfold Blockchain.validateChain, Blockchain.mapi. subst self'.
  cbn [Blockchain.chain]. rewrite mapi_from_app, concat_app. cbn.
  rewrite app_nil_r. f_equal. f_equal.
  apply mapi_from_ext. intros k x K. apply check_block_ext.
  cbn [Blockchain.chain]. rewrite index_app_old; [reflexivity | lia].
Qed.

Lemma concat_nil_iff {A} (ll : list (list A)) :
  List.concat ll = [] <-> forall l, In l ll -> l = [].
Proof.
  induction ll as [|l ll IH]; simpl.
  - split; [intros _ l [] | reflexivity].
  - split.
    + intros H. apply app_eq_nil in H as [H1 H2]. intros l' [<-|I]; [trivial|].
      now apply IH.
    + intros H. rewrite (H l) by now left. apply IH. intros l' I. apply H. now right.
Qed.

Lemma In_mapi {A B} (f : nat -> A -> B) (l : list A) (y : B) :
  In y (Blockchain.mapi f l) <-> exists i x, index l i = Some x /\ y = f i x.
Proof.
  unfold Blockchain.mapi. split.
  - intros H. apply In_nth_error in H as [k H].
    change (index (Blockchain.mapi_from 0 f l) k = Some y) in H.
    rewrite index_mapi_from in H. destruct (index l k) as [x|] eqn:E; [|discriminate].
    exists k, x. split; [trivial|]. simpl in H. congruence.
  - intros (i & x & E & ->). apply nth_error_In with (n := i).
    change (index (Blockchain.mapi_from 0 f l) i = Some (f i x)).
    now rewrite index_mapi_from, E.
Qed.

(** An entry of the log carries the index of the block it is about. *)
Lemma In_validateChain (self : Blockchain.t) (e : ChainError) :
  In e (validateChain self) <->
  exists b, index (chain self) (block e) = Some b /\ In e (check_block self (block e) b).
Proof.
  unfold Blockchain.validateChain. rewrite in_concat. split.
  - intros (l & I & E). apply In_mapi in I as (i & b & Hb & ->).
    assert (block e = i).
    { unfold Blockchain.check_block in E. apply in_app_or in E as [E|E].
      - destruct (negb _); [destruct E as [<-|[]]; reflexivity | destruct E].
      - destruct (_ && _)%bool; [destruct E as [<-|[]]; reflexivity | destruct E]. }
    subst i. now exists b.
  - intros (b & Hb & E). exists (check_block self (block e) b). split; [|trivial].
    apply In_mapi. now exists (block e), b.
Qed.

Lemma validateChain_nil_iff (self : Blockchain.t) :
  validateChain self = [] <->
  forall i b, index (chain self) i = Some b -> check_block self i b = [].
Proof.
  unfold Blockchain.validateChain. rewrite concat_nil_iff. split.
  - intros H i b Hb. apply H. apply In_mapi. now exists i, b.
  - intros H l I. apply In_mapi in I as (i & b & Hb & ->). now apply H.
Qed.

Lemma check_block_nil_iff (self : Blockchain.t) (i : nat) (b : Block.t) :
  check_block self i b = [] <->
  validate b = true /\
  ((0 < i)%nat -> exists p, index (chain self) (i - 1) = Some p
                            /\ Block.previousBlockHash b = Block.hash p).
Proof.
  unfold Blockchain.check_block.
  destruct (validate b); cbn [negb app].
  2:{ split; [discriminate | intros [? _]; discriminate]. }
  destruct (0 <? i)%nat eqn:P; cbn [andb].
  - apply Nat.ltb_lt in P. destruct (index (chain self) (i - 1)) as [p|].
    + destruct (Blockchain.nullable_eqb _ _) eqn:E; cbn [negb].
      * apply nullable_eqb_eq in E. split; [|reflexivity].
        intros _. split; [reflexivity|]. intros _. now exists p.
      * split; [discriminate|]. intros [_ H]. destruct (H P) as (p' & Hp & Hl).
        injection Hp as <-. apply nullable_eqb_eq in Hl. congruence.
    + split; [discriminate|]. intros [_ H]. destruct (H P) as (p' & Hp & _). discriminate.
  - apply Nat.ltb_ge in P. split; [|reflexivity]. intros _. split; [reflexivity|]. lia.
Qed.


(** ** The block that _addBlock pushes *)

Lemma appended_height now b self :
  Block.height (appended now b self) = Z.of_nat (List.length (chain self)).
Proof. reflexivity. Qed.

Lemma appended_body now b self : Block.body (appended now b self) = Block.body b.
Proof.
  unfold Ledger.appended.
  destruct (0 <? List.length (chain self))%nat; [destruct (index (chain self) _)|];
    reflexivity.
Qed.

Lemma appended_time now b self :
  Block.time (appended now b self) = JStr (Blockchain.seconds_text now).
Proof. reflexivity. Qed.

Lemma appended_hash now b self : exists h, Block.hash (appended now b self) = Some h.
Proof. eexists. reflexivity. Qed.

Lemma appended_link_first now b self :
  chain self = [] ->
  Block.previousBlockHash (appended now b self) = Block.previousBlockHash b.
Proof. intros E. unfold Ledger.appended. rewrite E. reflexivity. Qed.

Lemma appended_link now b self i p :
  index (chain self) i = Some p -> S i = List.length (chain self) ->
  Block.previousBlockHash (appended now b self) = Block.hash p.
Proof.
  intros Hp L. unfold Ledger.appended. rewrite <- L. cbn [Nat.ltb Nat.leb].
  replace (S i - 1)%nat with i by lia. rewrite Hp. reflexivity.
Qed.

(** A block that comes without a hash is pushed with the hash that
    validate() recomputes. *)
Lemma appended_valid now b self :
  Block.hash b = None -> validate (appended now b self) = true.
Proof.
  intros H. destruct b as [h n bd t p]. cbn in H. subst h.
  unfold Ledger.appended, Block.validate.
  destruct (0 <? List.length (chain self))%nat; [destruct (index (chain self) _)|];
    cbn; apply String.eqb_refl.
Qed.

Lemma _addBlock_state now b self :
  snd (_addBlock now b self)
  = Blockchain.mk (chain self ++ [appended now b self]) (Blockchain.height self + 1).
Proof. rewrite _addBlock_eq. cbv zeta. now destruct (0 <? _)%nat. Qed.

Lemma _addBlock_resolved now b self b' self' :
  _addBlock now b self = (Resolved b', self') ->
  b' = appended now b self /\ self' = Blockchain.mk (chain self ++ [appended now b self]) (Blockchain.height self + 1) /\ validateChain self' = [].
Proof.
  rewrite _addBlock_eq. cbv zeta.
  destruct (0 <? _)%nat eqn:E; intros H; inversion H; subst.
  repeat split. apply Nat.ltb_ge in E.
  destruct (validateChain _); [reflexivity | simpl in E; lia].
Qed.

(** ** Well-formedness is kept by every push *)

Lemma well_formed_empty : well_formed (Blockchain.mk [] (-1)).
Proof. split; cbn; try reflexivity; intros; try destruct i; discriminate. Qed.

Lemma well_formed_push now b self :
  well_formed self -> Block.previousBlockHash b = None ->
  well_formed (Blockchain.mk (chain self ++ [appended now b self]) (Blockchain.height self + 1)).
Proof.
  intros [Hh Hg Hl Hc] Pb.
  assert (New : forall i x, index (chain self ++ [appended now b self])%list i = Some x ->
                  (i < List.length (chain self))%nat /\ index (chain self) i = Some x
                  \/ i = List.length (chain self) /\ x = appended now b self).
  { intros i x H. destruct (Nat.lt_ge_cases i (List.length (chain self))) as [L|G].
    - left. split; [trivial|]. now rewrite index_app_old in H.
    - right. apply index_lt in H as L. rewrite length_app in L. cbn in L.
      assert (i = List.length (chain self)) by lia. subst i.
      rewrite index_app_new in H. split; congruence. }
  split; cbn [Blockchain.chain Blockchain.height].
  - intros i x H. apply New in H as [[_ H]|[-> ->]]; [now apply Hh | apply appended_height].
  - intros x H. apply New in H as [[_ H]|[E ->]]; [now apply Hg|].
    rewrite appended_link_first; [trivial|].
    destruct (chain self); [reflexivity | discriminate].
  - intros i x p Hx Hp. apply New in Hx as [[L Hx]|[E ->]].
    + rewrite index_app_old in Hp by lia. now apply (Hl i).
    + rewrite index_app_old in Hp by lia. now apply appended_link with (i := i).
  - rewrite length_app. cbn. lia.
Qed.

(** ** A clean chain stays clean when a new block is pushed *)

Lemma clean_push now b self :
  validateChain self = [] -> Block.hash b = None ->
  validateChain (Blockchain.mk (chain self ++ [appended now b self])
                               (Blockchain.height self + 1)) = [].
Proof.
  intros C H. rewrite validateChain_push, C. cbn [app].
  apply check_block_nil_iff. split; [now apply appended_valid|].
  intros P. cbn [Blockchain.chain].
  destruct (index (chain self) (List.length (chain self) - 1)) as [p|] eqn:E.
  - exists p. rewrite index_app_old by lia. split; [trivial|].
    apply appended_link with (i := (List.length (chain self) - 1)%nat); [trivial | lia].
  - apply nth_error_None in E. lia.
Qed.

(** Appending a newly constructed block to a clean chain succeeds. *)
Lemma _addBlock_clean now b self :
  validateChain self = [] -> Block.hash b = None ->
  _addBlock now b self
  = (Resolved (appended now b self),
     Blockchain.mk (chain self ++ [appended now b self]) (Blockchain.height self + 1)).
Proof.
  intros C H. rewrite _addBlock_eq. cbv zeta. now rewrite clean_push.
Qed.

Lemma constructor_eq now :
  Blockchain.constructor SHA256 now
  = Blockchain.mk
      [appended now (Block.constructor (JObj [("data", JStr "Genesis Block")]))
         (Blockchain.mk [] (-1))] 0.
Proof.
  unfold Blockchain.constructor, Blockchain.initializeChain.
  cbn [Blockchain.height Z.eqb Pos.eqb]. now rewrite _addBlock_state.
Qed.

Lemma reachable_clean self : reachable SHA256 self -> validateChain self = [].
Proof.
  induction 1 as [now | self now data b self' R IH E].
  - rewrite constructor_eq.
    now apply (clean_push now _ (Blockchain.mk [] (-1))).
  - now apply _addBlock_resolved in E as (_ & _ & E).
Qed.

Lemma reachable_well_formed self : reachable SHA256 self -> well_formed self.
Proof.
  induction 1 as [now | self now data b self' R IH E].
  - rewrite constructor_eq.
    now apply (well_formed_push now _ (Blockchain.mk [] (-1)) well_formed_empty).
  - apply _addBlock_resolved in E as (_ & -> & _). now apply well_formed_push.
Qed.

End Engine.
End ChainFacts.

Module SampleFacts.
Import JS JSON Normal Ledger ChainFacts.

Lemma genesis_reachable : reachable CryptoJS.SHA256 Sample.genesis_ledger.
Proof. apply reachable_genesis. Qed.

Lemma ledger1_append :
  Blockchain._addBlock CryptoJS.SHA256 Sample.t1
    (Block.constructor
       (JObj [("owner", JStr "1FzpnkhCmUacDqkfhbLBhnQj8nXQ2ch2Ni"); ("star", Sample.star)]))
    Sample.genesis_ledger
  = (Resolved
       (appended CryptoJS.SHA256 Sample.t1
          (Block.constructor
             (JObj [("owner", JStr "1FzpnkhCmUacDqkfhbLBhnQj8nXQ2ch2Ni"); ("star", Sample.star)]))
          Sample.genesis_ledger),
     Sample.ledger1).
Proof. vm_compute. reflexivity. Qed.

Lemma ledger1_reachable : reachable CryptoJS.SHA256 Sample.ledger1.
Proof.
  exact (reachable_append CryptoJS.SHA256 _ _ _ _ _ genesis_reachable ledger1_append).
Qed.

End SampleFacts.

Module InvariantClaims.
Import JS JSON Normal Ledger ChainFacts.

Section Engine.
Variable SHA256 : string -> string.

(** C1. Chain well-formedness: in every ledger reachable by genesis
    initialization followed by successful appends, the block at index i has
    height i, the first block has a null previousBlockHash, every later
    block carries the hash of the block before it, and the cached height is
    the length of the chain minus one; a freshly initialized ledger holds
    exactly one block, of height 0 and without predecessor, and has
    height 0. *)
Theorem chain_well_formed (self : Blockchain.t) :
  reachable SHA256 self ->
  well_formed self
  /\ forall now, exists genesis,
       Blockchain.constructor SHA256 now = Blockchain.mk [genesis] 0
       /\ Block.height genesis = 0
       /\ Block.previousBlockHash genesis = None.
Proof.
  intros R. split; [now apply (reachable_well_formed SHA256)|].
  intros now. rewrite (constructor_eq SHA256). eexists. split; [reflexivity|].
  split; reflexivity.
Qed.

(** C2. Untampered chains validate clean: in every ledger built by genesis
    initialization and successful appends, validate() resolves true for
    each stored block, that is, the stored hash is the hash recomputed over
    the block with its hash field null, and validateChain() resolves with
    the empty log. *)
Theorem untampered_chain_validates (self : Blockchain.t) :
  reachable SHA256 self ->
  (forall b, In b (Blockchain.chain self) ->
     Block.validate SHA256 b = true
     /\ Block.hash b = Some (SHA256 (stringify (Block.to_json (Block.set_hash None b)))))
  /\ Blockchain.validateChain SHA256 self = [].
Proof.
  intros R. pose proof (reachable_clean SHA256 self R) as C.
  split; [|exact C]. intros b I.
  apply In_nth_error in I as [i I].
  assert (V : Block.validate SHA256 b = true).
  { pose proof (proj1 (validateChain_nil_iff SHA256 self) C i b I) as N.
    now apply (check_block_nil_iff SHA256) in N as [V _]. }
  split; [exact V|]. unfold Block.validate in V.
  destruct (Block.hash b) as [h|]; [|discriminate].
  apply String.eqb_eq in V. now rewrite V.
Qed.

(** C4. Append failure after the push: when the validation that _addBlock
    runs after pushing the block returns a log that is not empty, the
    promise is rejected with that log, and yet the block is in the chain and
    the cached height is one more: nothing is rolled back. *)
Theorem append_failure_keeps_block (now : Z) (b : Block.t) (self : Blockchain.t) :
  Blockchain.validateChain SHA256 (snd (Blockchain._addBlock SHA256 now b self)) <> [] ->
  exists pushed,
    Blockchain._addBlock SHA256 now b self
    = (Rejected (ErrorLog (Blockchain.validateChain SHA256
                             (Blockchain.mk (Blockchain.chain self ++ [pushed])
                                            (Blockchain.height self + 1)))),
       Blockchain.mk (Blockchain.chain self ++ [pushed]) (Blockchain.height self + 1))
    /\ Block.body pushed = Block.body b.
Proof.
  intros H. exists (appended SHA256 now b self).
  rewrite (_addBlock_state SHA256) in H. rewrite (_addBlock_eq SHA256). cbv zeta.
  split; [|apply appended_body].
  destruct (Blockchain.validateChain SHA256 _); [congruence | reflexivity].
Qed.

End Engine.

(** C1 on the ledger that one accepted submission leaves. *)
Lemma chain_well_formed_witness :
  well_formed Sample.ledger1
  /\ forall now, exists genesis,
       Blockchain.constructor CryptoJS.SHA256 now = Blockchain.mk [genesis] 0
       /\ Block.height genesis = 0
       /\ Block.previousBlockHash genesis = None.
Proof.
  exact (chain_well_formed CryptoJS.SHA256 Sample.ledger1 SampleFacts.ledger1_reachable).
Defined.

(** C2 on the same ledger. *)
Lemma untampered_chain_validates_witness :
  (forall b, In b (Blockchain.chain Sample.ledger1) ->
     Block.validate CryptoJS.SHA256 b = true
     /\ Block.hash b
        = Some (CryptoJS.SHA256 (stringify (Block.to_json (Block.set_hash None b)))))
  /\ Blockchain.validateChain CryptoJS.SHA256 Sample.ledger1 = [].
Proof.
  exact (untampered_chain_validates CryptoJS.SHA256 Sample.ledger1 SampleFacts.ledger1_reachable).
Defined.

(** C4 on a ledger whose genesis block was tampered with: the submission is
    reported as failed, and the chain holds two blocks. *)
Lemma append_failure_keeps_block_witness :
  exists pushed,
    Blockchain._addBlock CryptoJS.SHA256 Sample.t1 (Block.constructor Sample.star)
      Sample.tampered_ledger
    = (Rejected (ErrorLog (Blockchain.validateChain CryptoJS.SHA256
                             (Blockchain.mk (Blockchain.chain Sample.tampered_ledger ++ [pushed])
                                            (Blockchain.height Sample.tampered_ledger + 1)))),
       Blockchain.mk (Blockchain.chain Sample.tampered_ledger ++ [pushed])
                     (Blockchain.height Sample.tampered_ledger + 1))
    /\ Block.body pushed = Block.body (Block.constructor Sample.star).
Proof.
  apply (append_failure_keeps_block CryptoJS.SHA256).
  vm_compute. discriminate.
Defined.

End InvariantClaims.

Module TamperFacts.
Import JS JSON Normal Ledger ChainFacts JSONFacts.

Lemma normalize_nullable (x : option string) :
  normalize (Block.nullable x) = Block.nullable x.
Proof. now destruct x. Qed.

(** The block as JSON.parse reads it back from its text. *)
Lemma normalize_to_json (b : Block.t) :
  normalize (Block.to_json b)
  = JObj [("hash", Block.nullable (Block.hash b));
          ("height", JNum (Block.height b));
          ("body", JStr (Block.body b));
          ("time", normalize (Block.time b));
          ("previousBlockHash", Block.nullable (Block.previousBlockHash b))].
Proof. destruct b as [[h|] n bd t [p|]]; reflexivity. Qed.

Lemma nullable_inj (x y : option string) :
  Block.nullable x = Block.nullable y -> x = y.
Proof. destruct x, y; simpl; congruence. Qed.

(** Two blocks with the same text have the same fields. *)
Lemma text_inj (b b' : Block.t) :
  wf (Block.time b) -> wf (Block.time b') ->
  text b' = text b ->
  Block.height b' = Block.height b /\ Block.time b' = Block.time b
  /\ Block.previousBlockHash b' = Block.previousBlockHash b
  /\ Block.body b' = Block.body b.
Proof.
  intros W W' E. unfold text in E.
  apply (f_equal parse) in E. rewrite !parse_stringify, !normalize_to_json in E.
  cbn [Block.set_hash Block.hash Block.height Block.body Block.time
       Block.previousBlockHash] in E.
  injection E as Eh Eb Et Ep. apply nullable_inj in Ep.
  unfold wf in *. repeat split; congruence.
Qed.

Lemma index_mutate (i : nat) (b' : Block.t) (l : list Block.t) :
  (i < List.length l)%nat -> index (mutate i b' l) i = Some b'.
Proof.
  revert i. induction l as [|x l IH]; intros [|i] H; simpl in *; try lia; trivial.
  apply IH. lia.
Qed.

Section Engine.
Variable SHA256 : string -> string.

(** Every block of a reachable ledger is a newly constructed block as
    _addBlock pushed it. *)
Lemma reachable_blocks (self : Blockchain.t) :
  reachable SHA256 self ->
  forall b, In b (Blockchain.chain self) ->
    exists now data prior, b = appended SHA256 now (Block.constructor data) prior.
Proof.
  induction 1 as [now | self now data b0 self' R IH E]; intros b I.
  - rewrite (constructor_eq SHA256) in I. destruct I as [<-|[]]. eauto.
  - apply (_addBlock_resolved SHA256) in E as (_ & -> & _).
    cbn [Blockchain.chain] in I. apply in_app_or in I as [I|[<-|[]]]; eauto.
Qed.


End Engine.
End TamperFacts.

Module UntypedFacts.
Import JS JSON Ledger ChainFacts.

Lemma strict_eq_nullable (a b : option string) :
  Untyped.strict_eq (Untyped.Plain (Block.nullable a)) (Untyped.Plain (Block.nullable b))
  = Blockchain.nullable_eqb a b.
Proof. now destruct a, b. Qed.

Lemma to_json_of_block (b : Block.t) :
  Untyped.to_json (Untyped.of_block b) = Block.to_json b.
Proof. reflexivity. Qed.

Section Engine.
Variable SHA256 : string -> string.

(** On the values that the engine stores, validate() and validateChain()
    are those of [Block] and [Blockchain]. *)
Lemma validate_of_block (b : Block.t) :
  Untyped.validate SHA256 (Untyped.of_block b) = Block.validate SHA256 b.
Proof.
  unfold Untyped.validate, Block.validate. destruct b as [[h|] n bd t p]; reflexivity.
Qed.

Lemma check_block_of_block (self : Blockchain.t) (i : nat) (b : Block.t) :
  Untyped.check_block SHA256 (Untyped.stored self) i (Untyped.of_block b)
  = Blockchain.check_block SHA256 self i b.
Proof.
  unfold Untyped.check_block, Blockchain.check_block, Untyped.stored, index.
  rewrite validate_of_block, nth_error_map.
  destruct (nth_error (Blockchain.chain self) (i - 1)) as [p|]; [|reflexivity].
  cbn [option_map Untyped.of_block Untyped.previousBlockHash Untyped.hash].
  now rewrite strict_eq_nullable.
Qed.

Lemma mapi_from_map {A B C} (f : nat -> B -> C) (g : A -> B) (l : list A) (i : nat) :
  Blockchain.mapi_from i f (map g l) = Blockchain.mapi_from i (fun k x => f k (g x)) l.
Proof.
  revert i. induction l as [|x l IH]; intros i; cbn; [reflexivity|]. now rewrite IH.
Qed.

Lemma validateChain_stored (self : Blockchain.t) :
  Untyped.validateChain SHA256 (Untyped.stored self) = Blockchain.validateChain SHA256 self.
Proof.
  unfold Untyped.validateChain, Blockchain.validateChain, Blockchain.mapi.
  unfold Untyped.stored at 2. rewrite mapi_from_map. f_equal.
  apply mapi_from_ext. intros k x _. apply check_block_of_block.
Qed.

(** validate() reads the fields of a block through their serialization. *)
Lemma validate_serialized (b b' : Untyped.t) :
  Untyped.hash b' = Untyped.hash b ->
  Untyped.to_json (Untyped.set_hash (Untyped.Plain JNull) b')
  = Untyped.to_json (Untyped.set_hash (Untyped.Plain JNull) b) ->
  Untyped.validate SHA256 b' = Untyped.validate SHA256 b.
Proof. intros H E. unfold Untyped.validate. now rewrite H, E. Qed.

End Engine.

(** A String object written over the body of the block that holds the star
    of the sample ledger: validate() resolves true and the log is empty. *)
Lemma boxed_body_not_detected :
  Untyped.body (Untyped.of_block Examples.block1)
  = Untyped.Plain (JStr (Block.body Examples.block1))
  /\ Untyped.body Examples.boxed_block1 = Untyped.Boxed (Block.body Examples.block1)
  /\ Untyped.validate CryptoJS.SHA256 Examples.boxed_block1 = true
  /\ Untyped.validateChain CryptoJS.SHA256 Examples.boxed_chain = [].
Proof.
  split; [reflexivity|]. split; [reflexivity|].
  split; vm_compute; reflexivity.
Qed.

End UntypedFacts.

Module TamperClaims.
Import JS JSON Normal Ledger ChainFacts TamperFacts.

Section Engine.
Variable SHA256 : string -> string.


End Engine.



End TamperClaims.

Module TimeFacts.
Import JS JSON Ledger StringFacts JSFacts JSONFacts.

(** ** The clock in seconds *)

Lemma slice_0_neg_app (a b : string) :
  slice_0_neg (String.length b) (a ++ b) = a.
Proof.
  unfold slice_0_neg, len. rewrite length_app.
  replace (String.length a + String.length b - String.length b)%nat
    with (String.length a) by lia.
  apply substring_0_app.
Qed.

Lemma N_toString_thousands (n : N) :
  (1000 <= n)%N ->
  exists d, String.length d = 3%nat /\ N_toString n = N_toString (n / 1000) ++ d.
Proof.
  intros H.
  exists (String (digit_char ((n / 10 / 10) mod 10))
            (String (digit_char ((n / 10) mod 10))
               (String (digit_char (n mod 10)) EmptyString))).
  split; [reflexivity|].
  rewrite (N_toString_big n) by lia.
  rewrite (N_toString_big (n / 10)) by lia.
  rewrite (N_toString_big (n / 10 / 10)) by lia.
  rewrite !app_assoc. cbn [append].
  now replace (n / 10 / 10 / 10)%N with (n / 1000)%N by lia.
Qed.

(** The text of the clock without its last three digits is the clock in
    seconds. *)
Lemma seconds_text_eq (now : Z) :
  1000 <= now -> Blockchain.seconds_text now = Number_toString (now / 1000).
Proof.
  intros H. unfold Blockchain.seconds_text, Number_toString.
  destruct (Z.ltb_spec now 0); [lia|].
  destruct (Z.ltb_spec (now / 1000) 0); [lia|].
  destruct (N_toString_thousands (Z.to_N now)) as (d & L & E); [lia|].
  rewrite E, <- L, slice_0_neg_app. f_equal. lia.
Qed.

(** ** parseInt on the text of a number *)

Lemma parseInt_digits (d : N) (rest : string) :
  (1 <= d < 10)%N ->
  parseInt_radix (String (digit_char d) rest) None
  = match fst (read_digits 10 (String (digit_char d) rest) 0 false) with
    | Some n => Some (Z.of_N n)
    | None => None
    end.
Proof.
  intros H. assert (C : In d [1;2;3;4;5;6;7;8;9]%N) by (simpl; lia).
  simpl in C. repeat (destruct C as [<-|C]; [reflexivity|]). destruct C.
Qed.

Lemma parseInt_N_toString (n : N) :
  parseInt (Some (N_toString n)) = Some (Z.of_N n).
Proof.
  destruct (N.eq_dec n 0) as [->|NZ]; [reflexivity|].
  destruct (N_toString_head n) as (d & rest & E & R); [lia|].
  cbn [parseInt]. rewrite E, parseInt_digits, <- E by trivial.
  rewrite <- (app_nil_r (N_toString n)), read_digits_N_toString. reflexivity.
Qed.

Lemma parseInt_Number_toString (z : Z) :
  0 <= z -> parseInt (Some (Number_toString z)) = Some z.
Proof.
  intros H. unfold Number_toString. destruct (Z.ltb_spec z 0); [lia|].
  rewrite parseInt_N_toString. f_equal. lia.
Qed.

(** ** Fields of a text *)

Lemma occurs_app (c : ascii) (a b : string) :
  occurs c (a ++ b) = (occurs c a || occurs c b)%bool.
Proof. induction a as [|x a IH]; simpl; [reflexivity|]. now rewrite IH, orb_assoc. Qed.

Lemma split_first (sep : ascii) (a r : string) :
  occurs sep a = false ->
  split sep (a ++ String sep r) = a :: split sep r.
Proof.
  induction a as [|x a IH]; simpl; intros H.
  - now rewrite Ascii.eqb_refl.
  - apply orb_false_elim in H as [H1 H2]. now rewrite H1, IH.
Qed.

Lemma occurs_colon_digit (d : N) :
  (d < 10)%N -> occurs ":" (String (digit_char d) EmptyString) = false.
Proof.
  intros H. assert (C : In d [0;1;2;3;4;5;6;7;8;9]%N) by (simpl; lia).
  simpl in C. repeat (destruct C as [<-|C]; [reflexivity|]). destruct C.
Qed.

Lemma occurs_colon_N_toString (n : N) : occurs ":" (N_toString n) = false.
Proof.
  induction n as [n IH] using (well_founded_induction N.lt_wf_0).
  destruct (N.lt_ge_cases n 10) as [S|B].
  - rewrite N_toString_small by trivial. now apply occurs_colon_digit.
  - rewrite N_toString_big, occurs_app, IH, occurs_colon_digit by lia. reflexivity.
Qed.

Lemma occurs_colon_Number_toString (z : Z) : occurs ":" (Number_toString z) = false.
Proof.
  unfold Number_toString. destruct (z <? 0); [cbn [occurs]|];
    now rewrite ?occurs_colon_N_toString.
Qed.

(** The second field of a challenge whose address holds no colon is the
    time of issue. *)
Lemma challenge_time_field (address : string) (now : Z) :
  occurs ":" address = false -> 1000 <= now ->
  index (split ":" (Blockchain.requestMessageOwnershipVerification now address)) 1
  = Some (Number_toString (now / 1000)).
Proof.
  intros H L. unfold Blockchain.requestMessageOwnershipVerification.
  rewrite seconds_text_eq by trivial.
  change (address ++ ":" ++ Number_toString (now / 1000) ++ ":starRegistry")
    with (address ++ String ":" (Number_toString (now / 1000) ++ String ":" "starRegistry")).
  rewrite split_first by trivial.
  rewrite split_first; [reflexivity | apply occurs_colon_Number_toString].
Qed.

(** ** The freshness check *)

Lemma currentTime_eq (now : Z) :
  1000 <= now -> parseInt (Some (Blockchain.seconds_text now)) = Some (now / 1000).
Proof.
  intros H. rewrite seconds_text_eq by trivial. apply parseInt_Number_toString. lia.
Qed.

Lemma isFresh_iff (message : string) (now : Z) :
  1000 <= now ->
  isFresh message now = true <->
  exists t, parseInt (index (split ":" message) 1) = Some t /\ now / 1000 - t < 300.
Proof.
  intros H. unfold isFresh. rewrite currentTime_eq by trivial.
  destruct (parseInt (index (split ":" message) 1)) as [t|]; cbn [sub_lt].
  - rewrite Z.ltb_lt. split; [intros; exists t; split; trivial|].
    intros (t' & E & L). now injection E as <-.
  - split; [discriminate | intros (t & E & _); discriminate].
Qed.

Lemma isFresh_issued (address : string) (now now' : Z) :
  occurs ":" address = false -> 1000 <= now -> 1000 <= now' ->
  isFresh (Blockchain.requestMessageOwnershipVerification now address) now'
  = (now' / 1000 - now / 1000 <? 300).
Proof.
  intros H L L'. unfold isFresh.
  rewrite currentTime_eq, challenge_time_field by trivial.
  rewrite parseInt_Number_toString by lia. reflexivity.
Qed.

Section Engine.
Variable SHA256 : string -> string.
Variable verify : string -> string -> string -> Completion bool.

(** submitStar, by the outcome of its checks. *)
Lemma submitStar_eq now now' address message signature star self :
  Blockchain.submitStar SHA256 verify now now' address message signature star self
  = if isFresh message now then
      match verify message address signature with
      | Returns true =>
          Blockchain._addBlock SHA256 now'
            (Block.constructor (JObj [("owner", JStr address); ("star", star)])) self
      | Returns false => (Rejected (Error "Signature verification failed."), self)
      | Throws what => (Rejected (Thrown what), self)
      end
    else (Rejected (Error "Message signature has expired."), self).
Proof. reflexivity. Qed.

(** The rejection for an expired message is the outcome of the freshness
    check and of nothing else. *)
Lemma expired_iff now now' address message signature star self :
  fst (Blockchain.submitStar SHA256 verify now now' address message signature star self)
  = Rejected (Error "Message signature has expired.")
  <-> isFresh message now = false.
Proof.
  rewrite submitStar_eq. destruct (isFresh message now).
  - split; [|discriminate]. destruct (verify message address signature) as [[]|].
    + rewrite (ChainFacts._addBlock_eq SHA256). cbv zeta.
      destruct (0 <? _)%nat; discriminate.
    + discriminate.
    + discriminate.
  - split; reflexivity.
Qed.

End Engine.
End TimeFacts.

Module ChallengeClaims.
Import JS JSON Ledger TimeFacts.

Section Engine.
Variable SHA256 : string -> string.
Variable verify : string -> string -> string -> Completion bool.

(** C5. Submission rejection: a submission whose message is stale (the
    current time minus the time read from the message is not below 300
    seconds) is rejected with the error for an expired message; one whose
    message is fresh and whose signature the verifier finds false is
    rejected with the error for a failed verification.  In both cases the
    ledger is returned as it was: no block appended, chain and height
    unchanged. *)
Theorem submission_rejected (now now' : Z) (address message signature : string)
  (star : json) (self : Blockchain.t) :
  (isFresh message now = false ->
   Blockchain.submitStar SHA256 verify now now' address message signature star self
   = (Rejected (Error "Message signature has expired."), self))
  /\ (forall t, parseInt (index (split ":" message) 1) = Some t ->
      1000 <= now -> 300 <= now / 1000 - t ->
      Blockchain.submitStar SHA256 verify now now' address message signature star self
      = (Rejected (Error "Message signature has expired."), self))
  /\ (isFresh message now = true ->
      verify message address signature = Returns false ->
      Blockchain.submitStar SHA256 verify now now' address message signature star self
      = (Rejected (Error "Signature verification failed."), self)).
Proof.
  assert (S : isFresh message now = false ->
              Blockchain.submitStar SHA256 verify now now' address message signature star self
              = (Rejected (Error "Message signature has expired."), self)).
  { intros F. now rewrite submitStar_eq, F. }
  split; [exact S|]. split.
  - intros t E L D. apply S.
    destruct (isFresh message now) eqn:F; [|reflexivity].
    apply isFresh_iff in F as (t' & E' & B); [|trivial].
    rewrite E in E'. injection E' as <-. lia.
  - intros F V. now rewrite submitStar_eq, F, V.
Qed.

(** C6, amended. Challenge issuance and freshness: when the clock reads at
    least one second, the challenge is the address, the clock in seconds
    and the tag starRegistry, separated by colons; submitStar rejects a
    message as expired exactly when the check fails, and the check succeeds
    exactly when the current time in seconds minus the time it reads from
    the message is below 300.  For an address that holds no colon the time
    read is the time of issue, so the challenge is fresh when just issued
    and stale once 300 seconds have passed. *)
Theorem challenge_freshness (address : string) (now now' : Z) :
  occurs ":" address = false -> 1000 <= now -> 1000 <= now' ->
  Blockchain.requestMessageOwnershipVerification now address
  = address ++ ":" ++ Number_toString (now / 1000) ++ ":starRegistry"
  /\ (forall submitted message signature star self,
        fst (Blockchain.submitStar SHA256 verify now' submitted address message
               signature star self)
        = Rejected (Error "Message signature has expired.")
        <-> isFresh message now' = false)
  /\ (forall message,
        isFresh message now' = true <->
        exists t, parseInt (index (split ":" message) 1) = Some t
                  /\ now' / 1000 - t < 300)
  /\ isFresh (Blockchain.requestMessageOwnershipVerification now address) now'
     = (now' / 1000 - now / 1000 <? 300)
  /\ isFresh (Blockchain.requestMessageOwnershipVerification now address) now = true
  /\ (300 <= now' / 1000 - now / 1000 ->
      isFresh (Blockchain.requestMessageOwnershipVerification now address) now' = false).
Proof.
  intros H L L'. repeat split.
  - unfold Blockchain.requestMessageOwnershipVerification.
    now rewrite seconds_text_eq.
  - now apply expired_iff.
  - now apply expired_iff.
  - now apply isFresh_iff.
  - now apply isFresh_iff.
  - now apply isFresh_issued.
  - rewrite isFresh_issued by trivial. apply Z.ltb_lt. lia.
  - intros D. rewrite isFresh_issued by trivial. apply Z.ltb_ge. lia.
Qed.

End Engine.

(** C5 on a new ledger: a challenge issued 301 seconds before the submission,
    and a fresh challenge with a signature that the stub refuses. *)
Lemma submission_rejected_witness :
  Blockchain.submitStar CryptoJS.SHA256 Sample.verify Sample.t1 Sample.t1
    "1FzpnkhCmUacDqkfhbLBhnQj8nXQ2ch2Ni"
    (Blockchain.requestMessageOwnershipVerification (Sample.t1 - 301000)
       "1FzpnkhCmUacDqkfhbLBhnQj8nXQ2ch2Ni")
    "valid" Sample.star Sample.genesis_ledger
  = (Rejected (Error "Message signature has expired."), Sample.genesis_ledger)
  /\ Blockchain.submitStar CryptoJS.SHA256 Sample.verify Sample.t1 Sample.t1
       "1FzpnkhCmUacDqkfhbLBhnQj8nXQ2ch2Ni" Sample.challenge "forged" Sample.star
       Sample.genesis_ledger
     = (Rejected (Error "Signature verification failed."), Sample.genesis_ledger).
Proof.
  split.
  - apply (proj1 (submission_rejected CryptoJS.SHA256 Sample.verify _ _ _ _ _ _ _)).
    vm_compute. reflexivity.
  - apply (proj2 (proj2 (submission_rejected CryptoJS.SHA256 Sample.verify _ _ _ _ _ _ _))).
    + vm_compute. reflexivity.
    + reflexivity.
Defined.

(** C6, as stated, fails for an address that holds a colon: the challenge
    just issued for the address a:b is not fresh, since the time is read from
    the second field, which is b. *)
Lemma fresh_challenge_colon_address_expired :
  isFresh (Blockchain.requestMessageOwnershipVerification Sample.t0 "a:b") Sample.t0 = false
  /\ Blockchain.submitStar CryptoJS.SHA256 (fun _ _ _ => Returns true) Sample.t0 Sample.t0
       "a:b" (Blockchain.requestMessageOwnershipVerification Sample.t0 "a:b")
       "valid" Sample.star Sample.genesis_ledger
     = (Rejected (Error "Message signature has expired."), Sample.genesis_ledger).
Proof. split; vm_compute; reflexivity. Qed.

(** C6, amended, on the sample address, 100 seconds after the issue. *)
Lemma challenge_freshness_witness :
  Sample.challenge = "1FzpnkhCmUacDqkfhbLBhnQj8nXQ2ch2Ni:1700000000:starRegistry"
  /\ isFresh Sample.challenge Sample.t1 = true
  /\ isFresh Sample.challenge Sample.t0 = true.
Proof.
  destruct (challenge_freshness CryptoJS.SHA256 Sample.verify
              "1FzpnkhCmUacDqkfhbLBhnQj8nXQ2ch2Ni" Sample.t0 Sample.t1)
    as (E & _ & _ & F & F0 & _).
  - reflexivity.
  - unfold Sample.t0. lia.
  - unfold Sample.t1. lia.
  - split; [exact E|]. split; [exact F | exact F0].
Defined.

End ChallengeClaims.

Module QueryFacts.
Import JS JSON Normal Ledger ChainFacts CodecFacts TimeFacts.

(** ** What the codec returns for the payloads of the engine *)

Lemma decode_genesis_data :
  Block.decode (Block.encode genesis_data) = Some genesis_data.
Proof. rewrite decode_encode. reflexivity. Qed.

Lemma decode_payload (a : string) (s : json) :
  Block.decode (Block.encode (payload (a, s)))
  = Some (JObj [("owner", JStr (mojibake a)); ("star", normalize (mojibake_json s))]).
Proof. rewrite decode_encode. reflexivity. Qed.

Section Engine.
Variable SHA256 : string -> string.
Variable verify : string -> string -> string -> Completion bool.

Notation getStarsByWalletAddress := Blockchain.getStarsByWalletAddress.

(** ** The ledgers of the engine *)

(** The bodies of a built ledger: the genesis payload, then the payload of
    each accepted submission. *)
Lemma built_bodies (hist : list (string * json)) (self : Blockchain.t) :
  built SHA256 verify hist self ->
  map Block.body (Blockchain.chain self)
  = Block.encode genesis_data :: map (fun s => Block.encode (payload s)) hist.
Proof.
  induction 1 as [now | hist self now now' a m sg st b self' B IH E].
  - rewrite (constructor_eq SHA256). reflexivity.
  - rewrite (submitStar_eq SHA256 verify) in E.
    destruct (isFresh m now); [|discriminate].
    destruct (verify m a sg) as [[]|]; try discriminate.
    apply (_addBlock_resolved SHA256) in E as (_ & -> & _).
    cbn [Blockchain.chain]. rewrite !map_app, IH. cbn [map].
    now rewrite appended_body.
Qed.

Lemma built_reachable (hist : list (string * json)) (self : Blockchain.t) :
  built SHA256 verify hist self -> reachable SHA256 self.
Proof.
  induction 1 as [now | hist self now now' a m sg st b self' B IH E].
  - apply reachable_genesis.
  - rewrite (submitStar_eq SHA256 verify) in E.
    destruct (isFresh m now); [|discriminate].
    destruct (verify m a sg) as [[]|]; try discriminate.
    eapply reachable_append; eassumption.
Qed.

(** ** The callback of getStarsByWalletAddress *)


Lemma star_of_body (address : string) (b b' : Block.t) :
  Block.body b = Block.body b' ->
  Blockchain.star_of address b = Blockchain.star_of address b'.
Proof. intros E. unfold Blockchain.star_of. now rewrite E. Qed.

Lemma star_of_genesis (address : string) (b : Block.t) :
  Block.body b = Block.encode genesis_data ->
  Blockchain.star_of address b = Returns None.
Proof.
  intros E. unfold Blockchain.star_of. rewrite E, decode_genesis_data. reflexivity.
Qed.

Lemma star_of_payload (address : string) (b : Block.t) (s : string * json) :
  Block.body b = Block.encode (payload s) ->
  Blockchain.star_of address b = Returns (star_for address s).
Proof.
  intros E. destruct s as [a st]. unfold Blockchain.star_of, star_for.
  rewrite E, decode_payload. cbn [fst snd].
  cbn [Blockchain.property get String.eqb Ascii.eqb Bool.eqb
       Blockchain.truthy Blockchain.strict_eq_string].
  destruct (truthy_string (mojibake a) && String.eqb (mojibake a) address)%bool;
    reflexivity.
Qed.

Lemma map_completion_payloads (address : string) (blocks : list Block.t)
  (hist : list (string * json)) :
  map Block.body blocks = map (fun s => Block.encode (payload s)) hist ->
  Blockchain.map_completion (Blockchain.star_of address) blocks
  = Returns (map (star_for address) hist).
Proof.
  revert hist. induction blocks as [|b blocks IH]; intros [|s hist] E;
    try discriminate; [reflexivity|].
  cbn [map] in E. injection E as Eb Er.
  cbn [Blockchain.map_completion map].
  now rewrite (star_of_payload address b s Eb), (IH hist Er).
Qed.

(** What getStarsByWalletAddress returns on a built ledger. *)
Lemma getStars_built (address : string) (hist : list (string * json))
  (self : Blockchain.t) :
  built SHA256 verify hist self ->
  getStarsByWalletAddress address self
  = Resolved (Spec.or_not_found (Blockchain.defined (map (star_for address) hist))).
Proof.
  intros B. apply built_bodies in B.
  unfold Blockchain.getStarsByWalletAddress.
  destruct (Blockchain.chain self) as [|g blocks]; [discriminate|].
  cbn [map] in B. injection B as Eg Er.
  cbn [Blockchain.map_completion].
  rewrite (star_of_genesis address g Eg), (map_completion_payloads address blocks hist Er).
  cbn [Blockchain.defined].
  destruct (Blockchain.defined (map (star_for address) hist)); reflexivity.
Qed.

(** ** The records in the words of the specification *)


Lemma records_payloads (identity : string) (blocks : list Block.t)
  (hist : list (string * json)) :
  map Block.body blocks = map (fun s => Block.encode (payload s)) hist ->
  Spec.records_by_identity identity blocks = flat_map (record_for identity) hist.
Proof.
  revert hist. induction blocks as [|b blocks IH]; intros [|[a st] hist] E;
    try discriminate; [reflexivity|].
  cbn [map] in E. injection E as Eb Er.
  cbn [Spec.records_by_identity flat_map].
  rewrite Eb, decode_payload, (IH hist Er).
  change (record_for identity (a, st))
    with (if String.eqb (mojibake a) identity
          then [normalize (mojibake_json st)] else []).
  cbn [Spec.owner_is Spec.record_of get String.eqb Ascii.eqb Bool.eqb].
  destruct (String.eqb (mojibake a) identity); reflexivity.
Qed.

Lemma records_built (identity : string) (hist : list (string * json))
  (self : Blockchain.t) :
  built SHA256 verify hist self ->
  Spec.getRecordsByIdentity identity self
  = Spec.or_not_found (flat_map (record_for identity) hist).
Proof.
  intros B. apply built_bodies in B. unfold Spec.getRecordsByIdentity.
  destruct (Blockchain.chain self) as [|g blocks]; [discriminate|].
  cbn [map] in B. injection B as Eg Er.
  cbn [Spec.records_by_identity]. rewrite Eg, decode_genesis_data.
  cbn. now rewrite (records_payloads identity blocks hist Er).
Qed.

Lemma defined_star_for (address : string) (hist : list (string * json)) :
  address <> EmptyString ->
  Blockchain.defined (map (star_for address) hist) = flat_map (record_for address) hist.
Proof.
  intros NE. induction hist as [|[a st] hist IH]; [reflexivity|].
  cbn [map flat_map].
  change (star_for address (a, st))
    with (if (truthy_string (mojibake a) && String.eqb (mojibake a) address)%bool
          then Some (normalize (mojibake_json st)) else None).
  change (record_for address (a, st))
    with (if String.eqb (mojibake a) address
          then [normalize (mojibake_json st)] else []).
  destruct (String.eqb_spec (mojibake a) address) as [E|N].
  - assert (T : truthy_string (mojibake a) = true).
    { rewrite E. destruct address; [congruence | reflexivity]. }
    rewrite T. cbn [andb Blockchain.defined app]. now rewrite IH.
  - rewrite andb_false_r. cbn [Blockchain.defined app]. exact IH.
Qed.

(** With submissions in ASCII, the records of an identity are the stars
    submitted under it. *)
Lemma flat_map_ascii (identity : string) (hist : list (string * json)) :
  Forall (fun s => is_ascii (fst s) = true /\ all_ascii (snd s) = true /\ wf (snd s)) hist ->
  flat_map (record_for identity) hist
  = map snd (filter (fun s => String.eqb (fst s) identity) hist).
Proof.
  induction 1 as [|[a st] hist (A & S & W) H IH]; [reflexivity|].
  cbn [flat_map filter].
  change (record_for identity (a, st))
    with (if String.eqb (mojibake a) identity
          then [normalize (mojibake_json st)] else []).
  cbn [fst snd] in *.
  rewrite (mojibake_ascii a A), (mojibake_json_ascii st S), W, IH.
  destruct (String.eqb a identity); reflexivity.
Qed.

End Engine.
End QueryFacts.

Module CodecClaims.
Import JS JSON Normal Ledger ChainFacts CodecFacts QueryFacts.

(** C7. The codec does not give back a record that holds a code unit above
    127: the constructor stores the UTF-8 bytes of the JSON text, hex2ascii
    reads every byte as a code unit, and the accented letter of the story
    comes back as two letters.  getBData on the stored block returns the
    garbled record. *)
Theorem codec_garbles_accent :
  Block.decode (Block.encode Sample.star_accent) = Some Sample.star_garbled
  /\ Sample.star_garbled <> Sample.star_accent
  /\ Block.getBData
       (appended CryptoJS.SHA256 Sample.t1
          (Block.constructor (payload ("1FzpnkhCmUacDqkfhbLBhnQj8nXQ2ch2Ni", Sample.star_accent)))
          Sample.genesis_ledger)
     = Resolved (payload ("1FzpnkhCmUacDqkfhbLBhnQj8nXQ2ch2Ni", Sample.star_garbled)).
Proof.
  split; [vm_compute; reflexivity|]. split; [discriminate|].
  vm_compute. reflexivity.
Qed.

End CodecClaims.

Module QueryClaims.
Import JS JSON Normal Ledger ChainFacts CodecFacts QueryFacts.

Section Engine.
Variable SHA256 : string -> string.
Variable verify : string -> string -> string -> Completion bool.

(** C8, amended. Identity query: on a ledger built by the engine and for an
    identity that is not the empty string, getStarsByWalletAddress resolves
    with the records of the blocks whose decoded payload has an owner equal
    to the identity, in chain order, and with null when there is none.
    When the submitted addresses and stars are in ASCII, these are the
    stars submitted under the identity, in the order of submission; so an
    identity that submitted nothing gets null. *)
Theorem identity_query (hist : list (string * json)) (self : Blockchain.t)
  (identity : string) :
  built SHA256 verify hist self ->
  identity <> EmptyString ->
  Blockchain.getStarsByWalletAddress identity self
  = Resolved (Spec.getRecordsByIdentity identity self)
  /\ (Forall (fun s => is_ascii (fst s) = true /\ all_ascii (snd s) = true /\ wf (snd s))
        hist ->
      Blockchain.getStarsByWalletAddress identity self
      = Resolved (Spec.or_not_found
                    (map snd (filter (fun s => String.eqb (fst s) identity) hist)))).
Proof.
  intros B NE.
  rewrite (getStars_built SHA256 verify identity hist self B).
  rewrite (records_built SHA256 verify identity hist self B).
  rewrite (defined_star_for identity hist NE).
  split; [reflexivity|]. intros A. now rewrite flat_map_ascii.
Qed.

(** C10. Stored blocks decode: every block of a ledger built by the engine
    has a hash that is a string and a body that is the hexadecimal form of
    a JSON text; decoding the body succeeds, getBData resolves on every
    block but the genesis block, and getStarsByWalletAddress resolves for
    every address. *)
Theorem stored_blocks_decode (hist : list (string * json)) (self : Blockchain.t) :
  built SHA256 verify hist self ->
  (forall b, In b (Blockchain.chain self) ->
     (exists h, Block.hash b = Some h)
     /\ (exists data,
           Block.body b = Buffer.toString_hex (Buffer.from (stringify data))
           /\ parse (stringify data) = Some (normalize data))
     /\ (exists decoded, Block.decode (Block.body b) = Some decoded)
     /\ (Block.height b <> 0 -> exists decoded, Block.getBData b = Resolved decoded))
  /\ (forall address, exists stars,
        Blockchain.getStarsByWalletAddress address self = Resolved stars).
Proof.
  intros B. split.
  - intros b I.
    destruct (TamperFacts.reachable_blocks SHA256 self
                (built_reachable SHA256 verify hist self B) b I)
      as (now & data & prior & ->).
    assert (D : Block.decode (Block.body (appended SHA256 now (Block.constructor data) prior))
                = Some (normalize (mojibake_json data))).
    { rewrite appended_body. apply decode_encode. }
    split; [apply appended_hash|]. split; [|split].
    + exists data. rewrite appended_body. split; [reflexivity|].
      apply JSONFacts.parse_stringify.
    + eexists. exact D.
    + intros NZ. unfold Block.getBData.
      destruct (Z.eqb_spec (Block.height (appended SHA256 now (Block.constructor data) prior)) 0);
        [contradiction|]. cbn [negb].
      unfold Block.decode in D. rewrite D. eexists. reflexivity.
  - intros address. rewrite (getStars_built SHA256 verify address hist self B).
    eexists. reflexivity.
Qed.

End Engine.

(** A ledger built by the engine: the sample ledger after one submission. *)
Lemma ledger1_built :
  built CryptoJS.SHA256 Sample.verify
    [("1FzpnkhCmUacDqkfhbLBhnQj8nXQ2ch2Ni", Sample.star)] Sample.ledger1.
Proof.
  apply (built_submit CryptoJS.SHA256 Sample.verify [] Sample.genesis_ledger
           Sample.t1 Sample.t1 "1FzpnkhCmUacDqkfhbLBhnQj8nXQ2ch2Ni" Sample.challenge
           "valid" Sample.star
           (appended CryptoJS.SHA256 Sample.t1
              (Block.constructor (payload ("1FzpnkhCmUacDqkfhbLBhnQj8nXQ2ch2Ni", Sample.star)))
              Sample.genesis_ledger)).
  - apply built_genesis.
  - vm_compute. reflexivity.
Qed.

Lemma ledger_anonymous_built :
  built CryptoJS.SHA256 Sample.verify_all [(EmptyString, Sample.star)] Sample.ledger_anonymous.
Proof.
  apply (built_submit CryptoJS.SHA256 Sample.verify_all [] Sample.genesis_ledger
           Sample.t1 Sample.t1 EmptyString
           (Blockchain.requestMessageOwnershipVerification Sample.t0 EmptyString)
           "valid" Sample.star
           (appended CryptoJS.SHA256 Sample.t1
              (Block.constructor (payload (EmptyString, Sample.star)))
              Sample.genesis_ledger)).
  - apply built_genesis.
  - vm_compute. reflexivity.
Qed.

(** C8, as stated, fails for the empty identity: the ledger holds a block
    whose decoded owner is the empty string, so the records of that identity
    are the star of the block, and getStarsByWalletAddress resolves with
    null. *)
Lemma empty_identity_not_found :
  built CryptoJS.SHA256 Sample.verify_all [(EmptyString, Sample.star)] Sample.ledger_anonymous
  /\ Spec.getRecordsByIdentity EmptyString Sample.ledger_anonymous = Some [Sample.star]
  /\ Blockchain.getStarsByWalletAddress EmptyString Sample.ledger_anonymous = Resolved None.
Proof.
  split; [exact ledger_anonymous_built|]. split; vm_compute; reflexivity.
Qed.

(** C8, amended, on the sample ledger and the sample address. *)
Lemma identity_query_witness :
  Blockchain.getStarsByWalletAddress "1FzpnkhCmUacDqkfhbLBhnQj8nXQ2ch2Ni" Sample.ledger1
  = Resolved (Spec.getRecordsByIdentity "1FzpnkhCmUacDqkfhbLBhnQj8nXQ2ch2Ni" Sample.ledger1)
  /\ Blockchain.getStarsByWalletAddress "1FzpnkhCmUacDqkfhbLBhnQj8nXQ2ch2Ni" Sample.ledger1
     = Resolved (Some [Sample.star]).
Proof.
  destruct (identity_query CryptoJS.SHA256 Sample.verify _ _
              "1FzpnkhCmUacDqkfhbLBhnQj8nXQ2ch2Ni" ledger1_built) as [Q A].
  - discriminate.
  - split; [exact Q|]. apply A.
    repeat constructor.
Defined.

(** C10 on the sample ledger. *)
Lemma stored_blocks_decode_witness :
  (forall b, In b (Blockchain.chain Sample.ledger1) ->
     (exists h, Block.hash b = Some h)
     /\ (exists data,
           Block.body b = Buffer.toString_hex (Buffer.from (stringify data))
           /\ parse (stringify data) = Some (normalize data))
     /\ (exists decoded, Block.decode (Block.body b) = Some decoded)
     /\ (Block.height b <> 0 -> exists decoded, Block.getBData b = Resolved decoded))
  /\ (forall address, exists stars,
        Blockchain.getStarsByWalletAddress address Sample.ledger1 = Resolved stars).
Proof.
  exact (stored_blocks_decode CryptoJS.SHA256 Sample.verify _ _ ledger1_built).
Defined.

End QueryClaims.

Module EventLoopFacts.
Import JS JSON Normal Ledger ChainFacts TamperFacts EventLoop.

(** ** Array update *)

Lemma length_set_item {A} (i : nat) (x : A) (l : list A) :
  List.length (set_item i x l) = List.length l.
Proof. revert i. induction l as [|y l IH]; intros [|i]; simpl; auto. Qed.

Lemma index_set_item_same {A} (i : nat) (x : A) (l : list A) :
  (i < List.length l)%nat -> index (set_item i x l) i = Some x.
Proof.
  revert i. induction l as [|y l IH]; intros [|i] H; simpl in *; try lia; trivial.
  apply IH. lia.
Qed.

Lemma index_set_item_other {A} (i j : nat) (x : A) (l : list A) :
  i <> j -> index (set_item i x l) j = index l j.
Proof.
  revert i j. induction l as [|y l IH]; intros [|i] [|j] H; simpl; trivial; try lia.
  apply IH. lia.
Qed.

(** ** The calls made *)

Lemma existsb_eqb (k : nat) (l : list nat) : existsb (Nat.eqb k) l = true <-> In k l.
Proof.
  rewrite existsb_exists. split.
  - intros (x & I & E). apply Nat.eqb_eq in E. now subst.
  - intros I. exists k. split; [trivial | apply Nat.eqb_refl].
Qed.

Lemma In_started (schedule : list (nat * Z)) (n : nat) (seen : list nat) (k : nat) :
  In k (started schedule n seen) <->
  (k < n)%nat /\ In k (map fst schedule) /\ ~ In k seen.
Proof.
  revert seen. induction schedule as [|[j now] rest IH]; intros seen; cbn [started map fst].
  - simpl. tauto.
  - destruct (j <? n)%nat eqn:L; cbn [andb].
    + apply Nat.ltb_lt in L.
      destruct (existsb (Nat.eqb j) seen) eqn:E; cbn [negb].
      * apply existsb_eqb in E. rewrite IH. cbn [In].
        split; [tauto|]. intros (? & [->|?] & ?); tauto.
      * assert (N : ~ In j seen) by (rewrite <- existsb_eqb; congruence).
        cbn [In]. rewrite IH. cbn [In].
        destruct (Nat.eq_dec j k) as [->|D]; [tauto|]. tauto.
    + apply Nat.ltb_ge in L. rewrite IH. cbn [In].
      split; [tauto|]. intros (? & [->|?] & ?); [lia | tauto].
Qed.

Lemma NoDup_started (schedule : list (nat * Z)) (n : nat) (seen : list nat) :
  NoDup (started schedule n seen).
Proof.
  revert seen. induction schedule as [|[j now] rest IH]; intros seen; cbn [started fst].
  - constructor.
  - destruct ((j <? n)%nat && negb (existsb (Nat.eqb j) seen))%bool; [|apply IH].
    constructor; [|apply IH]. rewrite In_started. cbn [In]. tauto.
Qed.

(** A list without repetition that holds the numbers below [n] and no other
    has [n] elements. *)
Lemma NoDup_below_length (l : list nat) (n : nat) :
  NoDup l -> (forall k, In k l <-> (k < n)%nat) -> List.length l = n.
Proof.
  intros D H.
  assert (A : (List.length l <= List.length (seq 0 n))%nat).
  { apply NoDup_incl_length; [trivial|].
    intros k I. apply in_seq. apply H in I. lia. }
  assert (B : (List.length (seq 0 n) <= List.length l)%nat).
  { apply NoDup_incl_length; [apply seq_NoDup|].
    intros k I. apply in_seq in I. apply H. lia. }
  rewrite length_seq in A, B. lia.
Qed.

Section Engine.
Variable SHA256 : string -> string.

Notation run := (EventLoop.run SHA256).
Notation step := (EventLoop.step SHA256).

(** ** One turn *)


Lemma resume_not_pending (self : Blockchain.t) (c : Call) :
  (forall d, c <> Pending d) -> forall d, resume self c <> Pending d.
Proof.
  intros H d. destruct c as [d'|p v n l|o]; cbn [resume].
  - now destruct (H d').
  - destruct (index v n); discriminate.
  - discriminate.
Qed.

Lemma step_started (datas : list json) (seen : list nat) (w : World) (turn : nat * Z) :
  consistent datas seen w ->
  ((fst turn <? List.length datas)%nat && negb (existsb (Nat.eqb (fst turn)) seen))%bool = true ->
  ledger (step w turn)
  = Blockchain.mk
      (Blockchain.chain (ledger w)
       ++ [appended SHA256 (snd turn) (Block.constructor (nth (fst turn) datas JNull)) (ledger w)])
      (Blockchain.height (ledger w) + 1)
  /\ consistent datas (fst turn :: seen) (step w turn).
Proof.
  intros [L C] H. apply andb_prop in H as [B S]. apply Nat.ltb_lt in B.
  pose proof (C _ B) as Ck. apply negb_true_iff in S. rewrite S in Ck.
  unfold EventLoop.step. rewrite Ck. cbn [start ledger calls]. split; [reflexivity|].
  split; [cbn [calls]; now rewrite length_set_item|].
  intros k K. cbn [calls existsb].
  destruct (Nat.eqb_spec k (fst turn)) as [->|D]; cbn [orb].
  - rewrite index_set_item_same by lia. eexists. split; [reflexivity | discriminate].
  - rewrite index_set_item_other by congruence. now apply C.
Qed.

Lemma step_resumed (datas : list json) (seen : list nat) (w : World) (turn : nat * Z) :
  consistent datas seen w ->
  ((fst turn <? List.length datas)%nat && negb (existsb (Nat.eqb (fst turn)) seen))%bool = false ->
  ledger (step w turn) = ledger w /\ consistent datas seen (step w turn).
Proof.
  intros [L C] H. unfold EventLoop.step.
  destruct (index (calls w) (fst turn)) as [c|] eqn:E; [|now split].
  assert (B : (fst turn < List.length datas)%nat).
  { rewrite <- L. now apply index_lt in E. }
  apply Nat.ltb_lt in B as B'. rewrite B' in H. cbn [andb] in H.
  apply negb_false_iff in H. apply Nat.ltb_lt in B'.
  pose proof (C _ B) as Ck. rewrite H in Ck. destruct Ck as (c' & E' & NP).
  rewrite E in E'. injection E' as <-.
  destruct c as [d|p v n l|o]; [now destruct (NP d)| |];
    (cbn [ledger calls]; split; [reflexivity|];
     split; [cbn [calls]; now rewrite length_set_item|];
     intros k K; cbn [calls]; destruct (Nat.eq_dec (fst turn) k) as [<-|D];
     [ rewrite H, index_set_item_same by lia; eexists; split; [reflexivity|];
       apply resume_not_pending; exact NP
     | rewrite index_set_item_other by trivial; now apply C ]).
Qed.

(** ** A schedule *)

(** After any schedule, the ledger is one that successive appends build,
    and its new blocks carry the payloads of the calls made, one block per
    call, in the order of their first segments. *)
Lemma run_serialized (datas : list json) (schedule : list (nat * Z)) :
  forall (seen : list nat) (w : World),
    consistent datas seen w ->
    reachable SHA256 (ledger w) ->
    reachable SHA256 (ledger (run schedule w))
    /\ map Block.body (Blockchain.chain (ledger (run schedule w)))
       = (map Block.body (Blockchain.chain (ledger w))
          ++ map (fun k => Block.encode (nth k datas JNull))
                 (started schedule (List.length datas) seen))%list.
Proof.
  induction schedule as [|turn rest IH]; intros seen w C R; cbn [EventLoop.run fold_left started].
  - split; [exact R | now rewrite app_nil_r].
  - change (fold_left step rest (step w turn)) with (run rest (step w turn)).
    destruct ((fst turn <? List.length datas)%nat
              && negb (existsb (Nat.eqb (fst turn)) seen))%bool eqn:S.
    + destruct (step_started datas seen w turn C S) as [E C'].
      assert (R' : reachable SHA256 (ledger (step w turn))).
      { rewrite E. eapply reachable_append; [exact R|].
        apply _addBlock_clean; [now apply reachable_clean | reflexivity]. }
      destruct (IH _ _ C' R') as [R'' B]. split; [exact R''|].
      rewrite B, E. cbn [Blockchain.chain map]. rewrite map_app. cbn [map].
      rewrite appended_body, <- List.app_assoc. reflexivity.
    + destruct (step_resumed datas seen w turn C S) as [E C'].
      assert (R' : reachable SHA256 (ledger (step w turn))) by now rewrite E.
      destruct (IH _ _ C' R') as [R'' B]. split; [exact R''|].
      now rewrite B, E.
Qed.

Lemma consistent_initial (self : Blockchain.t) (datas : list json) :
  consistent datas [] (mkWorld self (map Pending datas)).
Proof.
  split; cbn [calls]; [apply length_map|].
  intros k K. cbn [existsb]. unfold index.
  rewrite nth_error_map, (nth_error_nth' datas JNull K). reflexivity.
Qed.

(** ** Heights and links of a reachable ledger *)

Lemma heights_NoDup (self : Blockchain.t) :
  well_formed self -> NoDup (map Block.height (Blockchain.chain self)).
Proof.
  intros [Hh _ _ _]. apply NoDup_nth_error. intros i j Hi E.
  rewrite length_map in Hi. rewrite !nth_error_map in E.
  destruct (nth_error (Blockchain.chain self) i) as [bi|] eqn:Ei;
    [|apply nth_error_None in Ei; lia].
  destruct (nth_error (Blockchain.chain self) j) as [bj|] eqn:Ej; [|discriminate].
  cbn in E. injection E as E.
  rewrite (Hh i bi Ei), (Hh j bj Ej) in E. lia.
Qed.

Lemma links_NoDup (self : Blockchain.t) :
  reachable SHA256 self ->
  collision_free SHA256 (map text (Blockchain.chain self)) ->
  NoDup (map Block.previousBlockHash (Blockchain.chain self)).
Proof.
  intros R CF.
  pose proof (reachable_well_formed SHA256 self R) as [Hh Hg Hl _].
  pose proof (reachable_clean SHA256 self R) as C.
  assert (V : forall i b, index (Blockchain.chain self) i = Some b ->
                Block.hash b = Some (SHA256 (text b)) /\ wf (Block.time b)).
  { intros i b Hb. split.
    - pose proof (proj1 (validateChain_nil_iff SHA256 self) C i b Hb) as N.
      apply (check_block_nil_iff SHA256) in N as [V _].
      unfold Block.validate in V. destruct (Block.hash b); [|discriminate].
      apply String.eqb_eq in V. now rewrite V.
    - destruct (reachable_blocks SHA256 self R b (nth_error_In _ _ Hb))
        as (now & data & prior & ->). reflexivity. }
  apply NoDup_nth_error. intros i j Hi E.
  rewrite length_map in Hi. rewrite !nth_error_map in E.
  destruct (nth_error (Blockchain.chain self) i) as [bi|] eqn:Ei;
    [|apply nth_error_None in Ei; lia].
  destruct (nth_error (Blockchain.chain self) j) as [bj|] eqn:Ej; [|discriminate].
  cbn in E. injection E as E.
  destruct i as [|i], j as [|j]; trivial.
  - exfalso. rewrite (Hg bi Ei) in E.
    destruct (nth_error (Blockchain.chain self) j) as [p|] eqn:Ep.
    + rewrite (Hl j bj p Ej Ep), (proj1 (V j p Ep)) in E. discriminate.
    + apply nth_error_None in Ep. apply index_lt in Ej. lia.
  - exfalso. rewrite (Hg bj Ej) in E.
    destruct (nth_error (Blockchain.chain self) i) as [p|] eqn:Ep.
    + rewrite (Hl i bi p Ei Ep), (proj1 (V i p Ep)) in E. discriminate.
    + apply nth_error_None in Ep. apply index_lt in Ei. lia.
  - destruct (nth_error (Blockchain.chain self) i) as [p|] eqn:Ep;
      [|apply nth_error_None in Ep; apply index_lt in Ei; lia].
    destruct (nth_error (Blockchain.chain self) j) as [q|] eqn:Eq;
      [|apply nth_error_None in Eq; apply index_lt in Ej; lia].
    rewrite (Hl i bi p Ei Ep), (Hl j bj q Ej Eq) in E.
    rewrite (proj1 (V i p Ep)), (proj1 (V j q Eq)) in E. injection E as E.
    apply CF in E.
    2,3: apply in_map; eapply nth_error_In; eassumption.
    apply text_inj in E as (E & _); [| apply (V j q Eq) | apply (V i p Ep)].
    rewrite (Hh i p Ep), (Hh j q Eq) in E. f_equal. lia.
Qed.

End Engine.
End EventLoopFacts.

Module AloneFacts.
Import JS JSON Normal Ledger ChainFacts EventLoop EventLoopFacts.

Section Engine.
Variable SHA256 : string -> string.

Lemma skipn_index {A} (l : list A) (i : nat) (x : A) (r : list A) :
  skipn i l = x :: r -> index l i = Some x /\ skipn (S i) l = r.
Proof.
  revert i. induction l as [|y l IH]; intros [|i] H; simpl in *; try discriminate.
  - injection H as -> ->. now split.
  - now apply IH.
Qed.

(** The callback adds to the log what check_block finds for the block. *)
Lemma callback_check_block (self : Blockchain.t) (i : nat) (b : Block.t)
  (log : list ChainError) :
  index (Blockchain.chain self) i = Some b ->
  callback self i (Block.validate SHA256 b) log
  = (log ++ Blockchain.check_block SHA256 self i b)%list.
Proof. intros H. unfold callback, Blockchain.check_block. now rewrite H. Qed.

Lemma resume_n_callbacks (self : Blockchain.t) (pushed : Block.t) (rest : list Block.t) :
  forall (i : nat) (log : list ChainError),
    skipn i (Blockchain.chain self) = rest ->
    resume_n (List.length rest) self
      (Validating pushed (map (Block.validate SHA256) (Blockchain.chain self)) i log)
    = Validating pushed (map (Block.validate SHA256) (Blockchain.chain self))
        (i + List.length rest)
        (log ++ List.concat (Blockchain.mapi_from i (Blockchain.check_block SHA256 self) rest)).
Proof.
  induction rest as [|b rest IH]; intros i log H; cbn [List.length resume_n].
  - cbn. now rewrite Nat.add_0_r, app_nil_r.
  - apply skipn_index in H as [Hb Hr].
    cbn [resume]. unfold index at 1. rewrite nth_error_map.
    change (nth_error (Blockchain.chain self) i) with (index (Blockchain.chain self) i).
    rewrite Hb. cbn [option_map].
    rewrite (callback_check_block self i b log Hb), (IH (S i) _ Hr).
    cbn [Blockchain.mapi_from List.concat]. rewrite <- List.app_assoc.
    now replace (S i + List.length rest)%nat with (i + S (List.length rest))%nat by lia.
Qed.

(** A call that runs alone, its first segment followed by all its later
    turns, settles as _addBlock does and leaves the ledger that _addBlock
    leaves. *)
Lemma alone_agrees (now : Z) (data : json) (self : Blockchain.t) :
  let (c, self') := start SHA256 now data self in
  resume_n (S (List.length (Blockchain.chain self'))) self' c
  = Settled (fst (Blockchain._addBlock SHA256 now (Block.constructor data) self))
  /\ self' = snd (Blockchain._addBlock SHA256 now (Block.constructor data) self).
Proof.
  unfold start. rewrite (_addBlock_state SHA256). split; [|reflexivity].
  set (self' := Blockchain.mk _ _).
  replace (S (List.length (Blockchain.chain self')))
    with (List.length (Blockchain.chain self') + 1)%nat by lia.
  assert (N : forall n m c, resume_n (n + m) self' c = resume_n m self' (resume_n n self' c)).
  { induction n as [|n IHn]; intros m c; [reflexivity|]. cbn [Nat.add resume_n]. apply IHn. }
  rewrite N, (resume_n_callbacks self' _ (Blockchain.chain self') 0 []) by reflexivity.
  cbn [resume_n resume app Nat.add].
  unfold index. rewrite (proj2 (nth_error_None _ _)) by (rewrite length_map; lia).
  rewrite (_addBlock_eq SHA256). cbv zeta. fold self'.
  change (List.concat (Blockchain.mapi_from 0 (Blockchain.check_block SHA256 self')
                         (Blockchain.chain self')))
    with (Blockchain.validateChain SHA256 self').
  now destruct (0 <? List.length (Blockchain.validateChain SHA256 self'))%nat.
Qed.

End Engine.
End AloneFacts.

Module SettleFacts.
Import JS JSON Normal Ledger ChainFacts EventLoop EventLoopFacts.

Section Engine.
Variable SHA256 : string -> string.

Notation sound := (EventLoop.sound SHA256).

Lemma Forall_set_item {A} (P : A -> Prop) (i : nat) (x : A) (l : list A) :
  Forall P l -> P x -> Forall P (set_item i x l).
Proof.
  intros H Px. revert i. induction H as [|y l Py Hl IH]; intros [|i]; simpl;
    constructor; auto.
Qed.

Lemma sound_call_grow (self : Blockchain.t) (b : Block.t) (h : Z) (c : Call) :
  sound_call self c ->
  sound_call (Blockchain.mk (Blockchain.chain self ++ [b]) h) c.
Proof.
  destruct c as [d|p v n l|o]; cbn [sound_call Blockchain.chain]; trivial.
  - intros (L & V & B & I). rewrite length_app. repeat split; trivial; [lia|].
    apply in_or_app. now left.
  - intros (x & E & I). exists x. split; [trivial|]. apply in_or_app. now left.
Qed.

Lemma callback_clean (self : Blockchain.t) (i : nat) :
  reachable SHA256 self -> callback self i true [] = [].
Proof.
  intros R. unfold callback.
  destruct (index (Blockchain.chain self) i) as [b|] eqn:Hb; [|reflexivity].
  cbn [negb app]. destruct i as [|i]; [reflexivity|].
  cbn [Nat.ltb Nat.leb andb]. replace (S i - 1)%nat with i by lia.
  destruct (index (Blockchain.chain self) i) as [p|] eqn:Hp.
  - pose proof (reachable_well_formed SHA256 self R) as [_ _ Hl _].
    rewrite (Hl i b p Hb Hp).
    now rewrite (proj2 (nullable_eqb_eq (Block.hash p) (Block.hash p)) eq_refl).
  - apply index_lt in Hb. apply nth_error_None in Hp. lia.
Qed.

Lemma sound_resume (self : Blockchain.t) (c : Call) :
  reachable SHA256 self -> sound_call self c -> sound_call self (resume self c).
Proof.
  intros R. destruct c as [d|p v n l|o]; cbn [resume]; trivial.
  intros (-> & V & B & I).
  destruct (index v n) as [isValid|] eqn:E.
  - assert (isValid = true).
    { rewrite Forall_forall in V. symmetry. apply V. eapply nth_error_In. exact E. }
    subst isValid. cbn [sound_call]. rewrite (callback_clean self n R). now repeat split.
  - cbn [sound_call List.length Nat.ltb Nat.leb]. now exists p.
Qed.

Lemma sound_step (w : World) (turn : nat * Z) : sound w -> sound (step SHA256 w turn).
Proof.
  intros [R C]. unfold step.
  destruct (index (calls w) (fst turn)) as [c|] eqn:E; [|now split].
  assert (Sc : sound_call (ledger w) c).
  { rewrite Forall_forall in C. apply C. eapply nth_error_In. exact E. }
  destruct c as [d|p v n l|o].
  - cbn [start]. set (b := appended SHA256 (snd turn) (Block.constructor d) (ledger w)).
    set (self' := Blockchain.mk _ _).
    assert (R' : reachable SHA256 self').
    { eapply reachable_append; [exact R|].
      apply _addBlock_clean; [now apply reachable_clean | reflexivity]. }
    split; [exact R'|]. cbn [ledger calls]. apply Forall_set_item.
    + eapply Forall_impl; [|exact C]. intros c. apply sound_call_grow.
    + cbn [sound_call]. split; [reflexivity|]. split; [|split].
      * apply Forall_forall. intros x I. apply in_map_iff in I as (y & <- & I).
        symmetry. apply In_nth_error in I as [i I].
        pose proof (proj1 (validateChain_nil_iff SHA256 self')
                      (reachable_clean SHA256 self' R') i y I) as N.
        now apply (check_block_nil_iff SHA256) in N as [V _].
      * now rewrite length_map.
      * subst self'. cbn [Blockchain.chain]. apply in_or_app. right. now left.
  - split; [exact R|]. cbn [ledger calls]. apply Forall_set_item; [exact C|].
    now apply sound_resume.
  - split; [exact R|]. cbn [ledger calls]. apply Forall_set_item; [exact C|]. exact Sc.
Qed.

Lemma sound_run (schedule : list (nat * Z)) (w : World) :
  sound w -> sound (run SHA256 schedule w).
Proof.
  revert w. induction schedule as [|turn rest IH]; intros w S; [exact S|].
  cbn [run fold_left]. apply IH. now apply sound_step.
Qed.

(** On a ledger built by successive appends, no interleaving makes a call
    fail: a call that has settled resolved with the block it pushed. *)
Lemma settled_resolved (self : Blockchain.t) (datas : list json)
  (schedule : list (nat * Z)) (k : nat) (outcome : Promise Block.t) :
  reachable SHA256 self ->
  index (calls (run SHA256 schedule (mkWorld self (map Pending datas)))) k
  = Some (Settled outcome) ->
  exists b, outcome = Resolved b
            /\ In b (Blockchain.chain
                       (ledger (run SHA256 schedule (mkWorld self (map Pending datas))))).
Proof.
  intros R E.
  assert (S : sound (mkWorld self (map Pending datas))).
  { split; [exact R|]. cbn [calls]. apply Forall_forall.
    intros c I. apply in_map_iff in I as (d & <- & _). constructor. }
  apply (sound_run schedule) in S as [_ C].
  rewrite Forall_forall in C. apply (C (Settled outcome)). eapply nth_error_In. exact E.
Qed.

End Engine.
End SettleFacts.

Module ConcurrencyClaims.
Import JS JSON Normal Ledger ChainFacts EventLoop EventLoopFacts.

Section Engine.
Variable SHA256 : string -> string.

(** C9. Concurrent append serialization: let any number of calls of
    _addBlock on newly constructed blocks run concurrently on a ledger built
    by genesis initialization and successful appends, their segments
    interleaved in any order.  The segment that reads the tail, links,
    hashes and pushes runs without interruption, so the ledger that results
    is one that successive appends build: every call made has pushed one
    block, the new blocks carry the payloads of the calls in the order of
    their first segments, and when all N calls were made the chain is N
    blocks longer.  The height of every block is its index, so heights are
    consecutive and no two blocks have the same height; and no two blocks
    have the same previousBlockHash, provided the digests of the blocks do
    not collide.  No call fails: one that has settled resolved with its
    block. *)
Theorem concurrent_appends_serialized (self : Blockchain.t) (datas : list json)
  (schedule : list (nat * Z)) :
  reachable SHA256 self ->
  let w := EventLoop.run SHA256 schedule (mkWorld self (map Pending datas)) in
  let order := started schedule (List.length datas) [] in
  NoDup order
  /\ (forall k, In k order <-> (k < List.length datas)%nat /\ In k (map fst schedule))
  /\ reachable SHA256 (ledger w)
  /\ map Block.body (Blockchain.chain (ledger w))
     = (map Block.body (Blockchain.chain self)
        ++ map (fun k => Block.encode (nth k datas JNull)) order)%list
  /\ ((forall k, (k < List.length datas)%nat -> In k (map fst schedule)) ->
      List.length (Blockchain.chain (ledger w))
      = (List.length (Blockchain.chain self) + List.length datas)%nat)
  /\ (forall i b, index (Blockchain.chain (ledger w)) i = Some b ->
        Block.height b = Z.of_nat i)
  /\ NoDup (map Block.height (Blockchain.chain (ledger w)))
  /\ (collision_free SHA256 (map text (Blockchain.chain (ledger w))) ->
      NoDup (map Block.previousBlockHash (Blockchain.chain (ledger w))))
  /\ (forall k outcome, index (calls w) k = Some (Settled outcome) ->
        exists b, outcome = Resolved b /\ In b (Blockchain.chain (ledger w))).
Proof.
  intros R w order.
  destruct (run_serialized SHA256 datas schedule [] _
              (consistent_initial self datas) R) as [R' B].
  fold w in R', B. fold order in B.
  assert (M : forall k, In k order <-> (k < List.length datas)%nat /\ In k (map fst schedule)).
  { intros k. unfold order. rewrite In_started. cbn [In]. tauto. }
  pose proof (reachable_well_formed SHA256 _ R') as W.
  split; [apply NoDup_started|]. split; [exact M|]. split; [exact R'|].
  split; [exact B|]. split; [|split; [|split; [|split]]].
  - intros All. apply (f_equal (@List.length _)) in B.
    rewrite length_app, !length_map in B. rewrite B. f_equal.
    apply NoDup_below_length; [apply NoDup_started|].
    intros k. rewrite M. split; [tauto|]. intros K. split; [trivial | now apply All].
  - apply W.
  - now apply heights_NoDup.
  - now apply links_NoDup.
  - intros k outcome E. now apply (SettleFacts.settled_resolved SHA256 self datas schedule k).
Qed.

End Engine.

(** C9 on two calls whose first segments both run before any callback: the
    chain of three blocks has the heights 0, 1 and 2 and three different
    previousBlockHash values, the digests being computed by SHA-256. *)
Lemma concurrent_appends_serialized_witness :
  map Block.height
    (Blockchain.chain (ledger (EventLoop.run CryptoJS.SHA256 Sample.interleaved Sample.two_calls)))
  = [0; 1; 2]
  /\ List.length
       (Blockchain.chain (ledger (EventLoop.run CryptoJS.SHA256 Sample.interleaved Sample.two_calls)))
     = 3%nat
  /\ NoDup (map Block.previousBlockHash
              (Blockchain.chain
                 (ledger (EventLoop.run CryptoJS.SHA256 Sample.interleaved Sample.two_calls)))).
Proof.
  destruct (concurrent_appends_serialized CryptoJS.SHA256 Sample.genesis_ledger
              [payload ("1FzpnkhCmUacDqkfhbLBhnQj8nXQ2ch2Ni", Sample.star);
               payload ("1BoatSLRHtKNngkdXEeobR76b53LETtpyT", Sample.star_accent)]
              Sample.interleaved SampleFacts.genesis_reachable)
    as (_ & _ & _ & _ & L & _ & _ & P & _).
  split; [vm_compute; reflexivity|]. split.
  - apply L. intros k K. cbn in K.
    destruct k as [|[|k]]; [vm_compute; tauto | vm_compute; tauto | lia].
  - apply P. intros x y Hx Hy C.
    vm_compute in Hx. vm_compute in Hy.
    destruct Hx as [<-|[<-|[<-|[]]]]; destruct Hy as [<-|[<-|[<-|[]]]];
      try reflexivity; vm_compute in C; discriminate C.
Defined.

End ConcurrencyClaims.

Module CryptoFacts.

(** The digests of the empty text and of abc, as FIPS 180-4 lists them. *)
Example SHA256_empty :
  CryptoJS.SHA256 EmptyString
  = "e3b0c44298fc1c149afbf4c8996fb92427ae41e4649b934ca495991b7852b855".
Proof. vm_compute. reflexivity. Qed.

Example SHA256_abc :
  CryptoJS.SHA256 "abc"
  = "ba7816bf8f01cfea414140de5dae2223b00361a396177a9cb410ff61f20015ad".
Proof. vm_compute. reflexivity. Qed.

(** The hash of the genesis block of the sample ledger. *)
Example genesis_hash :
  Block.hash Sample.genesis_block
  = Some "9a4f845453542c9d50bf0910b289f19d43082b3844fb85276104eda8818467d1".
Proof. vm_compute. reflexivity. Qed.

End CryptoFacts.

Module MoreProperties.
Import JS JSON Normal Ledger ChainFacts CodecFacts.

(** The codec on every value: decoding the body of a newly constructed block
    gives the data as JSON.parse rebuilds it, each of its strings read byte
    by byte from its UTF-8 form. *)
Theorem codec_characterized (data : json) :
  Block.decode (Block.body (Block.constructor data))
  = Some (normalize (mojibake_json data)).
Proof. apply decode_encode. Qed.



(** getBData rejects on a block of height 0, whatever its body. *)
Theorem getBData_genesis (b : Block.t) :
  Block.height b = 0 ->
  Block.getBData b = Rejected (Message "Genesis block has no transaction data").
Proof. intros H. unfold Block.getBData. now rewrite H. Qed.

Lemma getBData_genesis_witness :
  Block.getBData Sample.genesis_block
  = Rejected (Message "Genesis block has no transaction data").
Proof. apply (getBData_genesis Sample.genesis_block). reflexivity. Defined.

Section Engine.
Variable SHA256 : string -> string.

(** On a reachable ledger every append of a newly constructed block
    resolves, with the block pushed, and leaves a reachable ledger one block
    longer. *)
Theorem append_resolves (self : Blockchain.t) (now : Z) (data : json) :
  reachable SHA256 self ->
  exists b self',
    Blockchain._addBlock SHA256 now (Block.constructor data) self = (Resolved b, self')
    /\ Blockchain.chain self' = (Blockchain.chain self ++ [b])%list
    /\ Block.body b = Block.encode data
    /\ reachable SHA256 self'.
Proof.
  intros R.
  pose proof (_addBlock_clean SHA256 now (Block.constructor data) self
                (reachable_clean SHA256 self R) eq_refl) as E.
  eexists _, _. split; [exact E|]. split; [reflexivity|].
  split; [apply appended_body|]. eapply reachable_append; eassumption.
Qed.

(** validateChain returns the empty log exactly when every block passes
    validate() and every block but the first carries the hash of the block
    before it; and every entry of the log carries the index of a block of the
    chain. *)
Theorem validateChain_sound_complete (self : Blockchain.t) :
  (Blockchain.validateChain SHA256 self = [] <->
   forall i b, index (Blockchain.chain self) i = Some b ->
     Block.validate SHA256 b = true
     /\ ((0 < i)%nat -> exists p, index (Blockchain.chain self) (i - 1) = Some p
                                  /\ Block.previousBlockHash b = Block.hash p))
  /\ (forall e, In e (Blockchain.validateChain SHA256 self) ->
        (block e < List.length (Blockchain.chain self))%nat).
Proof.
  split.
  - rewrite validateChain_nil_iff. split; intros H i b Hb.
    + now apply (check_block_nil_iff SHA256), H.
    + now apply (check_block_nil_iff SHA256), H.
  - intros e I. apply In_validateChain in I as (b & Hb & _). now apply index_lt in Hb.
Qed.

Lemma find_by_height (l : list Block.t) :
  forall (k i : nat) (b : Block.t),
    (forall j x, index l j = Some x -> Block.height x = Z.of_nat (k + j)) ->
    index l i = Some b ->
    find (fun p => Block.height p =? Z.of_nat (k + i)) l = Some b.
Proof.
  induction l as [|x l IH]; intros k i b H Hb; [destruct i; discriminate|].
  cbn [find]. destruct i as [|i].
  - injection Hb as ->. rewrite (H 0%nat b eq_refl), Z.eqb_refl. reflexivity.
  - rewrite (H 0%nat x eq_refl).
    destruct (Z.eqb_spec (Z.of_nat (k + 0)) (Z.of_nat (k + S i))) as [E|_]; [lia|].
    replace (k + S i)%nat with (S k + i)%nat by lia. apply IH; [|exact Hb].
    intros j y Hy. rewrite (H (S j) y Hy). f_equal. lia.
Qed.

(** getBlockByHeight on a reachable ledger: the block at the index equal to
    the height, null for a height that is not below the length of the
    chain. *)
Theorem getBlockByHeight_index (self : Blockchain.t) (i : nat) :
  reachable SHA256 self ->
  Blockchain.getBlockByHeight (Z.of_nat i) self = index (Blockchain.chain self) i.
Proof.
  intros R. pose proof (reachable_well_formed SHA256 self R) as [Hh _ _ _].
  unfold Blockchain.getBlockByHeight.
  destruct (index (Blockchain.chain self) i) as [b|] eqn:E.
  - apply (find_by_height _ 0 i b); trivial.
  - destruct (find _ _) as [x|] eqn:F; [|reflexivity].
    apply find_some in F as [I F]. apply In_nth_error in I as [j I].
    apply Z.eqb_eq in F. rewrite (Hh j x I) in F.
    assert (j = i) by lia. subst j. unfold index in E. congruence.
Qed.

End Engine.

Lemma append_resolves_witness :
  exists b self',
    Blockchain._addBlock CryptoJS.SHA256 Sample.t2 (Block.constructor Sample.star_accent)
      Sample.ledger1 = (Resolved b, self')
    /\ Blockchain.chain self' = (Blockchain.chain Sample.ledger1 ++ [b])%list
    /\ Block.body b = Block.encode Sample.star_accent
    /\ reachable CryptoJS.SHA256 self'.
Proof.
  exact (append_resolves CryptoJS.SHA256 Sample.ledger1 Sample.t2 Sample.star_accent
           SampleFacts.ledger1_reachable).
Defined.

Lemma getBlockByHeight_index_witness :
  Blockchain.getBlockByHeight 1 Sample.ledger1 = index (Blockchain.chain Sample.ledger1) 1.
Proof.
  exact (getBlockByHeight_index CryptoJS.SHA256 Sample.ledger1 1
           SampleFacts.ledger1_reachable).
Defined.

End MoreProperties.

Module ExampleFacts.
Import JS JSON Normal Ledger ChainFacts.

Lemma genesis_chain :
  Blockchain.chain Sample.genesis_ledger = [Sample.genesis_block].
Proof. vm_compute. reflexivity. Qed.

Lemma sample_chain :
  Blockchain.chain Sample.ledger1 = [Sample.genesis_block; Examples.block1].
Proof. vm_compute. reflexivity. Qed.

Lemma sample_submit :
  Blockchain.submitStar CryptoJS.SHA256 Sample.verify Sample.t1 Sample.t1
    Examples.address Sample.challenge "valid" Sample.star Sample.genesis_ledger
  = (Resolved Examples.block1, Sample.ledger1).
Proof. vm_compute. reflexivity. Qed.

Lemma sample_built :
  built CryptoJS.SHA256 Sample.verify [(Examples.address, Sample.star)] Sample.ledger1.
Proof.
  exact (built_submit CryptoJS.SHA256 Sample.verify [] Sample.genesis_ledger
           Sample.t1 Sample.t1 Examples.address Sample.challenge "valid" Sample.star
           Examples.block1 Sample.ledger1
           (built_genesis CryptoJS.SHA256 Sample.verify Sample.t0) sample_submit).
Qed.

(** The digests of the two blocks of the sample ledger differ. *)
Lemma sample_collision_free :
  collision_free CryptoJS.SHA256 (map text (Blockchain.chain Sample.ledger1)).
Proof.
  rewrite sample_chain. intros x y Hx Hy C.
  destruct Hx as [<-|[<-|[]]]; destruct Hy as [<-|[<-|[]]];
    try reflexivity; vm_compute in C; discriminate C.
Qed.

(** The text of the genesis block of the new sample ledger is a text of the
    sample ledger after one submission. *)
Lemma sample_texts (x : string) :
  In x (map text (Blockchain.chain Sample.genesis_ledger)
        ++ map text (Blockchain.chain Sample.ledger1))%list ->
  In x (map text (Blockchain.chain Sample.ledger1)).
Proof.
  rewrite genesis_chain, sample_chain. cbn [map app].
  intros [<-|H]; [left; reflexivity | exact H].
Qed.

End ExampleFacts.

Module LedgerFacts.
Import JS JSON Normal Ledger ChainFacts TamperFacts.

Lemma find_first {A} (p : A -> bool) (l : list A) (i : nat) (x : A) :
  index l i = Some x -> p x = true ->
  (forall j y, (j < i)%nat -> index l j = Some y -> p y = false) ->
  find p l = Some x.
Proof.
  revert i. induction l as [|a l IH]; intros [|i] E P F; try discriminate.
  - cbn in E. injection E as ->. cbn. now rewrite P.
  - cbn [find]. rewrite (F 0%nat a) by (trivial; lia).
    apply (IH i); trivial. intros j y L Hy. apply (F (S j) y); [lia | exact Hy].
Qed.

Section Engine.
Variable SHA256 : string -> string.
Variable verify : string -> string -> string -> Completion bool.

(** Every block of a reachable ledger passes validate(). *)
Lemma reachable_valid (self : Blockchain.t) (i : nat) (b : Block.t) :
  reachable SHA256 self -> index (Blockchain.chain self) i = Some b ->
  Block.validate SHA256 b = true.
Proof.
  intros R Hb. pose proof (reachable_clean SHA256 self R) as C.
  pose proof (proj1 (validateChain_nil_iff SHA256 self) C i b Hb) as N.
  now apply (check_block_nil_iff SHA256) in N as [V _].
Qed.

(** Every block of a reachable ledger carries the hash of its text, and a
    time that is a string. *)
Lemma reachable_sealed (self : Blockchain.t) (i : nat) (b : Block.t) :
  reachable SHA256 self -> index (Blockchain.chain self) i = Some b ->
  Block.hash b = Some (SHA256 (text b)) /\ wf (Block.time b).
Proof.
  intros R Hb. split.
  - pose proof (reachable_valid self i b R Hb) as V.
    unfold Block.validate in V. destruct (Block.hash b); [|discriminate].
    apply String.eqb_eq in V. now rewrite V.
  - destruct (reachable_blocks SHA256 self R b (nth_error_In _ _ Hb))
      as (now & data & prior & ->). reflexivity.
Qed.

(** A reachable ledger holds the genesis block at least. *)
Lemma reachable_nonempty (self : Blockchain.t) :
  reachable SHA256 self -> (0 < List.length (Blockchain.chain self))%nat.
Proof.
  induction 1 as [now | self now data b self' R IH E].
  - rewrite (constructor_eq SHA256). cbn. lia.
  - apply (_addBlock_resolved SHA256) in E as (_ & -> & _).
    cbn [Blockchain.chain]. rewrite length_app. lia.
Qed.

(** The body of every block of a reachable ledger is the encoding of a
    value. *)
Lemma reachable_body (self : Blockchain.t) (b : Block.t) :
  reachable SHA256 self -> In b (Blockchain.chain self) ->
  exists data, Block.body b = Block.encode data.
Proof.
  intros R I. destruct (reachable_blocks SHA256 self R b I) as (now & data & prior & ->).
  exists data. now rewrite appended_body.
Qed.

(** On a collision-free reachable ledger two blocks with the same hash are
    at the same index. *)
Lemma hash_index (self : Blockchain.t) (i j : nat) (b c : Block.t) :
  reachable SHA256 self ->
  collision_free SHA256 (map text (Blockchain.chain self)) ->
  index (Blockchain.chain self) i = Some b ->
  index (Blockchain.chain self) j = Some c ->
  Block.hash b = Block.hash c -> i = j.
Proof.
  intros R CF Hb Hc E.
  pose proof (reachable_well_formed SHA256 self R) as [Hh _ _ _].
  destruct (reachable_sealed self i b R Hb) as [Sb Wb].
  destruct (reachable_sealed self j c R Hc) as [Sc Wc].
  rewrite Sb, Sc in E. injection E as E. apply CF in E.
  2,3: apply in_map; eapply nth_error_In; eassumption.
  apply text_inj in E as (E & _); trivial.
  rewrite (Hh i b Hb), (Hh j c Hc) in E. lia.
Qed.

(** ** Lookups *)

Lemma getBlockByHash_sound (self : Blockchain.t) (hash : string) (b : Block.t) :
  Blockchain.getBlockByHash hash self = Some b ->
  In b (Blockchain.chain self) /\ Block.hash b = Some hash.
Proof.
  intros F. apply find_some in F as [I E]. split; [trivial|].
  now apply nullable_eqb_eq in E.
Qed.

Lemma getBlockByHash_none (self : Blockchain.t) (hash : string) :
  Blockchain.getBlockByHash hash self = None <->
  forall b, In b (Blockchain.chain self) -> Block.hash b <> Some hash.
Proof.
  unfold Blockchain.getBlockByHash. split.
  - intros F b I E. apply (find_none _ _ F) in I.
    apply (proj2 (nullable_eqb_eq _ _)) in E. congruence.
  - intros H. destruct (find _ _) as [b|] eqn:F; [|reflexivity].
    apply find_some in F as [I E]. apply nullable_eqb_eq in E. now apply H in I.
Qed.

Lemma getBlockByHash_own (self : Blockchain.t) (i : nat) (b : Block.t) :
  reachable SHA256 self ->
  collision_free SHA256 (map text (Blockchain.chain self)) ->
  index (Blockchain.chain self) i = Some b ->
  Blockchain.getBlockByHash (SHA256 (text b)) self = Some b.
Proof.
  intros R CF Hb. destruct (reachable_sealed self i b R Hb) as [S _].
  apply (find_first _ _ i); trivial.
  - now apply nullable_eqb_eq.
  - intros j c L Hc. destruct (Blockchain.nullable_eqb _ _) eqn:E; [|reflexivity].
    apply nullable_eqb_eq in E. rewrite <- S in E.
    pose proof (hash_index self j i c b R CF Hc Hb E). lia.
Qed.

(** getBlockByHeight on a reachable ledger: the block at the index equal to
    the height; null for a negative height and for one that is not below the
    length of the chain. *)
Lemma getBlockByHeight_reachable (self : Blockchain.t) (h : Z) :
  reachable SHA256 self ->
  Blockchain.getBlockByHeight h self
  = if 0 <=? h then index (Blockchain.chain self) (Z.to_nat h) else None.
Proof.
  intros R. pose proof (reachable_well_formed SHA256 self R) as [Hh _ _ _].
  unfold Blockchain.getBlockByHeight.
  assert (N : forall x, find (fun p => Block.height p =? h) (Blockchain.chain self) = Some x ->
                index (Blockchain.chain self) (Z.to_nat h) = Some x /\ 0 <= h).
  { intros x F. apply find_some in F as [I F]. apply In_nth_error in I as [j I].
    apply Z.eqb_eq in F. rewrite (Hh j x I) in F. subst h.
    rewrite Nat2Z.id. split; [exact I | lia]. }
  destruct (Z.leb_spec 0 h) as [P|P].
  - destruct (index (Blockchain.chain self) (Z.to_nat h)) as [b|] eqn:E.
    + apply (find_first _ _ (Z.to_nat h)); trivial.
      * rewrite (Hh _ b E). apply Z.eqb_eq. lia.
      * intros j c L Hc. rewrite (Hh j c Hc). apply Z.eqb_neq. lia.
    + destruct (find _ _) as [x|] eqn:F; [|reflexivity].
      destruct (N x eq_refl) as [C _]. congruence.
  - destruct (find _ _) as [x|] eqn:F; [|reflexivity].
    destruct (N x eq_refl) as [_ C]. lia.
Qed.

(** A ledger built by the engine holds the genesis block and one block for
    each submission; its height is the number of submissions. *)
Lemma built_length (hist : list (string * json)) (self : Blockchain.t) :
  built SHA256 verify hist self ->
  List.length (Blockchain.chain self) = S (List.length hist)
  /\ Blockchain.height self = Z.of_nat (List.length hist).
Proof.
  intros B.
  pose proof (QueryFacts.built_bodies SHA256 verify hist self B) as Bd.
  pose proof (QueryFacts.built_reachable SHA256 verify hist self B) as R.
  pose proof (reachable_well_formed SHA256 self R) as [_ _ _ Hc].
  assert (L : List.length (Blockchain.chain self) = S (List.length hist)).
  { apply (f_equal (@List.length _)) in Bd. rewrite length_map in Bd.
    cbn [List.length] in Bd. now rewrite length_map in Bd. }
  split; [exact L | lia].
Qed.

End Engine.
End LedgerFacts.

Module LookupProperties.
Import JS JSON Normal Ledger ChainFacts TamperFacts LedgerFacts.

Section Engine.
Variable SHA256 : string -> string.
Variable verify : string -> string -> string -> Completion bool.

(** getBlockByHash on a ledger built by genesis initialization and
    successful appends.  A block it returns is a block of the chain that
    carries the hash asked for; it returns null exactly when no block of the
    chain carries that hash; and when the digests of the blocks do not
    collide, every block of the chain is the one returned for its own
    hash. *)
Theorem getBlockByHash_finds (self : Blockchain.t) :
  reachable SHA256 self ->
  (forall hash b, Blockchain.getBlockByHash hash self = Some b ->
     In b (Blockchain.chain self) /\ Block.hash b = Some hash)
  /\ (forall hash, Blockchain.getBlockByHash hash self = None <->
        forall b, In b (Blockchain.chain self) -> Block.hash b <> Some hash)
  /\ (collision_free SHA256 (map text (Blockchain.chain self)) ->
      forall i b, index (Blockchain.chain self) i = Some b ->
        Blockchain.getBlockByHash (SHA256 (text b)) self = Some b
        /\ Block.hash b = Some (SHA256 (text b))).
Proof.
  intros R. split; [|split].
  - intros hash b. apply getBlockByHash_sound.
  - intros hash. apply getBlockByHash_none.
  - intros CF i b Hb. split.
    + now apply (getBlockByHash_own SHA256 self i).
    + now apply (reachable_sealed SHA256 self i).
Qed.

(** The height of a ledger built by the engine is the number of
    submissions accepted so far; the chain holds one block more, the genesis
    block, and the block that getBlockByHeight returns for the height of the
    chain is its last block. *)
Theorem getChainHeight_counts (hist : list (string * json)) (self : Blockchain.t) :
  built SHA256 verify hist self ->
  Blockchain.getChainHeight self = Z.of_nat (List.length hist)
  /\ List.length (Blockchain.chain self) = S (List.length hist)
  /\ exists b, index (Blockchain.chain self) (List.length hist) = Some b
               /\ Blockchain.getBlockByHeight (Blockchain.getChainHeight self) self = Some b.
Proof.
  intros B. destruct (built_length SHA256 verify hist self B) as [L H].
  pose proof (QueryFacts.built_reachable SHA256 verify hist self B) as R.
  split; [exact H|]. split; [exact L|].
  unfold Blockchain.getChainHeight.
  rewrite (getBlockByHeight_reachable SHA256 self _ R), H, Nat2Z.id.
  destruct (Z.leb_spec 0 (Z.of_nat (List.length hist))) as [_|C]; [|lia].
  destruct (index (Blockchain.chain self) (List.length hist)) as [b|] eqn:E.
  - now exists b.
  - apply nth_error_None in E. lia.
Qed.

(** initializeChain does nothing on a ledger that holds its genesis block:
    a second call adds no second genesis block. *)
Theorem initializeChain_once (now : Z) (self : Blockchain.t) :
  reachable SHA256 self -> Blockchain.initializeChain SHA256 now self = self.
Proof.
  intros R. pose proof (reachable_well_formed SHA256 self R) as [_ _ _ Hc].
  pose proof (reachable_nonempty SHA256 self R) as P.
  unfold Blockchain.initializeChain.
  destruct (Z.eqb_spec (Blockchain.height self) (-1)) as [E|_]; [lia | reflexivity].
Qed.

(** getBData on the blocks of a ledger built by genesis initialization and
    successful appends: it rejects on the first block, and on that one only;
    on every other block it resolves with what the codec makes of the data
    the block was constructed with. *)
Theorem getBData_outcomes (self : Blockchain.t) (i : nat) (b : Block.t) :
  reachable SHA256 self ->
  index (Blockchain.chain self) i = Some b ->
  (i = 0%nat -> Block.getBData b = Rejected (Message "Genesis block has no transaction data"))
  /\ (i <> 0%nat ->
      exists data, Block.body b = Block.encode data
                   /\ Block.getBData b = Resolved (normalize (mojibake_json data))).
Proof.
  intros R Hb. pose proof (reachable_well_formed SHA256 self R) as [Hh _ _ _].
  pose proof (Hh i b Hb) as H. unfold Block.getBData. rewrite H. split.
  - intros ->. reflexivity.
  - intros NZ. destruct (Z.eqb_spec (Z.of_nat i) 0) as [E|_]; [lia|]. cbn [negb].
    destruct (reachable_body SHA256 self b R (nth_error_In _ _ Hb)) as (data & E).
    exists data. split; [exact E|]. rewrite E.
    pose proof (CodecFacts.decode_encode data) as D. unfold Block.decode in D.
    now rewrite D.
Qed.

End Engine.

(** getBlockByHash on the sample ledger, the digests computed by SHA-256:
    the block that holds the star is the one returned for its hash. *)
Lemma getBlockByHash_finds_witness :
  Blockchain.getBlockByHash (CryptoJS.SHA256 (text Examples.block1)) Sample.ledger1
  = Some Examples.block1
  /\ Block.hash Examples.block1 = Some (CryptoJS.SHA256 (text Examples.block1)).
Proof.
  destruct (getBlockByHash_finds CryptoJS.SHA256 Sample.ledger1
              SampleFacts.ledger1_reachable) as (_ & _ & F).
  apply (F ExampleFacts.sample_collision_free 1%nat).
  rewrite ExampleFacts.sample_chain. reflexivity.
Defined.

(** The sample ledger after one submission has the height 1. *)
Lemma getChainHeight_counts_witness :
  Blockchain.getChainHeight Sample.ledger1 = 1
  /\ List.length (Blockchain.chain Sample.ledger1) = 2%nat
  /\ exists b, index (Blockchain.chain Sample.ledger1) 1 = Some b
               /\ Blockchain.getBlockByHeight (Blockchain.getChainHeight Sample.ledger1)
                    Sample.ledger1 = Some b.
Proof.
  exact (getChainHeight_counts CryptoJS.SHA256 Sample.verify
           [(Examples.address, Sample.star)] Sample.ledger1 ExampleFacts.sample_built).
Defined.

Lemma initializeChain_once_witness :
  Blockchain.initializeChain CryptoJS.SHA256 Sample.t1 Sample.genesis_ledger
  = Sample.genesis_ledger.
Proof.
  exact (initializeChain_once CryptoJS.SHA256 Sample.t1 Sample.genesis_ledger
           SampleFacts.genesis_reachable).
Defined.

(** getBData on the two blocks of the sample ledger. *)
Lemma getBData_outcomes_witness :
  Block.getBData Sample.genesis_block
  = Rejected (Message "Genesis block has no transaction data")
  /\ exists data, Block.body Examples.block1 = Block.encode data
                  /\ Block.getBData Examples.block1
                     = Resolved (normalize (mojibake_json data)).
Proof.
  split.
  - destruct (getBData_outcomes CryptoJS.SHA256 Sample.ledger1 0 Sample.genesis_block
                SampleFacts.ledger1_reachable) as [G _].
    + rewrite ExampleFacts.sample_chain. reflexivity.
    + now apply G.
  - destruct (getBData_outcomes CryptoJS.SHA256 Sample.ledger1 1 Examples.block1
                SampleFacts.ledger1_reachable) as [_ N].
    + rewrite ExampleFacts.sample_chain. reflexivity.
    + apply N. discriminate.
Defined.

End LookupProperties.

Module SubmissionFacts.
Import JS JSON Normal Ledger ChainFacts CodecFacts TimeFacts QueryFacts LedgerFacts.

Lemma defined_app {A} (l l' : list (option A)) :
  Blockchain.defined (l ++ l')%list = (Blockchain.defined l ++ Blockchain.defined l')%list.
Proof.
  induction l as [|[x|] l IH]; cbn [Blockchain.defined app]; [reflexivity | | exact IH].
  now rewrite IH.
Qed.

Lemma or_not_found_app (l : list json) (x : json) :
  Spec.or_not_found (l ++ [x])%list = Some (l ++ [x])%list.
Proof. destruct l; reflexivity. Qed.

Lemma truthy_string_iff (s : string) : truthy_string s = true <-> s <> EmptyString.
Proof. destruct s; cbn; split; congruence. Qed.

(** The star that the callback returns for a submission in ASCII. *)
Lemma star_for_own (address : string) (star : json) :
  address <> EmptyString -> is_ascii address = true ->
  wf star -> all_ascii star = true ->
  star_for address (address, star) = Some star.
Proof.
  intros NE A W S. unfold star_for. cbn [fst snd].
  rewrite (mojibake_ascii address A), (mojibake_json_ascii star S), W.
  rewrite String.eqb_refl, (proj2 (truthy_string_iff address) NE). reflexivity.
Qed.

Lemma star_for_other (address other : string) (star : json) :
  is_ascii address = true -> other <> address ->
  star_for other (address, star) = None.
Proof.
  intros A NE. unfold star_for. cbn [fst snd]. rewrite (mojibake_ascii address A).
  destruct (String.eqb_spec address other) as [E|_]; [congruence|].
  now rewrite andb_false_r.
Qed.

(** getBData on a block that is not at height 0 and whose body decodes. *)
Lemma getBData_decoded (b : Block.t) (decoded : json) :
  Block.height b <> 0 -> Block.decode (Block.body b) = Some decoded ->
  Block.getBData b = Resolved decoded.
Proof.
  intros H D. unfold Block.getBData. unfold Block.decode in D.
  destruct (Z.eqb_spec (Block.height b) 0) as [E|_]; [contradiction|].
  cbn [negb]. now rewrite D.
Qed.

(** getBData on the block of a submission in ASCII, pushed on a chain that
    holds the genesis block. *)
Lemma getBData_payload (SHA256 : string -> string) (now : Z) (address : string)
  (star : json) (self : Blockchain.t) :
  (0 < List.length (Blockchain.chain self))%nat ->
  is_ascii address = true -> wf star -> all_ascii star = true ->
  Block.getBData (appended SHA256 now (Block.constructor (payload (address, star))) self)
  = Resolved (payload (address, star)).
Proof.
  intros P A W S. apply getBData_decoded.
  - rewrite appended_height. lia.
  - rewrite appended_body.
    change (Block.body (Block.constructor (payload (address, star))))
      with (Block.encode (payload (address, star))).
    rewrite decode_payload.
    now rewrite (mojibake_ascii address A), (mojibake_json_ascii star S), W.
Qed.

Section Engine.
Variable SHA256 : string -> string.
Variable verify : string -> string -> string -> Completion bool.

(** The submissions that submitStar resolves. *)
Lemma submitStar_resolved now now' address message signature star self b self' :
  Blockchain.submitStar SHA256 verify now now' address message signature star self
  = (Resolved b, self') ->
  isFresh message now = true
  /\ verify message address signature = Returns true
  /\ Blockchain._addBlock SHA256 now' (Block.constructor (payload (address, star))) self
     = (Resolved b, self').
Proof.
  rewrite (submitStar_eq SHA256 verify). intros E.
  destruct (isFresh message now); [|discriminate].
  destruct (verify message address signature) as [[]|]; try discriminate.
  repeat split. exact E.
Qed.

(** A submission that submitStar rejects on a reachable ledger leaves the
    ledger as it was, and is not rejected with an error log. *)
Lemma submitStar_rejected now now' address message signature star self e self' :
  reachable SHA256 self ->
  Blockchain.submitStar SHA256 verify now now' address message signature star self
  = (Rejected e, self') ->
  self' = self /\ forall log, e <> ErrorLog log.
Proof.
  intros R E. rewrite (submitStar_eq SHA256 verify) in E.
  destruct (isFresh message now); [destruct (verify message address signature) as [[]|what]|].
  - rewrite (_addBlock_clean SHA256) in E;
      [discriminate | now apply reachable_clean | reflexivity].
  - injection E as <- <-. split; [reflexivity | discriminate].
  - injection E as <- <-. split; [reflexivity | discriminate].
  - injection E as <- <-. split; [reflexivity | discriminate].
Qed.

End Engine.
End SubmissionFacts.

Module SubmissionProperties.
Import JS JSON Normal Ledger ChainFacts CodecFacts TimeFacts QueryFacts.
Import LedgerFacts SubmissionFacts.

Section Engine.
Variable SHA256 : string -> string.
Variable verify : string -> string -> string -> Completion bool.

Notation submitStar := (Blockchain.submitStar SHA256 verify).
Notation chain := Blockchain.chain.

(** An accepted submission.  On a ledger built by genesis initialization
    and successful appends, submitStar with a message that passes the
    freshness check and a signature that the verifier accepts resolves with
    a new block and leaves the chain longer by that block and by nothing
    else.  The block has the length of the old chain as its height, the
    encoding of the owner and the star as its body, the clock in seconds as
    its time, the hash of the block before it as its previousBlockHash, and
    a hash that validate() confirms.  The message is used for the two checks
    and for nothing else. *)
Theorem submitStar_accepted (now now' : Z) (address message signature : string)
  (star : json) (self : Blockchain.t) :
  reachable SHA256 self ->
  isFresh message now = true ->
  verify message address signature = Returns true ->
  exists b,
    submitStar now now' address message signature star self
    = (Resolved b, Blockchain.mk (chain self ++ [b]) (Blockchain.height self + 1))
    /\ Block.height b = Z.of_nat (List.length (chain self))
    /\ Block.body b = Block.encode (payload (address, star))
    /\ Block.time b = JStr (Blockchain.seconds_text now')
    /\ (1000 <= now' -> Block.time b = JStr (Number_toString (now' / 1000)))
    /\ (exists p, index (chain self) (List.length (chain self) - 1) = Some p
                  /\ Block.previousBlockHash b = Block.hash p)
    /\ Block.validate SHA256 b = true
    /\ reachable SHA256 (Blockchain.mk (chain self ++ [b]) (Blockchain.height self + 1)).
Proof.
  intros R F V.
  pose proof (_addBlock_clean SHA256 now' (Block.constructor (payload (address, star))) self
                (reachable_clean SHA256 self R) eq_refl) as E.
  exists (appended SHA256 now' (Block.constructor (payload (address, star))) self).
  split. { rewrite (submitStar_eq SHA256 verify), F, V. exact E. }
  split; [apply appended_height|]. split; [apply appended_body|].
  split; [apply appended_time|].
  split. { intros L. rewrite appended_time. now rewrite seconds_text_eq. }
  split.
  { pose proof (reachable_nonempty SHA256 self R) as P.
    destruct (index (chain self) (List.length (chain self) - 1)) as [p|] eqn:Ep.
    - exists p. split; [reflexivity|].
      apply appended_link with (i := (List.length (chain self) - 1)%nat); [trivial | lia].
    - apply nth_error_None in Ep. lia. }
  split; [now apply appended_valid|].
  eapply reachable_append; eassumption.
Qed.

(** A star, once accepted, is found.  On a ledger built by the engine, take
    a submission that submitStar resolves, with an address that is not
    empty, the address and the star in ASCII.  Then getBData on the block
    resolves with the owner and the star as submitted; the block is the one
    getBlockByHeight returns for its height; getStarsByWalletAddress for
    the address resolves with the stars it resolved with before, followed by
    the new star; and for every other address it resolves as before. *)
Theorem accepted_star_is_found (hist : list (string * json)) (self : Blockchain.t)
  (now now' : Z) (address message signature : string) (star : json)
  (b : Block.t) (self' : Blockchain.t) :
  built SHA256 verify hist self ->
  submitStar now now' address message signature star self = (Resolved b, self') ->
  address <> EmptyString -> is_ascii address = true ->
  wf star -> all_ascii star = true ->
  Block.getBData b = Resolved (payload (address, star))
  /\ Blockchain.getBlockByHeight (Block.height b) self' = Some b
  /\ (forall before,
        Blockchain.getStarsByWalletAddress address self = Resolved before ->
        Blockchain.getStarsByWalletAddress address self'
        = Resolved (Some (match before with Some l => l | None => [] end ++ [star])%list))
  /\ (forall other, other <> address ->
        Blockchain.getStarsByWalletAddress other self'
        = Blockchain.getStarsByWalletAddress other self).
Proof.
  intros B E NE A W S.
  assert (B' : built SHA256 verify (hist ++ [(address, star)]) self')
    by (eapply built_submit; eassumption).
  pose proof (built_reachable SHA256 verify _ _ B) as R.
  pose proof (built_reachable SHA256 verify _ _ B') as R'.
  apply (submitStar_resolved SHA256 verify) in E as (_ & _ & E).
  apply (_addBlock_resolved SHA256) in E as (-> & -> & _).
  split; [|split; [|split]].
  - apply (getBData_payload SHA256 now' address star self); trivial.
    apply (reachable_nonempty SHA256 self R).
  - pose proof (reachable_well_formed SHA256 _ R') as [Hh _ _ _].
    unfold Blockchain.getBlockByHeight. cbn [chain].
    apply (find_first _ _ (List.length (chain self))).
    + apply index_app_new.
    + apply Z.eqb_refl.
    + intros j c L Hc. rewrite (Hh j c Hc). rewrite appended_height.
      apply Z.eqb_neq. lia.
  - intros before Q.
    rewrite (getStars_built SHA256 verify address _ _ B) in Q. injection Q as <-.
    rewrite (getStars_built SHA256 verify address _ _ B').
    rewrite map_app, defined_app. cbn [map].
    rewrite (star_for_own address star NE A W S). cbn [Blockchain.defined].
    rewrite or_not_found_app.
    now destruct (Blockchain.defined (map (star_for address) hist)).
  - intros other O.
    rewrite (getStars_built SHA256 verify other _ _ B).
    rewrite (getStars_built SHA256 verify other _ _ B').
    rewrite map_app, defined_app. cbn [map].
    rewrite (star_for_other address other star A O). cbn [Blockchain.defined].
    now rewrite app_nil_r.
Qed.

(** A rejected submission changes nothing.  On a ledger built by genesis
    initialization and successful appends, a submission that submitStar
    rejects leaves the ledger as it was, and the rejection is one of three:
    the error for an expired message, when the freshness check fails; the
    error for a failed verification, when the verifier returns false; or what
    the verifier threw.  It is never the error log of validateChain. *)
Theorem rejected_submission_changes_nothing (now now' : Z)
  (address message signature : string) (star : json)
  (self : Blockchain.t) (e : Reason) (self' : Blockchain.t) :
  reachable SHA256 self ->
  submitStar now now' address message signature star self = (Rejected e, self') ->
  self' = self
  /\ (e = Error "Message signature has expired." /\ isFresh message now = false
      \/ e = Error "Signature verification failed."
         /\ isFresh message now = true
         /\ verify message address signature = Returns false
      \/ exists what, e = Thrown what
                      /\ isFresh message now = true
                      /\ verify message address signature = Throws what).
Proof.
  intros R E. rewrite (submitStar_eq SHA256 verify) in E.
  destruct (isFresh message now).
  - destruct (verify message address signature) as [[]|what].
    + rewrite (_addBlock_clean SHA256) in E;
        [discriminate | now apply reachable_clean | reflexivity].
    + injection E as <- <-. split; [reflexivity|]. right. left. now repeat split.
    + injection E as <- <-. split; [reflexivity|]. right. right. exists what. now repeat split.
  - injection E as <- <-. split; [reflexivity|]. left. now split.
Qed.

(** A ledger that holds an invalid block accepts nothing any more, and
    stores everything.  When validateChain has something to report on a
    ledger, every _addBlock on it rejects, with a log that starts with that
    report, and yet pushes the block and increments the height; the report on
    the ledger it leaves starts with the same entries, so the next call
    fares the same.  A submission that passes the checks of submitStar is
    rejected in this way, with its block stored. *)
Theorem invalid_ledger_rejects_and_stores (self : Blockchain.t) :
  Blockchain.validateChain SHA256 self <> [] ->
  (forall now b, exists log,
     Blockchain._addBlock SHA256 now b self
     = (Rejected (ErrorLog (Blockchain.validateChain SHA256 self ++ log)),
        Blockchain.mk (chain self ++ [appended SHA256 now b self])
                      (Blockchain.height self + 1))
     /\ Blockchain.validateChain SHA256
          (Blockchain.mk (chain self ++ [appended SHA256 now b self])
                         (Blockchain.height self + 1))
        = (Blockchain.validateChain SHA256 self ++ log)%list)
  /\ (forall now now' address message signature star,
        isFresh message now = true ->
        verify message address signature = Returns true ->
        exists b log,
          submitStar now now' address message signature star self
          = (Rejected (ErrorLog (Blockchain.validateChain SHA256 self ++ log)),
             Blockchain.mk (chain self ++ [b]) (Blockchain.height self + 1))
          /\ Block.body b = Block.encode (payload (address, star))).
Proof.
  intros N.
  assert (A : forall now b, exists log,
     Blockchain._addBlock SHA256 now b self
     = (Rejected (ErrorLog (Blockchain.validateChain SHA256 self ++ log)),
        Blockchain.mk (chain self ++ [appended SHA256 now b self])
                      (Blockchain.height self + 1))
     /\ Blockchain.validateChain SHA256
          (Blockchain.mk (chain self ++ [appended SHA256 now b self])
                         (Blockchain.height self + 1))
        = (Blockchain.validateChain SHA256 self ++ log)%list).
  { intros now b. rewrite (_addBlock_eq SHA256). cbv zeta.
    rewrite (validateChain_push SHA256). cbv zeta.
    eexists. split; [|reflexivity].
    destruct (Blockchain.validateChain SHA256 self) as [|e l]; [congruence|].
    reflexivity. }
  split; [exact A|].
  intros now now' address message signature star F V.
  destruct (A now' (Block.constructor (payload (address, star)))) as (log & E & _).
  eexists _, log. rewrite (submitStar_eq SHA256 verify), F, V.
  split; [exact E | apply appended_body].
Qed.

(** The window of a challenge.  A challenge is not used up by a
    submission: on a ledger built by genesis initialization and successful
    appends, two submissions that carry the same message and the same
    signature, each made while the message passes the freshness check, are
    both accepted, and the chain grows by their two blocks, in order.  And
    expiry is final: once the clock reads a second or more, a message that
    fails the freshness check fails it at every later time, so that submitStar
    rejects it as expired from then on. *)
Theorem challenge_window (address message signature : string) (self : Blockchain.t) :
  reachable SHA256 self ->
  verify message address signature = Returns true ->
  (forall now1 now1' now2 now2' star1 star2,
     isFresh message now1 = true -> isFresh message now2 = true ->
     exists b1 b2,
       submitStar now1 now1' address message signature star1 self
       = (Resolved b1, Blockchain.mk (chain self ++ [b1]) (Blockchain.height self + 1))
       /\ submitStar now2 now2' address message signature star2
            (Blockchain.mk (chain self ++ [b1]) (Blockchain.height self + 1))
          = (Resolved b2,
             Blockchain.mk ((chain self ++ [b1]) ++ [b2]) (Blockchain.height self + 1 + 1))
       /\ Block.body b1 = Block.encode (payload (address, star1))
       /\ Block.body b2 = Block.encode (payload (address, star2)))
  /\ (forall now now' later star,
        1000 <= now -> now <= later -> isFresh message now = false ->
        isFresh message later = false
        /\ submitStar later now' address message signature star self
           = (Rejected (Error "Message signature has expired."), self)).
Proof.
  intros R V. split.
  - intros now1 now1' now2 now2' star1 star2 F1 F2.
    pose proof (_addBlock_clean SHA256 now1' (Block.constructor (payload (address, star1)))
                  self (reachable_clean SHA256 self R) eq_refl) as E1.
    set (b1 := appended SHA256 now1' (Block.constructor (payload (address, star1))) self) in *.
    set (self1 := Blockchain.mk (chain self ++ [b1]) (Blockchain.height self + 1)) in *.
    assert (R1 : reachable SHA256 self1) by (eapply reachable_append; eassumption).
    pose proof (_addBlock_clean SHA256 now2' (Block.constructor (payload (address, star2)))
                  self1 (reachable_clean SHA256 self1 R1) eq_refl) as E2.
    exists b1, (appended SHA256 now2' (Block.constructor (payload (address, star2))) self1).
    rewrite !(submitStar_eq SHA256 verify), F1, F2, V.
    split; [exact E1|]. split; [exact E2|]. split; apply appended_body.
  - intros now now' later star L Le F.
    assert (F' : isFresh message later = false).
    { destruct (isFresh message later) eqn:E; [|reflexivity].
      apply isFresh_iff in E as (t & P & B); [|lia].
      assert (C : isFresh message now = true).
      { apply isFresh_iff; [trivial|]. exists t. split; [exact P|].
        assert (now / 1000 <= later / 1000) by (apply Z.div_le_mono; lia). lia. }
      congruence. }
    split; [exact F'|]. now rewrite (submitStar_eq SHA256 verify), F'.
Qed.

End Engine.

(** The sample submission: the challenge issued at [t0], submitted 100
    seconds later with the signature that the stub accepts. *)
Lemma submitStar_accepted_witness :
  exists b,
    Blockchain.submitStar CryptoJS.SHA256 Sample.verify Sample.t1 Sample.t2
      Examples.address Sample.challenge "valid" Sample.star Sample.genesis_ledger
    = (Resolved b,
       Blockchain.mk (Blockchain.chain Sample.genesis_ledger ++ [b])
         (Blockchain.height Sample.genesis_ledger + 1))
    /\ Block.height b = 1
    /\ Block.body b = Block.encode (payload (Examples.address, Sample.star))
    /\ Block.time b = JStr "1700000200"
    /\ Block.validate CryptoJS.SHA256 b = true.
Proof.
  destruct (submitStar_accepted CryptoJS.SHA256 Sample.verify Sample.t1 Sample.t2
              Examples.address Sample.challenge "valid" Sample.star Sample.genesis_ledger)
    as (b & E & H & Bd & _ & T & _ & V & _).
  - exact SampleFacts.genesis_reachable.
  - vm_compute. reflexivity.
  - reflexivity.
  - exists b. split; [exact E|]. split; [exact H|]. split; [exact Bd|].
    split; [|exact V]. apply T. now apply Z.leb_le.
Defined.

(** The star of the sample submission is found afterwards. *)
Lemma accepted_star_is_found_witness :
  Block.getBData Examples.block1 = Resolved (payload (Examples.address, Sample.star))
  /\ Blockchain.getBlockByHeight (Block.height Examples.block1) Sample.ledger1
     = Some Examples.block1
  /\ Blockchain.getStarsByWalletAddress Examples.address Sample.ledger1
     = Resolved (Some [Sample.star]).
Proof.
  destruct (accepted_star_is_found CryptoJS.SHA256 Sample.verify [] Sample.genesis_ledger
              Sample.t1 Sample.t1 Examples.address Sample.challenge "valid" Sample.star
              Examples.block1 Sample.ledger1) as (D & H & Q & _).
  - apply built_genesis.
  - exact ExampleFacts.sample_submit.
  - discriminate.
  - reflexivity.
  - reflexivity.
  - reflexivity.
  - split; [exact D|]. split; [exact H|]. apply (Q None). vm_compute. reflexivity.
Defined.

(** A submission with a signature that the stub refuses. *)
Lemma rejected_submission_changes_nothing_witness :
  Sample.genesis_ledger = Sample.genesis_ledger
  /\ (Error "Signature verification failed." = Error "Message signature has expired."
      /\ isFresh Sample.challenge Sample.t1 = false
      \/ Error "Signature verification failed." = Error "Signature verification failed."
         /\ isFresh Sample.challenge Sample.t1 = true
         /\ Sample.verify Sample.challenge Examples.address "forged" = Returns false
      \/ exists what, Error "Signature verification failed." = Thrown what
                      /\ isFresh Sample.challenge Sample.t1 = true
                      /\ Sample.verify Sample.challenge Examples.address "forged"
                         = Throws what).
Proof.
  apply (rejected_submission_changes_nothing CryptoJS.SHA256 Sample.verify
           Sample.t1 Sample.t1 Examples.address Sample.challenge "forged" Sample.star
           Sample.genesis_ledger).
  - exact SampleFacts.genesis_reachable.
  - vm_compute. reflexivity.
Defined.

(** The sample ledger with its genesis block rewritten rejects an append
    and stores the block. *)
Lemma invalid_ledger_rejects_and_stores_witness :
  exists log,
    Blockchain._addBlock CryptoJS.SHA256 Sample.t1 (Block.constructor Sample.star)
      Sample.tampered_ledger
    = (Rejected (ErrorLog (Blockchain.validateChain CryptoJS.SHA256 Sample.tampered_ledger
                           ++ log)),
       Blockchain.mk
         (Blockchain.chain Sample.tampered_ledger
          ++ [appended CryptoJS.SHA256 Sample.t1 (Block.constructor Sample.star)
                Sample.tampered_ledger])
         (Blockchain.height Sample.tampered_ledger + 1)).
Proof.
  destruct (invalid_ledger_rejects_and_stores CryptoJS.SHA256 Sample.verify
              Sample.tampered_ledger) as [A _].
  - vm_compute. discriminate.
  - destruct (A Sample.t1 (Block.constructor Sample.star)) as (log & E & _).
    exists log. exact E.
Defined.

(** The sample challenge, issued at [t0], carries two submissions, 100 and
    200 seconds later. *)
Lemma challenge_window_witness :
  exists b1 b2,
    Blockchain.submitStar CryptoJS.SHA256 Sample.verify Sample.t1 Sample.t1
      Examples.address Sample.challenge "valid" Sample.star Sample.genesis_ledger
    = (Resolved b1,
       Blockchain.mk (Blockchain.chain Sample.genesis_ledger ++ [b1])
         (Blockchain.height Sample.genesis_ledger + 1))
    /\ Blockchain.submitStar CryptoJS.SHA256 Sample.verify Sample.t2 Sample.t2
         Examples.address Sample.challenge "valid" Sample.star_accent
         (Blockchain.mk (Blockchain.chain Sample.genesis_ledger ++ [b1])
            (Blockchain.height Sample.genesis_ledger + 1))
       = (Resolved b2,
          Blockchain.mk ((Blockchain.chain Sample.genesis_ledger ++ [b1]) ++ [b2])
            (Blockchain.height Sample.genesis_ledger + 1 + 1))
    /\ Block.body b1 = Block.encode (payload (Examples.address, Sample.star))
    /\ Block.body b2 = Block.encode (payload (Examples.address, Sample.star_accent)).
Proof.
  destruct (challenge_window CryptoJS.SHA256 Sample.verify Examples.address
              Sample.challenge "valid" Sample.genesis_ledger) as [Reuse _].
  - exact SampleFacts.genesis_reachable.
  - reflexivity.
  - apply (Reuse Sample.t1 Sample.t1 Sample.t2 Sample.t2 Sample.star Sample.star_accent).
    + vm_compute. reflexivity.
    + vm_compute. reflexivity.
Defined.

End SubmissionProperties.

Module ValidationFacts.
Import JS JSON Normal Ledger ChainFacts TamperFacts LedgerFacts.

Lemma StronglySorted_app {A} (R : A -> A -> Prop) (l l' : list A) :
  StronglySorted R l -> StronglySorted R l' ->
  (forall x y, In x l -> In y l' -> R x y) ->
  StronglySorted R (l ++ l')%list.
Proof.
  induction 1 as [|a l S IH F]; intros S' H; cbn [app]; [exact S'|].
  constructor.
  - apply IH; [exact S'|]. intros x y Ix Iy. apply H; [now right | exact Iy].
  - apply Forall_app. split; [exact F|].
    apply Forall_forall. intros y Iy. apply H; [now left | exact Iy].
Qed.

Lemma index_mutate_other (i j : nat) (b' : Block.t) (l : list Block.t) :
  j <> i -> index (mutate i b' l) j = index l j.
Proof.
  revert i j. induction l as [|x l IH]; intros [|i] [|j] H; cbn; try reflexivity; try lia.
  apply IH. lia.
Qed.

Lemma length_mutate (i : nat) (b' : Block.t) (l : list Block.t) :
  List.length (mutate i b' l) = List.length l.
Proof.
  revert i. induction l as [|x l IH]; intros [|i]; cbn; try reflexivity.
  now rewrite IH.
Qed.

Lemma firstn_snoc {A} (l : list A) (i : nat) (x : A) :
  index l i = Some x -> firstn (S i) l = (firstn i l ++ [x])%list.
Proof.
  revert i. induction l as [|a l IH]; intros [|i] E; try discriminate.
  - cbn in E. injection E as ->. reflexivity.
  - cbn [firstn app]. f_equal. now apply IH.
Qed.

Section Engine.
Variable SHA256 : string -> string.

Notation check_block := (Blockchain.check_block SHA256).
Notation validateChain := (Blockchain.validateChain SHA256).
Notation chain := Blockchain.chain.

(** The entries of one block. *)
Lemma In_check_block (self : Blockchain.t) (i : nat) (b : Block.t) (e : ChainError) :
  In e (check_block self i b) <->
  e = mkChainError i "Block validation failed" /\ Block.validate SHA256 b = false
  \/ e = mkChainError i "Previous block hash mismatch" /\ (0 < i)%nat
     /\ forall p, index (chain self) (i - 1) = Some p ->
                  Block.previousBlockHash b <> Block.hash p.
Proof.
  unfold Blockchain.check_block. rewrite in_app_iff.
  assert (L : In e (if negb (Block.validate SHA256 b)
                    then [mkChainError i "Block validation failed"] else [])
              <-> e = mkChainError i "Block validation failed"
                  /\ Block.validate SHA256 b = false).
  { destruct (Block.validate SHA256 b); cbn.
    - split; [tauto | intros [_ H]; discriminate].
    - split; [intros [<-|[]]; now split | intros [-> _]; now left]. }
  rewrite L. apply or_iff_compat_l.
  destruct (Nat.ltb_spec 0 i) as [P|P]; cbn [andb].
  - destruct (index (chain self) (i - 1)) as [p|].
    + destruct (Blockchain.nullable_eqb _ _) eqn:E; cbn [negb].
      * apply nullable_eqb_eq in E. split; [intros []|].
        intros (_ & _ & H). now apply (H p).
      * split.
        -- intros [<-|[]]. repeat split; trivial. intros p' [= <-] C.
           apply (proj2 (nullable_eqb_eq _ _)) in C. congruence.
        -- intros (-> & _). now left.
    + split.
      * intros [<-|[]]. repeat split; trivial. intros p' C. discriminate.
      * intros (-> & _). now left.
  - split; [intros [] | intros (_ & Q & _); lia].
Qed.

Lemma check_block_sorted (self : Blockchain.t) (i : nat) (b : Block.t) :
  StronglySorted Log.precedes (check_block self i b)
  /\ Forall (fun e => block e = i) (check_block self i b).
Proof.
  unfold Blockchain.check_block.
  destruct (negb (Block.validate SHA256 b)); destruct (_ && _)%bool; cbn [app]; split;
    repeat first [apply SSorted_nil | apply Forall_nil | apply SSorted_cons
                 | apply Forall_cons | reflexivity].
  right. now repeat split.
Qed.

Lemma concat_sorted (self : Blockchain.t) (l : list Block.t) (k : nat) :
  StronglySorted Log.precedes (List.concat (Blockchain.mapi_from k (check_block self) l))
  /\ Forall (fun e => (k <= block e)%nat)
            (List.concat (Blockchain.mapi_from k (check_block self) l)).
Proof.
  revert k. induction l as [|x l IH]; intros k; cbn [Blockchain.mapi_from List.concat].
  - split; constructor.
  - destruct (IH (S k)) as [S F]. destruct (check_block_sorted self k x) as [S0 F0].
    rewrite Forall_forall in F, F0. split.
    + apply StronglySorted_app; trivial.
      intros a c Ia Ic. left. rewrite (F0 a Ia). apply (F c Ic).
    + apply Forall_app. split; apply Forall_forall; intros e I.
      * rewrite (F0 e I). lia.
      * pose proof (F e I). lia.
Qed.

(** Resealing changes the hash and nothing that validate() hashes. *)
Lemma text_reseal (b : Block.t) : text (Forgery.reseal SHA256 b) = text b.
Proof. now destruct b. Qed.

Lemma validate_reseal (b : Block.t) : Block.validate SHA256 (Forgery.reseal SHA256 b) = true.
Proof.
  unfold Block.validate. change (stringify (Block.to_json (Block.set_hash None ?x)))
    with (text x). rewrite text_reseal. cbn. apply String.eqb_refl.
Qed.

End Engine.
End ValidationFacts.

Module ValidationProperties.
Import JS JSON Normal Ledger ChainFacts TamperFacts LedgerFacts ValidationFacts.

Section Engine.
Variable SHA256 : string -> string.

Notation check_block := (Blockchain.check_block SHA256).
Notation validateChain := (Blockchain.validateChain SHA256).
Notation chain := Blockchain.chain.

(** The log of validateChain, entry by entry.  The log holds the entry
    "Block validation failed" for the index i exactly when the block at i
    fails validate(), and the entry "Previous block hash mismatch" for i
    exactly when i is not 0 and the previousBlockHash of the block at i is
    not the hash of the block at i - 1; it holds nothing else.  The entries
    come in the order of the chain, the validation failure of a block before
    its link mismatch, so that no entry comes twice. *)
Theorem validateChain_entries (self : Blockchain.t) :
  (forall e, In e (validateChain self) <->
     exists b, index (chain self) (block e) = Some b
       /\ (error e = "Block validation failed" /\ Block.validate SHA256 b = false
           \/ error e = "Previous block hash mismatch" /\ (0 < block e)%nat
              /\ exists p, index (chain self) (block e - 1) = Some p
                           /\ Block.previousBlockHash b <> Block.hash p))
  /\ StronglySorted Log.precedes (validateChain self).
Proof.
  split.
  - intros [i msg]. rewrite In_validateChain. cbn [block error]. split.
    + intros (b & Hb & I). exists b. split; [exact Hb|].
      apply In_check_block in I as [[E V]|(E & P & H)]; injection E as ->.
      * left. now split.
      * right. repeat split; trivial.
        destruct (index (chain self) (i - 1)) as [p|] eqn:Ep.
        -- exists p. split; [reflexivity|]. now apply H.
        -- apply nth_error_None in Ep. apply index_lt in Hb. lia.
    + intros (b & Hb & H). exists b. split; [exact Hb|]. apply In_check_block.
      destruct H as [[-> V]|(-> & P & p & Hp & N)].
      * left. now split.
      * right. repeat split; trivial. intros p' Hp'. congruence.
  - apply (concat_sorted SHA256 self (chain self) 0).
Qed.

(** A forgery with a recomputed hash.  Take a block stored in a ledger
    built by genesis initialization and successful appends, rewrite its
    height, time or body, and write back the hash that validate()
    recomputes.  Provided the digest of the rewritten block does not collide
    with the digest of the original, the rewritten block passes validate(),
    and validateChain reports one thing only: the link mismatch of the next
    block.  When the rewritten block is the last of the chain there is no
    next block, and validateChain reports nothing. *)
Theorem resealed_forgery_shows_at_successor (self : Blockchain.t) (i : nat)
  (b b' : Block.t) :
  reachable SHA256 self ->
  index (chain self) i = Some b ->
  Block.previousBlockHash b' = Block.previousBlockHash b ->
  Block.height b' <> Block.height b \/ Block.time b' <> Block.time b
  \/ Block.body b' <> Block.body b ->
  wf (Block.time b') ->
  no_collision SHA256 (text b') (text b) ->
  Block.validate SHA256 (Forgery.reseal SHA256 b') = true
  /\ (forall e, In e (validateChain (tamper i (Forgery.reseal SHA256 b') self)) <->
        e = mkChainError (S i) "Previous block hash mismatch"
        /\ (S i < List.length (chain self))%nat)
  /\ (S i = List.length (chain self) ->
      validateChain (tamper i (Forgery.reseal SHA256 b') self) = []).
Proof.
  intros R Hb P M W' NC.
  set (forged := Forgery.reseal SHA256 b').
  pose proof (reachable_well_formed SHA256 self R) as [Hh Hg Hl _].
  pose proof (reachable_clean SHA256 self R) as C.
  destruct (reachable_sealed SHA256 self i b R Hb) as [Sb Wb].
  pose proof (index_lt _ _ _ Hb) as Li.
  assert (Hf : index (chain (tamper i forged self)) i = Some forged)
    by now apply index_mutate.
  assert (Ho : forall j, j <> i ->
                 index (chain (tamper i forged self)) j = index (chain self) j)
    by (intros j N; now apply index_mutate_other).
  assert (D : Block.hash forged <> Block.hash b).
  { rewrite Sb. cbn. intros [= E]. apply NC in E.
    apply (text_inj b b' Wb W') in E as (? & ? & ? & ?). tauto. }
  assert (Q : forall e, In e (validateChain (tamper i forged self)) <->
                e = mkChainError (S i) "Previous block hash mismatch"
                /\ (S i < List.length (chain self))%nat).
  { intros e. rewrite In_validateChain. split.
    - intros (blk & Hblk & I).
      destruct (Nat.eq_dec (block e) i) as [Ei|Ni].
      + exfalso. rewrite Ei, Hf in Hblk. injection Hblk as <-. rewrite Ei in I.
        apply In_check_block in I as [[_ V]|(_ & Pi & H)].
        * unfold forged in V. rewrite validate_reseal in V. discriminate.
        * destruct (index (chain self) (i - 1)) as [p|] eqn:Ep.
          -- apply (H p); [rewrite Ho by lia; exact Ep|].
             change (Block.previousBlockHash forged) with (Block.previousBlockHash b').
             rewrite P. apply (Hl (i - 1)%nat); [|exact Ep].
             now replace (S (i - 1)) with i by lia.
          -- apply nth_error_None in Ep. lia.
      + rewrite (Ho _ Ni) in Hblk. apply In_check_block in I as [[_ V]|(E & Pj & H)].
        * rewrite (reachable_valid SHA256 self _ blk R Hblk) in V. discriminate.
        * destruct (Nat.eq_dec (block e) (S i)) as [Es|Ns].
          -- split; [now rewrite <- Es | apply index_lt in Hblk; lia].
          -- exfalso.
             destruct (index (chain self) (block e - 1)) as [p|] eqn:Ep.
             ++ apply (H p); [rewrite Ho by lia; exact Ep|].
                apply (Hl (block e - 1)%nat); [|exact Ep].
                now replace (S (block e - 1)) with (block e) by lia.
             ++ apply nth_error_None in Ep. apply index_lt in Hblk. lia.
    - intros [-> L]. cbn [block].
      destruct (index (chain self) (S i)) as [c|] eqn:Ec;
        [|apply nth_error_None in Ec; lia].
      exists c. split; [rewrite Ho by lia; exact Ec|].
      apply In_check_block. right. repeat split; [lia|].
      intros p Hp. replace (S i - 1)%nat with i in Hp by lia.
      rewrite Hf in Hp. injection Hp as <-.
      rewrite (Hl i c b Ec Hb). congruence. }
  split; [apply validate_reseal|]. split; [exact Q|].
  intros L. destruct (validateChain (tamper i forged self)) as [|e l] eqn:E; [reflexivity|].
  destruct (proj1 (Q e) (or_introl eq_refl)) as [_ I]. lia.
Qed.

(** validateChain looks at each block and at each link, and at nothing
    else: not at the heights, not at where the chain starts or ends.  Any
    run of consecutive blocks of a ledger built by genesis initialization
    and successful appends, taken as a chain of its own with any height
    field, validates clean; so a chain that lost blocks at its end or at its
    start is reported as valid. *)
Theorem chain_segment_validates (self : Blockchain.t)
  (before segment after : list Block.t) (h : Z) :
  reachable SHA256 self ->
  chain self = (before ++ segment ++ after)%list ->
  validateChain (Blockchain.mk segment h) = [].
Proof.
  intros R E. pose proof (reachable_well_formed SHA256 self R) as [_ _ Hl _].
  assert (I : forall i b, index segment i = Some b ->
                index (chain self) (List.length before + i) = Some b).
  { intros i b Hb. rewrite E. unfold index.
    rewrite nth_error_app2 by lia.
    replace (List.length before + i - List.length before)%nat with i by lia.
    rewrite nth_error_app1; [exact Hb | now apply index_lt in Hb]. }
  apply validateChain_nil_iff. intros i b Hb. apply check_block_nil_iff.
  cbn [Blockchain.chain] in *. split.
  - exact (reachable_valid SHA256 self _ b R (I i b Hb)).
  - intros P. destruct (index segment (i - 1)) as [p|] eqn:Ep.
    + exists p. split; [reflexivity|].
      apply (Hl (List.length before + (i - 1))%nat); [|exact (I _ p Ep)].
      replace (S (List.length before + (i - 1))) with (List.length before + i)%nat by lia.
      exact (I i b Hb).
    + apply nth_error_None in Ep. apply index_lt in Hb. lia.
Qed.

(** The hash of a block commits to the chain up to it.  When two ledgers
    built by genesis initialization and successful appends each hold a block
    with the same hash then, the digests of their blocks not colliding, the
    two blocks are at the same index and the two chains are the same up to
    that block, every field of every block. *)
Theorem hash_commits_to_history (s1 s2 : Blockchain.t) :
  reachable SHA256 s1 -> reachable SHA256 s2 ->
  collision_free SHA256 (map text (chain s1) ++ map text (chain s2)) ->
  forall (i j : nat) (b1 b2 : Block.t),
    index (chain s1) i = Some b1 -> index (chain s2) j = Some b2 ->
    Block.hash b1 = Block.hash b2 ->
    i = j /\ b1 = b2 /\ firstn (S i) (chain s1) = firstn (S j) (chain s2).
Proof.
  intros R1 R2 CF.
  pose proof (reachable_well_formed SHA256 s1 R1) as [Hh1 _ Hl1 _].
  pose proof (reachable_well_formed SHA256 s2 R2) as [Hh2 _ Hl2 _].
  induction i as [|i IH]; intros j b1 b2 E1 E2 H.
  all: destruct (reachable_sealed SHA256 s1 _ b1 R1 E1) as [S1 W1].
  all: destruct (reachable_sealed SHA256 s2 _ b2 R2 E2) as [S2 W2].
  all: assert (T : text b2 = text b1).
  1,3: (rewrite S1, S2 in H; injection H as H; symmetry; apply CF; trivial;
        apply in_or_app; [left | right]; apply in_map; eapply nth_error_In; eassumption).
  all: apply (text_inj b1 b2 W1 W2) in T as (Th & Tt & Tp & Tb).
  all: assert (B : b1 = b2)
         by (destruct b1, b2; cbn in *; subst; congruence).
  - rewrite (Hh1 _ b1 E1), (Hh2 j b2 E2) in Th.
    assert (j = 0%nat) by lia. subst j. repeat split; trivial.
    rewrite (firstn_snoc _ _ _ E1), (firstn_snoc _ _ _ E2). cbn. now rewrite B.
  - rewrite (Hh1 _ b1 E1), (Hh2 j b2 E2) in Th.
    assert (j = S i) by lia. subst j. repeat split; trivial.
    destruct (index (chain s1) i) as [p1|] eqn:P1;
      [|apply nth_error_None in P1; apply index_lt in E1; lia].
    destruct (index (chain s2) i) as [p2|] eqn:P2;
      [|apply nth_error_None in P2; apply index_lt in E2; lia].
    rewrite (Hl1 i b1 p1 E1 P1), (Hl2 i b2 p2 E2 P2) in Tp.
    destruct (IH i p1 p2 eq_refl P2 (eq_sym Tp)) as (_ & _ & F).
    rewrite (firstn_snoc _ _ _ E1), (firstn_snoc _ _ _ E2), F. now rewrite B.
Qed.

End Engine.

(** The genesis block of the sample ledger, its body rewritten and its hash
    recomputed by SHA-256: the forgery shows as the link mismatch of the
    block after it. *)
Lemma resealed_forgery_shows_at_successor_witness :
  Block.validate CryptoJS.SHA256 (Forgery.reseal CryptoJS.SHA256 Sample.forged_genesis) = true
  /\ In (mkChainError 1 "Previous block hash mismatch")
        (Blockchain.validateChain CryptoJS.SHA256
           (tamper 0 (Forgery.reseal CryptoJS.SHA256 Sample.forged_genesis) Sample.ledger1)).
Proof.
  destruct (resealed_forgery_shows_at_successor CryptoJS.SHA256 Sample.ledger1 0
              Sample.genesis_block Sample.forged_genesis) as (V & Q & _).
  - exact SampleFacts.ledger1_reachable.
  - rewrite ExampleFacts.sample_chain. reflexivity.
  - reflexivity.
  - right. right. vm_compute. discriminate.
  - reflexivity.
  - intros C. vm_compute in C. discriminate C.
  - split; [exact V|]. apply (proj2 (Q _)). split; [reflexivity|].
    rewrite ExampleFacts.sample_chain. cbn [List.length]. lia.
Defined.

(** The sample ledger without its genesis block validates clean. *)
Lemma chain_segment_validates_witness :
  Blockchain.validateChain CryptoJS.SHA256 (Blockchain.mk [Examples.block1] 0) = [].
Proof.
  apply (chain_segment_validates CryptoJS.SHA256 Sample.ledger1
           [Sample.genesis_block] [Examples.block1] [] 0).
  - exact SampleFacts.ledger1_reachable.
  - exact ExampleFacts.sample_chain.
Defined.

(** The new sample ledger and the sample ledger after one submission hold
    the same genesis block. *)
Lemma hash_commits_to_history_witness :
  0%nat = 0%nat
  /\ Sample.genesis_block = Sample.genesis_block
  /\ firstn 1 (Blockchain.chain Sample.genesis_ledger)
     = firstn 1 (Blockchain.chain Sample.ledger1).
Proof.
  apply (hash_commits_to_history CryptoJS.SHA256 Sample.genesis_ledger Sample.ledger1
           SampleFacts.genesis_reachable SampleFacts.ledger1_reachable).
  - intros x y Hx Hy. apply ExampleFacts.sample_collision_free.
    + exact (ExampleFacts.sample_texts x Hx).
    + exact (ExampleFacts.sample_texts y Hy).
  - rewrite ExampleFacts.genesis_chain. reflexivity.
  - rewrite ExampleFacts.sample_chain. reflexivity.
  - reflexivity.
Defined.

End ValidationProperties.

Module ControllerFacts.
Import JS JSON Normal Ledger ChainFacts CodecFacts TimeFacts QueryFacts.
Import LedgerFacts SubmissionFacts Controller.

Lemma Number_toString_truthy (z : Z) : truthy_string (Number_toString z) = true.
Proof.
  destruct (JSONFacts.Number_toString_start z) as (c & rest & E & _). now rewrite E.
Qed.

Lemma challenge_truthy (now : Z) (address : string) :
  truthy_string (Blockchain.requestMessageOwnershipVerification now address) = true.
Proof.
  unfold Blockchain.requestMessageOwnershipVerification. now destruct address.
Qed.

(** ** The callback of getStarsByWalletAddress on any block *)

Lemma parse_value_no_start (f : nat) (c : ascii) (r : string) :
  is_ws c = false -> value_start c = false -> parse_value f (String c r) = None.
Proof.
  intros W V. destruct f as [|f]; [reflexivity|].
  destruct c as [[] [] [] [] [] [] [] []];
    try discriminate V; try discriminate W; reflexivity.
Qed.

Lemma skip_ws_start (s : string) (c : ascii) (r : string) :
  skip_ws s = String c r -> is_ws c = false.
Proof.
  induction s as [|x s IH]; cbn [skip_ws]; [discriminate|].
  destruct (is_ws x) eqn:E; [exact IH|]. now intros [= <- <-].
Qed.

Lemma parse_value_skip_ws (f : nat) (s : string) :
  parse_value f (skip_ws s) = parse_value f s.
Proof.
  assert (I : skip_ws (skip_ws s) = skip_ws s).
  { induction s as [|x s IH]; cbn [skip_ws]; [reflexivity|].
    destruct (is_ws x) eqn:E; [exact IH|]. cbn [skip_ws]. now rewrite E. }
  destruct f as [|f]; [reflexivity|]. cbn [parse_value]. now rewrite I.
Qed.

(** JSON.parse refuses a text that starts no value. *)
Lemma not_json_parse (text : string) :
  Forgery.not_json text = true -> parse text = None.
Proof.
  unfold Forgery.not_json, parse. intros N.
  rewrite <- parse_value_skip_ws.
  destruct (skip_ws text) as [|c r] eqn:E; [reflexivity|].
  apply negb_true_iff in N.
  now rewrite (parse_value_no_start _ c r (skip_ws_start text c r E) N).
Qed.

Lemma star_of_unreadable (address : string) (b : Block.t) :
  Forgery.not_json (Hex2Ascii.hex2ascii (Block.body b)) = true
  \/ Block.decode (Block.body b) = Some JNull ->
  exists what, Blockchain.star_of address b = Throws what.
Proof.
  unfold Blockchain.star_of. intros [N|D].
  - unfold Block.decode. rewrite (not_json_parse _ N). now exists "SyntaxError".
  - rewrite D. now exists "TypeError".
Qed.

Lemma star_of_readable (address : string) (b : Block.t) (v : json) :
  Block.decode (Block.body b) = Some v -> v <> JNull ->
  exists star, Blockchain.star_of address b = Returns star.
Proof.
  unfold Blockchain.star_of. intros -> N.
  destruct v as [ | x | n | s | l | o ]; [now contradict N| | | | | ];
    cbn [Blockchain.property]; destruct (_ && _)%bool; eauto.
Qed.

Lemma map_completion_thrown {A B} (f : A -> Completion B) (l : list A) (x : A) (w : string) :
  In x l -> f x = Throws w -> exists what, Blockchain.map_completion f l = Throws what.
Proof.
  induction l as [|a l IH]; intros I F; [destruct I|].
  cbn [Blockchain.map_completion]. destruct (f a) as [y|w'] eqn:E; [|now exists w'].
  destruct I as [->|I]; [congruence|].
  destruct (IH I F) as (what & ->). now exists what.
Qed.

Lemma map_completion_returns {A B} (f : A -> Completion B) (l : list A) :
  (forall x, In x l -> exists y, f x = Returns y) ->
  exists ys, Blockchain.map_completion f l = Returns ys.
Proof.
  induction l as [|a l IH]; intros H; [now exists []|].
  cbn [Blockchain.map_completion].
  destruct (H a (or_introl eq_refl)) as (y & ->).
  destruct IH as (ys & ->); [intros x I; apply H; now right|]. eauto.
Qed.

Section Engine.
Variable SHA256 : string -> string.
Variable verify : string -> string -> string -> Completion bool.

Notation chain := Blockchain.chain.

(** One request on a ledger built by the engine. *)
Lemma handle_built (hist : list (string * json)) (self : Blockchain.t) (request : Request) :
  built SHA256 verify hist self ->
  built SHA256 verify
    (hist ++ submission request (fst (handle SHA256 verify request self)))
    (snd (handle SHA256 verify request self))
  /\ sound_response (fst (handle SHA256 verify request self)).
Proof.
  intros B. pose proof (built_reachable SHA256 verify hist self B) as R.
  destruct request as [height | now address | now now' body | hash | address | ];
    cbn [handle fst snd submission]; rewrite ?app_nil_r.
  - split; [exact B|]. unfold getBlockByHeight.
    destruct (truthy_string height); [|repeat split; discriminate].
    destruct (match parseInt (Some height) with Some h => _ | None => None end);
      repeat split; discriminate.
  - split; [exact B|]. unfold requestOwnership.
    destruct (truthy_field address); [|repeat split; discriminate].
    rewrite challenge_truthy. repeat split; discriminate.
  - unfold submitStar.
    destruct (truthy_field (address body) && truthy_field (message body)
              && truthy_field (signature body) && Blockchain.truthy (star body))%bool.
    2:{ cbn [fst snd status Z.eqb Pos.eqb]. rewrite app_nil_r.
        split; [exact B | repeat split; discriminate]. }
    destruct (Blockchain.submitStar SHA256 verify now now' (field (address body))
                (field (message body)) (field (signature body)) (value (star body)) self)
      as [[b|e] self'] eqn:E; cbn [fst snd status Z.eqb Pos.eqb].
    + split; [|repeat split; discriminate].
      eapply built_submit; eassumption.
    + apply (submitStar_rejected SHA256 verify) in E as [-> N]; [|exact R].
      rewrite app_nil_r. split; [exact B|]. repeat split; try discriminate.
      intros log [= C]. now apply (N log).
  - split; [exact B|]. unfold getBlockByHash.
    destruct (truthy_string hash); [|repeat split; discriminate].
    destruct (Blockchain.getBlockByHash hash self); repeat split; discriminate.
  - split; [exact B|]. unfold getStarsByOwner.
    destruct (truthy_string address); [|repeat split; discriminate].
    rewrite (getStars_built SHA256 verify address hist self B).
    destruct (Spec.or_not_found _); repeat split; discriminate.
  - split; [exact B|]. unfold validateChain.
    rewrite (reachable_clean SHA256 self R). repeat split; try discriminate.
    now intros errors [= <-].
Qed.

(** One request on any ledger: the chain keeps its blocks. *)
Lemma handle_appends (self : Blockchain.t) (request : Request) :
  exists added,
    Blockchain.chain (snd (handle SHA256 verify request self))
    = (Blockchain.chain self ++ added)%list
    /\ Blockchain.height (snd (handle SHA256 verify request self))
       = Blockchain.height self + Z.of_nat (List.length added)
    /\ (List.length added <= 1)%nat.
Proof.
  assert (Same : exists added,
            Blockchain.chain self = (Blockchain.chain self ++ added)%list
            /\ Blockchain.height self
               = Blockchain.height self + Z.of_nat (List.length added)
            /\ (List.length added <= 1)%nat).
  { exists []. rewrite app_nil_r. cbn. repeat split; lia. }
  destruct request as [height | now address | now now' body | hash | address | ];
    cbn [handle fst snd]; trivial.
  unfold submitStar.
  destruct (truthy_field (address body) && truthy_field (message body)
            && truthy_field (signature body) && Blockchain.truthy (star body))%bool;
    [|exact Same].
  rewrite (submitStar_eq SHA256 verify).
  destruct (isFresh _ now); [|exact Same].
  destruct (verify _ _ _) as [[]|what]; [|exact Same|exact Same].
  pose proof (_addBlock_state SHA256 now'
                (Block.constructor (JObj [("owner", JStr (field (address body)));
                                          ("star", value (star body))])) self) as E.
  destruct (Blockchain._addBlock SHA256 now' _ self) as [[b|e] self']; cbn [snd] in *;
    subst self'; eexists; cbn [Blockchain.chain Blockchain.height];
    (split; [reflexivity|]); cbn; split; lia.
Qed.

Lemma serve_built (requests : list Request) :
  forall (hist : list (string * json)) (self : Blockchain.t),
    built SHA256 verify hist self ->
    built SHA256 verify
      (hist ++ submissions requests (fst (serve SHA256 verify requests self)))
      (snd (serve SHA256 verify requests self))
    /\ Forall sound_response (fst (serve SHA256 verify requests self))
    /\ List.length (fst (serve SHA256 verify requests self)) = List.length requests.
Proof.
  induction requests as [|request rest IH]; intros hist self B.
  - cbn. rewrite app_nil_r. repeat split; [exact B | constructor].
  - cbn [serve]. destruct (handle_built hist self request B) as [B1 S1].
    destruct (handle SHA256 verify request self) as [response self1].
    cbn [fst snd] in B1, S1.
    destruct (IH _ _ B1) as (B2 & S2 & L2).
    destruct (serve SHA256 verify rest self1) as [responses self2].
    cbn [fst snd submissions List.length] in *.
    rewrite <- app_assoc in B2. repeat split; [exact B2 | now constructor | now rewrite L2].
Qed.

End Engine.
End ControllerFacts.

Module ControllerProperties.
Import JS JSON Normal Ledger ChainFacts CodecFacts TimeFacts QueryFacts.
Import LedgerFacts SubmissionFacts ControllerFacts Controller.

Section Engine.
Variable SHA256 : string -> string.
Variable verify : string -> string -> string -> Completion bool.

Notation chain := Blockchain.chain.
Notation serve := (Controller.serve SHA256 verify).

(** GET /block/height/:height on a ledger built by genesis initialization
    and successful appends.  The handler answers 200 with the block at the
    index that parseInt reads from the parameter, and 404 "Block Not Found!"
    when parseInt reads no number, a negative number, or a number that is
    not below the length of the chain.  So the decimal text of the index of
    a block gets that block, and the genesis block is the answer to "0". *)
Theorem height_endpoint (self : Blockchain.t) :
  reachable SHA256 self ->
  (forall height, height <> EmptyString ->
     Controller.getBlockByHeight height self
     = match parseInt (Some height) with
       | Some h =>
           if 0 <=? h then
             match index (chain self) (Z.to_nat h) with
             | Some b => respond 200 (json_block b)
             | None => respond 404 (send_text "Block Not Found!")
             end
           else respond 404 (send_text "Block Not Found!")
       | None => respond 404 (send_text "Block Not Found!")
       end)
  /\ (forall i b, index (chain self) i = Some b ->
        Controller.getBlockByHeight (Number_toString (Z.of_nat i)) self
        = respond 200 (json_block b))
  /\ (exists genesis, index (chain self) 0 = Some genesis
        /\ Controller.getBlockByHeight "0" self = respond 200 (json_block genesis)).
Proof.
  intros R.
  assert (G : forall height, height <> EmptyString ->
     Controller.getBlockByHeight height self
     = match parseInt (Some height) with
       | Some h =>
           if 0 <=? h then
             match index (chain self) (Z.to_nat h) with
             | Some b => respond 200 (json_block b)
             | None => respond 404 (send_text "Block Not Found!")
             end
           else respond 404 (send_text "Block Not Found!")
       | None => respond 404 (send_text "Block Not Found!")
       end).
  { intros height NE. unfold Controller.getBlockByHeight.
    rewrite (proj2 (truthy_string_iff height) NE).
    destruct (parseInt (Some height)) as [h|]; [|reflexivity].
    rewrite (getBlockByHeight_reachable SHA256 self h R).
    now destruct (0 <=? h). }
  assert (D : forall i b, index (chain self) i = Some b ->
        Controller.getBlockByHeight (Number_toString (Z.of_nat i)) self
        = respond 200 (json_block b)).
  { intros i b Hb. rewrite G.
    - rewrite parseInt_Number_toString by lia.
      destruct (Z.leb_spec 0 (Z.of_nat i)); [|lia]. now rewrite Nat2Z.id, Hb.
    - apply truthy_string_iff, Number_toString_truthy. }
  split; [exact G|]. split; [exact D|].
  pose proof (reachable_nonempty SHA256 self R) as P.
  destruct (index (chain self) 0) as [g|] eqn:E.
  - exists g. split; [reflexivity|]. exact (D 0%nat g E).
  - apply nth_error_None in E. lia.
Qed.

(** GET /block/hash/:hash on a ledger built by genesis initialization and
    successful appends.  A block sent with 200 is a block of the chain that
    carries the hash asked for; a hash that no block carries gets 404 "Block
    Not Found!"; and when the digests of the blocks do not collide and are
    not empty, every block is sent for its own hash. *)
Theorem hash_endpoint (self : Blockchain.t) :
  reachable SHA256 self ->
  (forall hash b,
     Controller.getBlockByHash hash self = respond 200 (json_block b) ->
     In b (chain self) /\ Block.hash b = Some hash)
  /\ (forall hash, hash <> EmptyString ->
        (forall b, In b (chain self) -> Block.hash b <> Some hash) ->
        Controller.getBlockByHash hash self = respond 404 (send_text "Block Not Found!"))
  /\ (collision_free SHA256 (map text (chain self)) ->
      forall i b, index (chain self) i = Some b ->
        SHA256 (text b) <> EmptyString ->
        Block.hash b = Some (SHA256 (text b))
        /\ Controller.getBlockByHash (SHA256 (text b)) self = respond 200 (json_block b)).
Proof.
  intros R. split; [|split].
  - intros hash b. unfold Controller.getBlockByHash.
    destruct (truthy_string hash); [|discriminate].
    destruct (Blockchain.getBlockByHash hash self) as [x|] eqn:F; [|discriminate].
    intros [= <-]. now apply getBlockByHash_sound.
  - intros hash NE N. unfold Controller.getBlockByHash.
    rewrite (proj2 (truthy_string_iff hash) NE).
    now rewrite (proj2 (getBlockByHash_none self hash) N).
  - intros CF i b Hb NE. split; [now apply (reachable_sealed SHA256 self i)|].
    unfold Controller.getBlockByHash.
    rewrite (proj2 (truthy_string_iff _) NE).
    now rewrite (getBlockByHash_own SHA256 self i b R CF Hb).
Qed.

(** POST /submitstar on a ledger built by genesis initialization and
    successful appends: the answer is 200 or 500.  With 200 goes the new
    block, the last of the chain from then on, whose body is the encoding of
    the address and the star of the request.  With 500 the ledger is left as
    it was, and what is sent is "Check the Body Parameter!" exactly when the
    address, the message, the signature or the star is missing or falsy, or
    else the error for an expired message, the error for a failed
    verification, or what the verifier threw. *)
Theorem submitstar_endpoint (now now' : Z) (body : StarBody) (self : Blockchain.t) :
  reachable SHA256 self ->
  let response := fst (Controller.submitStar SHA256 verify now now' body self) in
  let self' := snd (Controller.submitStar SHA256 verify now now' body self) in
  let complete :=
    (truthy_field (address body) && truthy_field (message body)
     && truthy_field (signature body) && Blockchain.truthy (star body))%bool in
  (status response = 200
   /\ complete = true
   /\ exists b, sent response = json_block b
        /\ self' = Blockchain.mk (chain self ++ [b]) (Blockchain.height self + 1)
        /\ Block.body b = Block.encode (payload (field (address body), value (star body))))
  \/ (status response = 500
      /\ self' = self
      /\ (sent response = send_text "Check the Body Parameter!" /\ complete = false
          \/ complete = true
             /\ (sent response = send_error (Error "Message signature has expired.")
                 \/ sent response = send_error (Error "Signature verification failed.")
                 \/ exists what, sent response = send_error (Thrown what)))).
Proof.
  intros R. cbv zeta. unfold Controller.submitStar.
  destruct (truthy_field (address body) && truthy_field (message body)
            && truthy_field (signature body) && Blockchain.truthy (star body))%bool.
  2:{ right. cbn. repeat split. now left. }
  rewrite (submitStar_eq SHA256 verify).
  destruct (isFresh (field (message body)) now).
  - destruct (verify _ _ _) as [[]|what].
    + rewrite (_addBlock_clean SHA256) by (try reflexivity; now apply reachable_clean).
      left. cbn [fst snd status sent]. repeat split.
      eexists. repeat split. apply appended_body.
    + right. cbn. repeat split. right. split; [reflexivity|]. right. now left.
    + right. cbn. repeat split. right. split; [reflexivity|]. right. right. now exists what.
  - right. cbn. repeat split. right. split; [reflexivity|]. now left.
Qed.

(** The service never reports a failure of the engine.  Start the
    controller on a new ledger and let it handle any requests, one after the
    other.  Then the ledger at the end is the one built by the submissions
    that were answered with 200, in their order: its height is their number
    and validateChain finds nothing on it.  There is one response for each
    request, and none of them is the 500 "An error happened!", none carries
    the error log of a rejected append, and every log sent for GET
    /validateChain is empty. *)
Theorem service_never_fails (now : Z) (requests : list Request) :
  let served := serve requests (Blockchain.constructor SHA256 now) in
  let accepted := submissions requests (fst served) in
  built SHA256 verify accepted (snd served)
  /\ Blockchain.getChainHeight (snd served) = Z.of_nat (List.length accepted)
  /\ List.length (chain (snd served)) = S (List.length accepted)
  /\ Blockchain.validateChain SHA256 (snd served) = []
  /\ List.length (fst served) = List.length requests
  /\ Forall sound_response (fst served).
Proof.
  cbv zeta.
  destruct (serve_built SHA256 verify requests [] (Blockchain.constructor SHA256 now)
              (built_genesis SHA256 verify now)) as (B & S & L).
  cbn [app] in B. destruct (built_length SHA256 verify _ _ B) as [Lc H].
  repeat split; trivial.
  apply reachable_clean. now apply (built_reachable SHA256 verify) in B.
Qed.

(** From the challenge to the query.  On a ledger built by the engine, take
    an address that is not empty, holds no colon and is in ASCII, and a star
    that is truthy and in ASCII.  POST /requestValidation answers 200 with
    the challenge for the address.  When that challenge comes back within
    300 seconds in a POST /submitstar, with a signature that the verifier
    accepts for it, the answer is 200 with a new block; from then on GET
    /block/height/ with the height of the block answers 200 with the block,
    and GET /blocks/ with the address answers 200 with the stars found for
    the address before, followed by the new star. *)
Theorem registration_workflow (hist : list (string * json)) (self : Blockchain.t)
  (now now' now'' : Z) (address signature : string) (star : json) :
  built SHA256 verify hist self ->
  address <> EmptyString -> occurs ":" address = false -> is_ascii address = true ->
  signature <> EmptyString ->
  Blockchain.truthy (Some star) = true -> wf star -> all_ascii star = true ->
  1000 <= now -> 1000 <= now' -> now' / 1000 - now / 1000 < 300 ->
  verify (Blockchain.requestMessageOwnershipVerification now address) address signature
  = Returns true ->
  exists message b self' earlier,
    Controller.requestOwnership now (Some address) = respond 200 (json_message message)
    /\ message = address ++ ":" ++ Number_toString (now / 1000) ++ ":starRegistry"
    /\ Controller.submitStar SHA256 verify now' now''
         (mkStarBody (Some address) (Some message) (Some signature) (Some star)) self
       = (respond 200 (json_block b), self')
    /\ Block.height b = Z.of_nat (List.length hist) + 1
    /\ Block.getBData b = Resolved (payload (address, star))
    /\ Controller.getBlockByHeight (Number_toString (Block.height b)) self'
       = respond 200 (json_block b)
    /\ Blockchain.getStarsByWalletAddress address self = Resolved (Spec.or_not_found earlier)
    /\ Controller.getStarsByOwner address self'
       = respond 200 (json_stars (earlier ++ [star])).
Proof.
  intros B NE C A NS T W S L L' D V.
  pose proof (built_reachable SHA256 verify hist self B) as R.
  destruct (built_length SHA256 verify hist self B) as [Lc _].
  set (message := Blockchain.requestMessageOwnershipVerification now address) in *.
  set (b := appended SHA256 now'' (Block.constructor (payload (address, star))) self).
  set (self' := Blockchain.mk (chain self ++ [b]) (Blockchain.height self + 1)).
  assert (F : isFresh message now' = true).
  { unfold message. rewrite isFresh_issued by trivial. apply Z.ltb_lt. lia. }
  assert (E : Blockchain.submitStar SHA256 verify now' now'' address message signature
                star self = (Resolved b, self')).
  { rewrite (submitStar_eq SHA256 verify), F, V.
    apply _addBlock_clean; [now apply reachable_clean | reflexivity]. }
  assert (B' : built SHA256 verify (hist ++ [(address, star)]) self')
    by (eapply built_submit; eassumption).
  pose proof (built_reachable SHA256 verify _ _ B') as R'.
  exists message, b, self', (Blockchain.defined (map (star_for address) hist)).
  split; [|split; [|split; [|split; [|split; [|split; [|split]]]]]].
  - unfold Controller.requestOwnership. cbn [truthy_field field].
    rewrite (proj2 (truthy_string_iff address) NE).
    now rewrite (challenge_truthy now address).
  - unfold message, Blockchain.requestMessageOwnershipVerification.
    now rewrite seconds_text_eq.
  - unfold Controller.submitStar.
    cbn [Controller.address Controller.message Controller.signature Controller.star
         truthy_field field value].
    rewrite (proj2 (truthy_string_iff address) NE), (proj2 (truthy_string_iff signature) NS).
    rewrite T. unfold message at 1. rewrite (challenge_truthy now address).
    cbn [andb]. now rewrite E.
  - unfold b. rewrite appended_height, Lc. lia.
  - apply (getBData_payload SHA256 now'' address star self); trivial. lia.
  - unfold Controller.getBlockByHeight. rewrite Number_toString_truthy.
    unfold b at 1. rewrite appended_height, parseInt_Number_toString by lia.
    rewrite (getBlockByHeight_reachable SHA256 self' _ R').
    destruct (Z.leb_spec 0 (Z.of_nat (List.length (chain self)))); [|lia].
    rewrite Nat2Z.id. unfold self'. cbn [chain]. now rewrite index_app_new.
  - apply (getStars_built SHA256 verify address hist self B).
  - unfold Controller.getStarsByOwner.
    rewrite (proj2 (truthy_string_iff address) NE).
    rewrite (getStars_built SHA256 verify address _ _ B').
    rewrite map_app, defined_app. cbn [map].
    rewrite (star_for_own address star NE A W S). cbn [Blockchain.defined].
    now rewrite or_not_found_app.
Qed.

(** One unreadable body fails the query for every address.  When the chain
    holds a block whose body hex2ascii turns into a text that starts no
    JSON value (SyntaxError of JSON.parse), or into the text of null
    (TypeError on reading the owner of null), getStarsByWalletAddress is
    rejected with an exception, whatever the address, and GET /blocks/
    answers 500 "An error happened!".  When every body is read as a value
    other than null, the query resolves. *)
Theorem unreadable_body_fails_every_query (self : Blockchain.t) (address : string) :
  (forall b, In b (chain self) ->
     Forgery.not_json (Hex2Ascii.hex2ascii (Block.body b)) = true
     \/ Block.decode (Block.body b) = Some JNull ->
     (exists what, Blockchain.getStarsByWalletAddress address self
                   = Rejected (Thrown what))
     /\ (address <> EmptyString ->
         Controller.getStarsByOwner address self
         = respond 500 (send_text "An error happened!")))
  /\ ((forall b, In b (chain self) ->
         exists v, Block.decode (Block.body b) = Some v /\ v <> JNull) ->
      exists stars, Blockchain.getStarsByWalletAddress address self = Resolved stars).
Proof.
  unfold Controller.getStarsByOwner, Blockchain.getStarsByWalletAddress. split.
  - intros b I D.
    destruct (star_of_unreadable address b D) as (w & T).
    destruct (map_completion_thrown _ _ b w I T) as (what & ->).
    split; [now exists what|]. intros NE.
    now rewrite (proj2 (truthy_string_iff address) NE).
  - intros R.
    destruct (map_completion_returns (Blockchain.star_of address) (chain self))
      as (mapped & ->).
    + intros b I. destruct (R b I) as (v & D & N).
      exact (star_of_readable address b v D N).
    + destruct (0 <? _)%nat; eauto.
Qed.

(** The service only appends.  Whatever the ledger and whatever the
    requests, handled one after the other, the chain at the end is the chain
    at the start followed by the blocks added, at most one for each request:
    no request removes, replaces or reorders a stored block, and the height
    field has grown by the number of blocks added. *)
Theorem service_only_appends (requests : list Request) (self : Blockchain.t) :
  exists added,
    chain (snd (serve requests self)) = (chain self ++ added)%list
    /\ Blockchain.height (snd (serve requests self))
       = Blockchain.height self + Z.of_nat (List.length added)
    /\ (List.length added <= List.length requests)%nat.
Proof.
  revert self. induction requests as [|request rest IH]; intros self.
  - exists []. cbn. rewrite app_nil_r. repeat split; lia.
  - cbn [Controller.serve].
    destruct (handle_appends SHA256 verify self request) as (a1 & C1 & H1 & L1).
    destruct (handle SHA256 verify request self) as [response self1]. cbn [snd] in *.
    destruct (IH self1) as (a2 & C2 & H2 & L2).
    destruct (Controller.serve SHA256 verify rest self1) as [responses self2].
    cbn [snd] in *. exists (a1 ++ a2)%list.
    rewrite C2, C1, H2, H1, app_assoc, length_app. cbn [List.length].
    repeat split; lia.
Qed.

End Engine.

(** GET /block/height/1 and GET /block/height/abc on the sample ledger. *)
Lemma height_endpoint_witness :
  Controller.getBlockByHeight "1" Sample.ledger1 = respond 200 (json_block Examples.block1)
  /\ Controller.getBlockByHeight "abc" Sample.ledger1
     = respond 404 (send_text "Block Not Found!").
Proof.
  destruct (height_endpoint CryptoJS.SHA256 Sample.ledger1 SampleFacts.ledger1_reachable)
    as (G & D & _).
  split.
  - apply (D 1%nat). rewrite ExampleFacts.sample_chain. reflexivity.
  - apply (G "abc"). discriminate.
Defined.

(** GET /block/hash/ with the hash of the genesis block of the sample
    ledger, the digests computed by SHA-256. *)
Lemma hash_endpoint_witness :
  Block.hash Sample.genesis_block = Some (CryptoJS.SHA256 (text Sample.genesis_block))
  /\ Controller.getBlockByHash (CryptoJS.SHA256 (text Sample.genesis_block)) Sample.ledger1
     = respond 200 (json_block Sample.genesis_block).
Proof.
  destruct (hash_endpoint CryptoJS.SHA256 Sample.ledger1 SampleFacts.ledger1_reachable)
    as (_ & _ & F).
  apply (F ExampleFacts.sample_collision_free 0%nat).
  - rewrite ExampleFacts.sample_chain. reflexivity.
  - vm_compute. discriminate.
Defined.

(** POST /submitstar with the sample request on a new ledger. *)
Lemma submitstar_endpoint_witness :
  let response :=
    fst (Controller.submitStar CryptoJS.SHA256 Sample.verify Sample.t1 Sample.t1
           Examples.request Sample.genesis_ledger) in
  let self' :=
    snd (Controller.submitStar CryptoJS.SHA256 Sample.verify Sample.t1 Sample.t1
           Examples.request Sample.genesis_ledger) in
  let complete :=
    (truthy_field (address Examples.request) && truthy_field (message Examples.request)
     && truthy_field (signature Examples.request)
     && Blockchain.truthy (star Examples.request))%bool in
  (status response = 200
   /\ complete = true
   /\ exists b, sent response = json_block b
        /\ self' = Blockchain.mk (Blockchain.chain Sample.genesis_ledger ++ [b])
                     (Blockchain.height Sample.genesis_ledger + 1)
        /\ Block.body b
           = Block.encode (payload (field (address Examples.request),
                                    value (star Examples.request))))
  \/ (status response = 500
      /\ self' = Sample.genesis_ledger
      /\ (sent response = send_text "Check the Body Parameter!" /\ complete = false
          \/ complete = true
             /\ (sent response = send_error (Error "Message signature has expired.")
                 \/ sent response = send_error (Error "Signature verification failed.")
                 \/ exists what, sent response = send_error (Thrown what)))).
Proof.
  exact (submitstar_endpoint CryptoJS.SHA256 Sample.verify Sample.t1 Sample.t1
           Examples.request Sample.genesis_ledger SampleFacts.genesis_reachable).
Defined.

(** The workflow on a new ledger: the challenge is issued at [t0] and
    submitted at [t1], 100 seconds later. *)
Lemma registration_workflow_witness :
  exists message b self' earlier,
    Controller.requestOwnership Sample.t0 (Some Examples.address)
    = respond 200 (json_message message)
    /\ message = Examples.address ++ ":" ++ Number_toString (Sample.t0 / 1000)
                 ++ ":starRegistry"
    /\ Controller.submitStar CryptoJS.SHA256 Sample.verify Sample.t1 Sample.t1
         (mkStarBody (Some Examples.address) (Some message) (Some "valid")
            (Some Sample.star)) Sample.genesis_ledger
       = (respond 200 (json_block b), self')
    /\ Block.height b = Z.of_nat (@List.length (string * json) []) + 1
    /\ Block.getBData b = Resolved (payload (Examples.address, Sample.star))
    /\ Controller.getBlockByHeight (Number_toString (Block.height b)) self'
       = respond 200 (json_block b)
    /\ Blockchain.getStarsByWalletAddress Examples.address Sample.genesis_ledger
       = Resolved (Spec.or_not_found earlier)
    /\ Controller.getStarsByOwner Examples.address self'
       = respond 200 (json_stars (earlier ++ [Sample.star])).
Proof.
  apply (registration_workflow CryptoJS.SHA256 Sample.verify [] Sample.genesis_ledger
           Sample.t0 Sample.t1 Sample.t1 Examples.address "valid" Sample.star).
  - apply built_genesis.
  - discriminate.
  - reflexivity.
  - reflexivity.
  - discriminate.
  - reflexivity.
  - reflexivity.
  - reflexivity.
  - now apply Z.leb_le.
  - now apply Z.leb_le.
  - vm_compute. reflexivity.
  - reflexivity.
Defined.

(** The sample session: one submission is accepted, and the six responses
    tell of no failure. *)
Lemma service_never_fails_witness :
  Blockchain.getChainHeight
    (snd (Controller.serve CryptoJS.SHA256 Sample.verify Examples.session
            (Blockchain.constructor CryptoJS.SHA256 Sample.t0))) = 1
  /\ List.length
       (fst (Controller.serve CryptoJS.SHA256 Sample.verify Examples.session
               (Blockchain.constructor CryptoJS.SHA256 Sample.t0))) = 6%nat
  /\ Forall sound_response
       (fst (Controller.serve CryptoJS.SHA256 Sample.verify Examples.session
               (Blockchain.constructor CryptoJS.SHA256 Sample.t0))).
Proof.
  destruct (service_never_fails CryptoJS.SHA256 Sample.verify Sample.t0 Examples.session)
    as (_ & H & _ & _ & L & S).
  split; [|split; [exact L | exact S]].
  rewrite H. vm_compute. reflexivity.
Defined.

(** The sample ledger with the body of its genesis block made unreadable:
    the query fails for the sample address. *)
Lemma unreadable_body_fails_every_query_witness :
  (exists what,
     Blockchain.getStarsByWalletAddress Examples.address
       (tamper 0 Examples.unreadable_genesis Sample.ledger1) = Rejected (Thrown what))
  /\ Controller.getStarsByOwner Examples.address
       (tamper 0 Examples.unreadable_genesis Sample.ledger1)
     = respond 500 (send_text "An error happened!").
Proof.
  destruct (unreadable_body_fails_every_query
              (tamper 0 Examples.unreadable_genesis Sample.ledger1) Examples.address)
    as [F _].
  destruct (F Examples.unreadable_genesis) as [Q E].
  - unfold tamper. rewrite ExampleFacts.sample_chain. now left.
  - left. vm_compute. reflexivity.
  - split; [exact Q|]. apply E. discriminate.
Defined.

End ControllerProperties.
